(** * TinyShanzaiRogueOSC: the simulation engine of [game.py], embedded and verified.

    The engine is a single mutable [Game] object.  It is modelled here by
    explicit state passing: every method of the class becomes a function from
    a [Game] record (and the random source) to the updated record.  Python
    integers are [Z]; Python lists are [list]; [str] values are [string]
    (a byte sequence holding the UTF-8 image of the text, every literal of
    the program being ASCII); exceptions and unbounded [while True] loops are
    made explicit by the [result] type. *)

From Stdlib Require Import ZArith List String Ascii Bool Lia DecimalString.
From Stdlib.Strings Require Import Byte.
Import ListNotations.

#[global] Open Scope string_scope.
#[global] Open Scope list_scope.
#[global] Open Scope Z_scope.

(** ** Outcomes of a call *)

(** The exceptions the engine can raise: a list index out of range, and
    [random.randint] over an empty range. *)
Inductive exn : Set := IndexError | ValueError.

(** A call returns a value, raises, or is still looping when the step budget
    of its [while True] loop is spent. *)
Inductive result (A : Type) : Type :=
| Ok (a : A)
| Raise (e : exn)
| Timeout.

Arguments Ok {A} a.
Arguments Raise {A} e.
Arguments Timeout {A}.

Definition bind {A B : Type} (r : result A) (k : A -> result B) : result B :=
  match r with
  | Ok a => k a
  | Raise e => Raise e
  | Timeout => Timeout
  end.

Notation "x <- c1 ;; c2" := (bind c1 (fun x => c2))
  (at level 61, c1 at next level, right associativity).
Notation "' pat <- c1 ;; c2" := (bind c1 (fun x => match x with pat => c2 end))
  (at level 61, pat pattern, c1 at next level, right associativity).

(** ** The random source

    Python's global [random] generator is modelled by an arbitrary infinite
    sequence of raw draws together with a cursor.  Quantifying over [src]
    quantifies over every outcome of the random choices. *)
Record Rng : Type := mkRng { src : nat -> nat; cur : nat }.

Definition draw (r : Rng) : nat * Rng :=
  (src r (cur r), mkRng (src r) (S (cur r))).

(** [random.choice(seq)] for a non-empty literal list given by head and tail. *)
Definition random_choice {A : Type} (a : A) (rest : list A) (r : Rng) : A * Rng :=
  let '(n, r') := draw r in
  (nth (n mod (S (List.length rest))) (a :: rest) a, r').

(** [random.randint(a, b)]: uniform on [a..b], [ValueError] on an empty range. *)
Definition random_randint (a b : Z) (r : Rng) : result (Z * Rng) :=
  if b <? a then Raise ValueError
  else let '(n, r') := draw r in
       Ok (a + Z.of_nat n mod (b - a + 1), r').

(** [random.random() < p] for a bias [p] given in hundredths: the float in
    [0, 1) is abstracted to its hundredths digit pair. *)
Definition random_lt (percent : nat) (r : Rng) : bool * Rng :=
  let '(n, r') := draw r in
  (Nat.ltb (n mod 100) percent, r').

(** ** Python list indexing *)

(** A valid index is in [-len, len); negative indices count from the end. *)
Definition py_index {A : Type} (l : list A) (i : Z) : result nat :=
  let n := Z.of_nat (List.length l) in
  if (0 <=? i) && (i <? n) then Ok (Z.to_nat i)
  else if (- n <=? i) && (i <? 0) then Ok (Z.to_nat (i + n))
  else Raise IndexError.

Definition getitem {A : Type} (l : list A) (i : Z) : result A :=
  k <- py_index l i ;;
  match nth_error l k with
  | Some a => Ok a
  | None => Raise IndexError
  end.

Fixpoint replace_nth {A : Type} (k : nat) (l : list A) (v : A) : list A :=
  match l, k with
  | [], _ => []
  | _ :: t, O => v :: t
  | h :: t, S k' => h :: replace_nth k' t v
  end.

Definition setitem {A : Type} (l : list A) (i : Z) (v : A) : result (list A) :=
  k <- py_index l i ;;
  Ok (replace_nth k l v).

(** ** Data model *)

(** The three tile constants [WALL = "#"], [FLOOR = "."], [STAIRS_DOWN = ">"]. *)
Inductive Tile : Set := WALL | FLOOR | STAIRS_DOWN.

Definition tile_char (t : Tile) : string :=
  match t with WALL => "#" | FLOOR => "." | STAIRS_DOWN => ">" end.

Definition Tile_eqb (a b : Tile) : bool :=
  match a, b with
  | WALL, WALL | FLOOR, FLOOR | STAIRS_DOWN, STAIRS_DOWN => true
  | _, _ => false
  end.

Definition MAX_HP : Z := 10.

Record Entity : Type := mkEntity {
  e_x : Z; e_y : Z; e_char : string; e_name : string; e_hp : Z
}.

(** [Item.kind] is only ever ["weapon"] or ["potion"]. *)
Inductive Kind : Set := weapon | potion.

Definition kind_str (k : Kind) : string :=
  match k with weapon => "weapon" | potion => "potion" end.

Record Item : Type := mkItem {
  i_x : Z; i_y : Z; i_char : string; i_name : string; i_kind : Kind; i_power : Z
}.

(** ** Telemetry Encoder *)

(** An argument of [_osc_pack].  A float argument is given by what
    [struct.pack(">f", float(a))] makes of it: the four big-endian bytes of
    its binary32 image, or [None] for a value outside the binary32 range, on
    which packing raises [OverflowError].  No call site of the program passes
    a float. *)
Inductive OscArg : Type :=
| AInt (n : Z)
| AFloat (image : option (byte * byte * byte * byte))
| AStr (s : string).

Definition byte_of_Z (z : Z) : byte :=
  match Byte.of_N (Z.to_N (z mod 256)) with
  | Some b => b
  | None => x00
  end.

(** The [while len(data) % 4 != 0: data += b"\0"] loop. *)
Fixpoint pad_loop (fuel : nat) (data : list byte) : list byte :=
  match fuel with
  | O => data
  | S f =>
      if Nat.eqb (List.length data mod 4) 0 then data
      else pad_loop f (data ++ [x00])
  end.

Definition _osc_pack_string (s : string) : list byte :=
  pad_loop 4 (list_byte_of_string s ++ [x00]).

(** [struct.pack(">i", a)]: raises [struct.error] outside the signed 32-bit
    range (rendered [None]: the caller swallows every exception). *)
Definition pack_be_i32 (a : Z) : option (list byte) :=
  if (- 2147483648 <=? a) && (a <? 2147483648) then
    let u := a mod 4294967296 in
    Some [byte_of_Z (u / 16777216); byte_of_Z (u / 65536);
          byte_of_Z (u / 256); byte_of_Z u]
  else None.

Definition osc_tag (a : OscArg) : string :=
  match a with AInt _ => "i" | AFloat _ => "f" | AStr _ => "s" end.

Definition osc_tags (args : list OscArg) : string :=
  fold_left (fun tags a => String.append tags (osc_tag a)) args ",".

Definition osc_arg_bytes (a : OscArg) : option (list byte) :=
  match a with
  | AInt n => pack_be_i32 n
  | AFloat (Some (b3, b2, b1, b0)) => Some [b3; b2; b1; b0]
  | AFloat None => None
  | AStr s => Some (_osc_pack_string s)
  end.

Fixpoint osc_args_bytes (blob : list byte) (args : list OscArg) : option (list byte) :=
  match args with
  | [] => Some blob
  | a :: rest =>
      match osc_arg_bytes a with
      | Some bs => osc_args_bytes (blob ++ bs) rest
      | None => None
      end
  end.

Definition _osc_pack (address : string) (args : list OscArg) : option (list byte) :=
  let blob := _osc_pack_string address in
  let tags := osc_tags args in
  let blob := blob ++ _osc_pack_string tags in
  osc_args_bytes blob args.

(** ** Game state

    The fields of the [Game] dataclass, in declaration order.  The UDP socket
    is replaced by [osc_sent], the sequence of datagrams handed to [sendto]. *)
Record Game : Type := mkGame {
  width : Z;
  height : Z;
  num_monsters : Z;
  num_items : Z;
  tiles : list (list Tile);
  player : option Entity;
  monsters : list Entity;
  items : list Item;
  messages : list string;
  level : Z;
  inventory : list Item;
  current_weapon : option Item;
  _monster_turn_counter : Z;
  nezha_phase : Z;
  osc_sent : list (list byte)
}.

(** Field assignments [self.f = v]. *)
Definition set_tiles (g : Game) (v : list (list Tile)) : Game :=
  {| width := width g; height := height g; num_monsters := num_monsters g; num_items := num_items g; tiles := v; player := player g; monsters := monsters g; items := items g; messages := messages g; level := level g; inventory := inventory g; current_weapon := current_weapon g; _monster_turn_counter := _monster_turn_counter g; nezha_phase := nezha_phase g; osc_sent := osc_sent g |}.
Definition set_player (g : Game) (v : option Entity) : Game :=
  {| width := width g; height := height g; num_monsters := num_monsters g; num_items := num_items g; tiles := tiles g; player := v; monsters := monsters g; items := items g; messages := messages g; level := level g; inventory := inventory g; current_weapon := current_weapon g; _monster_turn_counter := _monster_turn_counter g; nezha_phase := nezha_phase g; osc_sent := osc_sent g |}.
Definition set_monsters (g : Game) (v : list Entity) : Game :=
  {| width := width g; height := height g; num_monsters := num_monsters g; num_items := num_items g; tiles := tiles g; player := player g; monsters := v; items := items g; messages := messages g; level := level g; inventory := inventory g; current_weapon := current_weapon g; _monster_turn_counter := _monster_turn_counter g; nezha_phase := nezha_phase g; osc_sent := osc_sent g |}.
Definition set_items (g : Game) (v : list Item) : Game :=
  {| width := width g; height := height g; num_monsters := num_monsters g; num_items := num_items g; tiles := tiles g; player := player g; monsters := monsters g; items := v; messages := messages g; level := level g; inventory := inventory g; current_weapon := current_weapon g; _monster_turn_counter := _monster_turn_counter g; nezha_phase := nezha_phase g; osc_sent := osc_sent g |}.
Definition set_messages (g : Game) (v : list string) : Game :=
  {| width := width g; height := height g; num_monsters := num_monsters g; num_items := num_items g; tiles := tiles g; player := player g; monsters := monsters g; items := items g; messages := v; level := level g; inventory := inventory g; current_weapon := current_weapon g; _monster_turn_counter := _monster_turn_counter g; nezha_phase := nezha_phase g; osc_sent := osc_sent g |}.
Definition set_level (g : Game) (v : Z) : Game :=
  {| width := width g; height := height g; num_monsters := num_monsters g; num_items := num_items g; tiles := tiles g; player := player g; monsters := monsters g; items := items g; messages := messages g; level := v; inventory := inventory g; current_weapon := current_weapon g; _monster_turn_counter := _monster_turn_counter g; nezha_phase := nezha_phase g; osc_sent := osc_sent g |}.
Definition set_inventory (g : Game) (v : list Item) : Game :=
  {| width := width g; height := height g; num_monsters := num_monsters g; num_items := num_items g; tiles := tiles g; player := player g; monsters := monsters g; items := items g; messages := messages g; level := level g; inventory := v; current_weapon := current_weapon g; _monster_turn_counter := _monster_turn_counter g; nezha_phase := nezha_phase g; osc_sent := osc_sent g |}.
Definition set_current_weapon (g : Game) (v : option Item) : Game :=
  {| width := width g; height := height g; num_monsters := num_monsters g; num_items := num_items g; tiles := tiles g; player := player g; monsters := monsters g; items := items g; messages := messages g; level := level g; inventory := inventory g; current_weapon := v; _monster_turn_counter := _monster_turn_counter g; nezha_phase := nezha_phase g; osc_sent := osc_sent g |}.
Definition set_monster_turn_counter (g : Game) (v : Z) : Game :=
  {| width := width g; height := height g; num_monsters := num_monsters g; num_items := num_items g; tiles := tiles g; player := player g; monsters := monsters g; items := items g; messages := messages g; level := level g; inventory := inventory g; current_weapon := current_weapon g; _monster_turn_counter := v; nezha_phase := nezha_phase g; osc_sent := osc_sent g |}.
Definition set_nezha_phase (g : Game) (v : Z) : Game :=
  {| width := width g; height := height g; num_monsters := num_monsters g; num_items := num_items g; tiles := tiles g; player := player g; monsters := monsters g; items := items g; messages := messages g; level := level g; inventory := inventory g; current_weapon := current_weapon g; _monster_turn_counter := _monster_turn_counter g; nezha_phase := v; osc_sent := osc_sent g |}.
Definition set_osc_sent (g : Game) (v : list (list byte)) : Game :=
  {| width := width g; height := height g; num_monsters := num_monsters g; num_items := num_items g; tiles := tiles g; player := player g; monsters := monsters g; items := items g; messages := messages g; level := level g; inventory := inventory g; current_weapon := current_weapon g; _monster_turn_counter := _monster_turn_counter g; nezha_phase := nezha_phase g; osc_sent := v |}.

Definition add_message (g : Game) (s : string) : Game :=
  set_messages g (messages g ++ [s]).

(** Decimal rendering of an integer inside an f-string. *)
Definition str_of_int (n : Z) : string := NilZero.string_of_int (Z.to_int n).

(** ** Telemetry emission *)

(** [_osc_send]: pack and hand to the socket; any exception is suppressed. *)
Definition _osc_send (address : string) (args : list OscArg) (g : Game) : Game :=
  match _osc_pack address args with
  | Some packet => set_osc_sent g (osc_sent g ++ [packet])
  | None => g
  end.

Definition _send_osc_state (event : string) (g : Game) : Game :=
  match player g with
  | None => g
  | Some p =>
      let g := _osc_send "/player" [AInt (e_x p); AInt (e_y p); AInt (e_hp p)] g in
      let g := _osc_send "/level" [AInt (level g)] g in
      let g := _osc_send "/monsters" [AInt (Z.of_nat (List.length (monsters g)))] g in
      let g := if String.eqb event "" then g else _osc_send "/event" [AStr event] g in
      match rev (messages g) with
      | [] => g
      | last :: _ => _osc_send "/message" [AStr last] g
      end
  end.

(** ** Helpers *)

Definition in_bounds (g : Game) (x y : Z) : bool :=
  (0 <=? x) && (x <? width g) && (0 <=? y) && (y <? height g).

Definition monster_here (x y : Z) (m : Entity) : bool :=
  (e_x m =? x) && (e_y m =? y) && (0 <? e_hp m).

(** First living monster at a cell, with its index in the collection: the
    index stands for the identity of the Python object, which the caller
    mutates in place. *)
Fixpoint first_monster (ms : list Entity) (x y : Z) (i : nat) : option (nat * Entity) :=
  match ms with
  | [] => None
  | m :: rest =>
      if monster_here x y m then Some (i, m) else first_monster rest x y (S i)
  end.

Definition get_monster_at (g : Game) (x y : Z) : option (nat * Entity) :=
  first_monster (monsters g) x y O.

Definition get_entity_at (g : Game) (x y : Z) : option Entity :=
  match player g with
  | Some p =>
      if (e_x p =? x) && (e_y p =? y) then Some p
      else option_map snd (first_monster (monsters g) x y O)
  | None => option_map snd (first_monster (monsters g) x y O)
  end.

Definition get_item_at (g : Game) (x y : Z) : option Item :=
  find (fun it => (i_x it =? x) && (i_y it =? y)) (items g).

(** [self.tiles[y][x]] and [self.tiles[y][x] = v]. *)
Definition get_tile (t : list (list Tile)) (x y : Z) : result Tile :=
  row <- getitem t y ;; getitem row x.

Definition set_tile (t : list (list Tile)) (x y : Z) (v : Tile) : result (list (list Tile)) :=
  row <- getitem t y ;;
  row' <- setitem row x v ;;
  setitem t y row'.

Definition is_none {A : Type} (o : option A) : bool :=
  match o with None => true | Some _ => false end.

Definition walkable_tile (t : Tile) : bool :=
  match t with FLOOR | STAIRS_DOWN => true | WALL => false end.

Definition is_walkable (g : Game) (x y : Z) : result bool :=
  if negb (in_bounds g x y) then Ok false
  else
    t <- get_tile (tiles g) x y ;;
    if negb (walkable_tile t) then Ok false
    else if negb (is_none (get_entity_at g x y)) then Ok false
    else Ok true.

(** ** Level Generator *)

(** The rejection-sampling loop; [fuel] bounds the number of samples. *)
Fixpoint find_random_floor (fuel : nat) (g : Game) (rng : Rng) : result (Z * Z * Rng) :=
  match fuel with
  | O => Timeout
  | S f =>
      '(x, rng) <- random_randint 1 (width g - 2) rng ;;
      '(y, rng) <- random_randint 1 (height g - 2) rng ;;
      t <- get_tile (tiles g) x y ;;
      if Tile_eqb t FLOOR && is_none (get_entity_at g x y) && is_none (get_item_at g x y)
      then Ok (x, y, rng)
      else find_random_floor f g rng
  end.

Definition blank_tiles (w h : Z) : list (list Tile) :=
  repeat (repeat WALL (Z.to_nat w)) (Z.to_nat h).

(** The random walk that carves the cavern: [n] iterations from [(x, y)]. *)
Fixpoint carve (n : nat) (w h : Z) (t : list (list Tile)) (x y : Z) (rng : Rng)
  : result (list (list Tile) * Rng) :=
  match n with
  | O => Ok (t, rng)
  | S n' =>
      t <- set_tile t x y FLOOR ;;
      let '((dx, dy), rng) := random_choice (1, 0) [(-1, 0); (0, 1); (0, -1)] rng in
      carve n' w h t (Z.max 1 (Z.min (w - 2) (x + dx)))
                     (Z.max 1 (Z.min (h - 2) (y + dy))) rng
  end.

Fixpoint spawn_monsters (fuel n : nat) (g : Game) (rng : Rng) : result (Game * Rng) :=
  match n with
  | O => Ok (g, rng)
  | S n' =>
      '(mx, my, rng) <- find_random_floor fuel g rng ;;
      let hp := 3 + Z.max 0 (level g - 1) in
      spawn_monsters fuel n'
        (set_monsters g (monsters g ++ [mkEntity mx my "g" "Goblin" hp])) rng
  end.

Definition spawn_nezha (fuel : nat) (g : Game) (rng : Rng) : result (Game * Rng) :=
  if (2 <=? level g) && (nezha_phase g <? 3) then
    '(nx, ny, rng) <- find_random_floor fuel g rng ;;
    let hp := 8 + nezha_phase g * 5 in
    let g := set_monsters g (monsters g ++ [mkEntity nx ny "N" "Nezha" hp]) in
    let g := add_message g
      ("NEZHA PROTOCOL phase " ++ str_of_int (nezha_phase g + 1)
         ++ " detected in this cavern.")%string in
    Ok (_osc_send "/event" [AStr "nezha_spawn"] g, rng)
  else Ok (g, rng).

Definition weapon_defs : list (string * string * Z) :=
  [("/", "Rusty Dagger", 1); ("/", "Short Sword", 2);
   (")", "War Axe", 3); (")", "Crystal Blade", 4)].

Fixpoint spawn_items (fuel n : nat) (g : Game) (rng : Rng) : result (Game * Rng) :=
  match n with
  | O => Ok (g, rng)
  | S n' =>
      '(ix, iy, rng) <- find_random_floor fuel g rng ;;
      let '(kind, rng) := random_choice weapon [weapon; potion] rng in
      match kind with
      | weapon =>
          let '((char, name, power), rng) :=
            random_choice ("/", "Rusty Dagger", 1)
              [("/", "Short Sword", 2); (")", "War Axe", 3); (")", "Crystal Blade", 4)]
              rng in
          let power := power + Z.max 0 (level g - 1) / 2 in
          spawn_items fuel n'
            (set_items g (items g ++ [mkItem ix iy char name weapon power])) rng
      | potion =>
          let power := 4 + level g in
          spawn_items fuel n'
            (set_items g (items g ++ [mkItem ix iy "!" "Healing Potion" potion power])) rng
      end
  end.

Definition new_level (fuel : nat) (first : bool) (g : Game) (rng : Rng)
  : result (Game * Rng) :=
  let g :=
    if first then g
    else
      let g := set_level g (level g + 1) in
      add_message g ("You descend to cavern level " ++ str_of_int (level g) ++ ".")%string in
  let g := set_tiles g (blank_tiles (width g) (height g)) in
  '(t, rng) <- carve (Z.to_nat (width g * height g * 4)) (width g) (height g)
                 (tiles g) (width g / 2) (height g / 2) rng ;;
  let g := set_tiles g t in
  '(px, py, rng) <- find_random_floor fuel g rng ;;
  let g :=
    match first, player g with
    | false, Some p =>
        set_player g (Some (mkEntity px py (e_char p) (e_name p) (e_hp p)))
    | _, _ => set_player g (Some (mkEntity px py "@" "Player" MAX_HP))
    end in
  let g := set_monsters g [] in
  '(g, rng) <- spawn_monsters fuel (Z.to_nat (num_monsters g)) g rng ;;
  '(g, rng) <- spawn_nezha fuel g rng ;;
  let g := set_items g [] in
  '(g, rng) <- spawn_items fuel (Z.to_nat (num_items g)) g rng ;;
  '(sx, sy, rng) <- find_random_floor fuel g rng ;;
  t <- set_tile (tiles g) sx sy STAIRS_DOWN ;;
  let g := set_tiles g t in
  let g :=
    if first then set_messages g ["Welcome to Tiny Shanzai Rogue."]
    else add_message g "Concrete corridors shift below..." in
  Ok (_send_osc_state "new_level" g, rng).

(** ** Monster AI Scheduler *)

Definition is_nezha (m : Entity) : bool := String.eqb (e_name m) "Nezha".

Definition is_walkable_for_monster (g : Game) (x y : Z) : result bool :=
  if negb (in_bounds g x y) then Ok false
  else
    t <- get_tile (tiles g) x y ;;
    if negb (walkable_tile t) then Ok false
    else if existsb (monster_here x y) (monsters g) then Ok false
    else
      match player g with
      | Some p => if (e_x p =? x) && (e_y p =? y) then Ok false else Ok true
      | None => Ok true
      end.

(** The body of [for m in self.monsters], for the monster at index [i]. *)
Definition monster_turn (i : nat) (g : Game) (rng : Rng) : result (Game * Rng) :=
  match player g, nth_error (monsters g) i with
  | Some p, Some m =>
      if e_hp m <=? 0 then Ok (g, rng)
      else
        let chase_bias := if is_nezha m then 90%nat else 75%nat in
        let '(chase, rng) := random_lt chase_bias rng in
        let '((dx, dy), rng) :=
          if chase then ((Z.sgn (e_x p - e_x m), Z.sgn (e_y p - e_y m)), rng)
          else random_choice (1, 0) [(-1, 0); (0, 1); (0, -1); (0, 0)] rng in
        let nx := e_x m + dx in
        let ny := e_y m + dy in
        if (nx =? e_x p) && (ny =? e_y p) then
          '(r, rng) <- random_randint 1 3 rng ;;
          let base := r + Z.max 0 (level g - 1) / 2 in
          let base := if is_nezha m then base + (1 + nezha_phase g) else base in
          let dmg := base in
          let p' := mkEntity (e_x p) (e_y p) (e_char p) (e_name p) (e_hp p - dmg) in
          let g := set_player g (Some p') in
          let g := add_message g
            ("The " ++ e_name m ++ " hits you for " ++ str_of_int dmg ++ " damage!")%string in
          if e_hp p' <=? 0 then
            let g := add_message g "You fall between slabs of concrete. Game over." in
            Ok (_send_osc_state "player_die" g, rng)
          else Ok (_send_osc_state "player_hit" g, rng)
        else
          ok <- is_walkable_for_monster g nx ny ;;
          if ok then
            let m' := mkEntity nx ny (e_char m) (e_name m) (e_hp m) in
            Ok (set_monsters g (replace_nth i (monsters g) m'), rng)
          else Ok (g, rng)
  | _, _ => Ok (g, rng)
  end.

Fixpoint monsters_loop (idx : list nat) (g : Game) (rng : Rng) : result (Game * Rng) :=
  match idx with
  | [] => Ok (g, rng)
  | i :: rest =>
      '(g, rng) <- monster_turn i g rng ;;
      monsters_loop rest g rng
  end.

Definition alive (m : Entity) : bool := 0 <? e_hp m.

Definition monsters_take_turns (g : Game) (rng : Rng) : result (Game * Rng) :=
  match player g with
  | None => Ok (g, rng)
  | Some _ =>
      let g := set_monster_turn_counter g (_monster_turn_counter g + 1) in
      if _monster_turn_counter g mod 2 =? 1 then Ok (g, rng)
      else
        '(g, rng) <- monsters_loop (seq 0 (List.length (monsters g))) g rng ;;
        Ok (set_monsters g (filter alive (monsters g)), rng)
  end.

(** ** Turn Resolver *)

Definition Item_eqb (a b : Item) : bool :=
  (i_x a =? i_x b) && (i_y a =? i_y b) && String.eqb (i_char a) (i_char b)
  && String.eqb (i_name a) (i_name b)
  && match i_kind a, i_kind b with
     | weapon, weapon | potion, potion => true
     | _, _ => false
     end
  && (i_power a =? i_power b).

(** [list.remove(v)]: drop the first element equal to [v]. *)
Fixpoint list_remove (v : Item) (l : list Item) : list Item :=
  match l with
  | [] => []
  | h :: t => if Item_eqb h v then t else h :: list_remove v t
  end.

Definition auto_equip_weapon (new_weapon : Item) (g : Game) : Game :=
  let equip :=
    match current_weapon g with
    | None => true
    | Some best => i_power best <? i_power new_weapon
    end in
  if equip then
    let g := set_current_weapon g (Some new_weapon) in
    add_message g ("You wield the " ++ i_name new_weapon ++ ".")%string
  else g.

Definition check_pickup (g : Game) : Game :=
  match player g with
  | None => g
  | Some p =>
      match get_item_at g (e_x p) (e_y p) with
      | None => g
      | Some item =>
          let g := set_items g (list_remove item (items g)) in
          match i_kind item with
          | weapon =>
              let g := set_inventory g (inventory g ++ [item]) in
              let g := add_message g ("You pick up a " ++ i_name item ++ ".")%string in
              let g := auto_equip_weapon item g in
              _send_osc_state "pickup_weapon" g
          | potion =>
              let healed := Z.min (MAX_HP - e_hp p) (i_power item) in
              let g :=
                if 0 <? healed then
                  let p' := mkEntity (e_x p) (e_y p) (e_char p) (e_name p)
                                     (e_hp p + healed) in
                  let g := set_player g (Some p') in
                  add_message g
                    ("Concrete dust washes from your lungs. (+" ++ str_of_int healed
                       ++ " HP)")%string
                else add_message g "You drink, but feel no different." in
              _send_osc_state "pickup_potion" g
          end
      end
  end.

Definition player_attack_damage (g : Game) (rng : Rng) : result (Z * Rng) :=
  '(base, rng) <- random_randint 1 4 rng ;;
  let bonus := match current_weapon g with Some w => i_power w | None => 0 end in
  let level_bonus := Z.max 0 (level g - 1) / 2 in
  Ok (base + bonus + level_bonus, rng).

Definition move_player (fuel : nat) (dx dy : Z) (g : Game) (rng : Rng)
  : result (Game * Rng) :=
  match player g with
  | None => Ok (g, rng)
  | Some p =>
      let new_x := e_x p + dx in
      let new_y := e_y p + dy in
      if negb (in_bounds g new_x new_y) then
        let g := add_message g "You bump into the edge of the concrete grid." in
        Ok (_send_osc_state "bump_edge" g, rng)
      else
        match get_monster_at g new_x new_y with
        | Some (i, target) =>
            '(dmg, rng) <- player_attack_damage g rng ;;
            let target' := mkEntity (e_x target) (e_y target) (e_char target)
                                    (e_name target) (e_hp target - dmg) in
            let g := set_monsters g (replace_nth i (monsters g) target') in
            let g := add_message g
              ("You hit the " ++ e_name target ++ " for " ++ str_of_int dmg
                 ++ " damage!")%string in
            let g :=
              if e_hp target' <=? 0 then
                if is_nezha target' then
                  let g := add_message g
                    "Nezha discards this concrete body. The pattern sinks deeper." in
                  let g := set_nezha_phase g (Z.min (nezha_phase g + 1) 3) in
                  _osc_send "/event" [AStr "nezha_phase_end"] g
                else add_message g ("The " ++ e_name target' ++ " dies.")%string
              else g in
            '(g, rng) <- monsters_take_turns g rng ;;
            Ok (_send_osc_state "player_attack" g, rng)
        | None =>
            tile <- get_tile (tiles g) new_x new_y ;;
            match tile with
            | STAIRS_DOWN =>
                let g := add_message g "You step onto the stairwell and descend." in
                new_level fuel false g rng
            | FLOOR =>
                let g := set_player g
                  (Some (mkEntity new_x new_y (e_char p) (e_name p) (e_hp p))) in
                let g := check_pickup g in
                '(g, rng) <- monsters_take_turns g rng ;;
                Ok (_send_osc_state "player_move" g, rng)
            | WALL =>
                let g := add_message g "Your shoulder hits raw concrete." in
                Ok (_send_osc_state "bump_wall" g, rng)
            end
        end
  end.

Definition wait_turn (g : Game) (rng : Rng) : result (Game * Rng) :=
  let g := add_message g "You wait and feel the structure hum." in
  '(g, rng) <- monsters_take_turns g rng ;;
  Ok (_send_osc_state "wait" g, rng).

(** ** Construction: [Game(width, height, num_monsters, num_items)] *)

Definition fresh (w h nm ni : Z) : Game :=
  {| width := w; height := h; num_monsters := nm; num_items := ni;
     tiles := []; player := None; monsters := []; items := []; messages := [];
     level := 1; inventory := []; current_weapon := None;
     _monster_turn_counter := 0; nezha_phase := 0; osc_sent := [] |}.

(** [__post_init__]. *)
Definition new_game (fuel : nat) (w h nm ni : Z) (rng : Rng) : result (Game * Rng) :=
  '(g, rng) <- new_level fuel true (fresh w h nm ni) rng ;;
  Ok (_send_osc_state "game_start" g, rng).

(** ** State Snapshot *)

Record Snapshot : Type := mkSnapshot {
  s_tiles : list string;
  s_player : Z * Z * string * Z;
  s_monsters : list (Z * Z * string * string * Z);
  s_items : list (Z * Z * string * string * string * Z);
  s_messages : list string;
  s_game_over : bool;
  s_level : Z;
  s_weapon : option (string * Z);
  s_inventory : list (string * string * Z)
}.

Definition serialize (g : Game) : option Snapshot :=
  match player g with
  | None => None
  | Some p =>
      Some {|
        s_tiles := map (fun r => String.concat "" (map tile_char r)) (tiles g);
        s_player := (e_x p, e_y p, e_char p, e_hp p);
        s_monsters :=
          map (fun m => (e_x m, e_y m, e_char m, e_name m, e_hp m)) (monsters g);
        s_items :=
          map (fun it => (i_x it, i_y it, i_char it, i_name it,
                          kind_str (i_kind it), i_power it)) (items g);
        s_messages := skipn (List.length (messages g) - 10) (messages g);
        s_game_over := e_hp p <=? 0;
        s_level := level g;
        s_weapon :=
          option_map (fun w => (i_name w, i_power w)) (current_weapon g);
        s_inventory :=
          map (fun it => (i_name it, kind_str (i_kind it), i_power it)) (inventory g)
      |}
  end.

(** ** The actions the request layer dispatches ([server.py], [command]) *)

Inductive Command : Set := up | down | left | right | wait.

Definition moves (c : Command) : option (Z * Z) :=
  match c with
  | up => Some (0, -1)
  | down => Some (0, 1)
  | left => Some (-1, 0)
  | right => Some (1, 0)
  | wait => None
  end.

Definition apply_command (fuel : nat) (c : Command) (g : Game) (rng : Rng)
  : result (Game * Rng) :=
  match moves c with
  | Some (dx, dy) => move_player fuel dx dy g rng
  | None => wait_turn g rng
  end.

(** Game states that can arise: a freshly constructed game, then any sequence
    of dispatched actions that return, under any random outcomes. *)
Inductive reachable : Game -> Prop :=
| reachable_new : forall fuel w h nm ni rng g rng',
    new_game fuel w h nm ni rng = Ok (g, rng') -> reachable g
| reachable_step : forall fuel c g rng g' rng',
    reachable g -> apply_command fuel c g rng = Ok (g', rng') -> reachable g'.

(** * Specification vocabulary *)

(** A grid of [h] rows of [w] cells. *)
Definition grid_ok (w h : Z) (t : list (list Tile)) : Prop :=
  List.length t = Z.to_nat h /\ Forall (fun r => List.length r = Z.to_nat w) t.

Definition walk_cell (t : list (list Tile)) (c : Z * Z) : Prop :=
  0 <= fst c /\ 0 <= snd c
  /\ exists v, get_tile t (fst c) (snd c) = Ok v /\ walkable_tile v = true.

(** Two cells sharing an edge. *)
Definition adj4 (a b : Z * Z) : Prop :=
  Z.abs (fst a - fst b) + Z.abs (snd a - snd b) = 1.

(** [route t a b]: a sequence of single-cell steps from [a] to [b], every
    cell on it (both ends included) walkable. *)
Inductive route (t : list (list Tile)) : Z * Z -> Z * Z -> Prop :=
| route_here : forall c, walk_cell t c -> route t c c
| route_step : forall a b c,
    walk_cell t a -> adj4 a b -> route t b c -> route t a c.

(** Any two walkable cells are joined by a route. *)
Definition connected (t : list (list Tile)) : Prop :=
  forall a b, walk_cell t a -> walk_cell t b -> route t a b.

Definition interior (w h x y : Z) : Prop :=
  1 <= x <= w - 2 /\ 1 <= y <= h - 2.

(** What the walk maintains: shape, no stairs, floor only strictly inside
    the border ring, and all floor in one piece. *)
Record carved (w h : Z) (t : list (list Tile)) : Prop := {
  carved_grid : grid_ok w h t;
  carved_cells : forall x y v,
      0 <= x -> 0 <= y -> get_tile t x y = Ok v ->
      v <> STAIRS_DOWN /\ (v = FLOOR -> interior w h x y);
  carved_conn : connected t
}.

(** The walker stands on, or next to, floor already carved (if any). *)
Definition near (t : list (list Tile)) (c : Z * Z) : Prop :=
  (forall d, ~ walk_cell t d) \/ exists p, walk_cell t p /\ (p = c \/ adj4 p c).

(** Number of cells of a grid holding a given tile. *)
Definition count_row (v : Tile) (r : list Tile) : nat :=
  List.length (filter (Tile_eqb v) r).

Definition count_tile (v : Tile) (t : list (list Tile)) : nat :=
  list_sum (map (count_row v) t).

(** The player entity after a generation: created on the first level (or
    when absent), otherwise the same object moved. *)
Definition placed_player (first : bool) (old : option Entity) (px py : Z) : Entity :=
  match first, old with
  | false, Some p => mkEntity px py (e_char p) (e_name p) (e_hp p)
  | _, _ => mkEntity px py "@" "Player" MAX_HP
  end.

(** What a run of the Level Generator that returns has produced. *)
Record generated (first : bool) (g g' : Game) : Prop := {
  gen_width : width g' = width g;
  gen_height : height g' = height g;
  gen_num_monsters : num_monsters g' = num_monsters g;
  gen_num_items : num_items g' = num_items g;
  gen_w3 : 3 <= width g;
  gen_h3 : 3 <= height g;
  gen_level : level g' = if first then level g else level g + 1;
  gen_inventory : inventory g' = inventory g;
  gen_weapon : current_weapon g' = current_weapon g;
  gen_counter : _monster_turn_counter g' = _monster_turn_counter g;
  gen_phase : nezha_phase g' = nezha_phase g;
  gen_grid :
    exists t px py sx sy,
      carved (width g) (height g) t
      /\ interior (width g) (height g) px py
      /\ get_tile t px py = Ok FLOOR
      /\ interior (width g) (height g) sx sy
      /\ get_tile t sx sy = Ok FLOOR
      /\ (sx, sy) <> (px, py)
      /\ set_tile t sx sy STAIRS_DOWN = Ok (tiles g')
      /\ player g' = Some (placed_player first (player g) px py);
  gen_monsters :
    exists ms nz,
      monsters g' = ms ++ nz
      /\ List.length ms = Z.to_nat (num_monsters g)
      /\ Forall (fun m => e_name m = "Goblin" /\ e_char m = "g"
                          /\ e_hp m = 3 + Z.max 0 (level g' - 1)
                          /\ interior (width g) (height g) (e_x m) (e_y m)) ms
      /\ (((2 <=? level g') && (nezha_phase g <? 3) = true
           /\ exists nx ny,
               interior (width g) (height g) nx ny
               /\ nz = [mkEntity nx ny "N" "Nezha" (8 + nezha_phase g * 5)])
          \/ ((2 <=? level g') && (nezha_phase g <? 3) = false /\ nz = []));
  gen_items :
    List.length (items g') = Z.to_nat (num_items g)
    /\ Forall (fun it =>
                 interior (width g) (height g) (i_x it) (i_y it)
                 /\ match i_kind it with
                    | potion => i_power it = 4 + level g'
                    | weapon =>
                        exists c nm base,
                          In (c, nm, base) weapon_defs
                          /\ i_char it = c /\ i_name it = nm
                          /\ i_power it = base + Z.max 0 (level g' - 1) / 2
                    end) (items g')
}.

(** What an AI pass leaves alone: everything but the monsters, the message
    log, the telemetry sent and the player's hit points, which can only drop
    (the boss's extra damage [1 + nezha_phase] being non-negative). *)
Record ai_frame (g g' : Game) : Prop := {
  aif_width : width g' = width g;
  aif_height : height g' = height g;
  aif_num_monsters : num_monsters g' = num_monsters g;
  aif_num_items : num_items g' = num_items g;
  aif_tiles : tiles g' = tiles g;
  aif_items : items g' = items g;
  aif_level : level g' = level g;
  aif_inventory : inventory g' = inventory g;
  aif_weapon : current_weapon g' = current_weapon g;
  aif_counter : _monster_turn_counter g' = _monster_turn_counter g;
  aif_phase : nezha_phase g' = nezha_phase g;
  aif_count : (List.length (monsters g') <= List.length (monsters g))%nat;
  aif_player :
    match player g, player g' with
    | Some p, Some p' =>
        e_x p' = e_x p /\ e_y p' = e_y p
        /\ (0 <= nezha_phase g -> e_hp p' <= e_hp p)
        /\ e_char p' = e_char p /\ e_name p' = e_name p
    | None, None => True
    | _, _ => False
    end
}.

(** The invariant of the game states that can arise. *)
Record game_inv (g : Game) : Prop := {
  inv_w3 : 3 <= width g;
  inv_h3 : 3 <= height g;
  inv_grid : grid_ok (width g) (height g) (tiles g);
  inv_walk :
    forall x y v, 0 <= x -> 0 <= y -> get_tile (tiles g) x y = Ok v ->
                  walkable_tile v = true -> interior (width g) (height g) x y;
  inv_stairs : count_tile STAIRS_DOWN (tiles g) = 1%nat;
  inv_player :
    exists p, player g = Some p
              /\ interior (width g) (height g) (e_x p) (e_y p)
              /\ e_hp p <= MAX_HP;
  inv_phase : 0 <= nezha_phase g <= 3;
  inv_level : 1 <= level g;
  inv_items : Forall (fun it => i_kind it = potion -> 5 <= i_power it) (items g)
}.

(** A cell the rejection sampling may return. *)
Definition eligible (g : Game) (x y : Z) : Prop :=
  interior (width g) (height g) x y
  /\ get_tile (tiles g) x y = Ok FLOOR
  /\ get_entity_at g x y = None
  /\ get_item_at g x y = None.

(** Several dispatched actions in a row. *)
Inductive steps : Game -> Game -> Prop :=
| steps_refl : forall g, steps g g
| steps_next : forall fuel c g rng g1 rng1 g2,
    apply_command fuel c g rng = Ok (g1, rng1) -> steps g1 g2 -> steps g g2.

(** ** Worked runs on a 5 x 5 grid

    A random source is given by the draws of the carving walk (a function of
    the draw index, for the first [n] draws) followed by an explicit list. *)
Definition tape_of (walk : nat -> nat) (n : nat) (rest : list nat) : nat -> nat :=
  fun k => if Nat.ltb k n then walk k else nth (k - n) rest 0%nat.

Definition game_of (r : result (Game * Rng)) : Game :=
  match r with
  | Ok (g, _) => g
  | _ => fresh 0 0 0 0
  end.

Definition rng_of (r : result (Game * Rng)) : Rng :=
  match r with
  | Ok (_, rng) => rng
  | _ => mkRng (fun _ => 0%nat) 0
  end.

Definition then_do (c : Command) (r : result (Game * Rng)) : result (Game * Rng) :=
  '(g, rng) <- r ;; apply_command 10 c g rng.

(** Run A: the walk cycles through the four directions and carves an L of
    three cells; the player lands on (2,2), one goblin on (3,2), the stairs
    on (2,3); the player's first attack roll is 3. *)
Definition run_a_rng : Rng :=
  mkRng (tape_of (fun k => (k mod 4)%nat) 100 [1; 1; 2; 1; 1; 2; 2]%nat) 0.

Definition run_a : result (Game * Rng) := new_game 10 5 5 1 0 run_a_rng.

Definition run_a_attack : result (Game * Rng) := then_do right run_a.

(** Run B: the walk carves the row (1,2)..(3,2); the player lands on (1,2),
    one goblin on (3,2), the stairs on (2,2).  After two waits the goblin has
    wandered onto the stairs. *)
Definition run_b_rng : Rng :=
  mkRng (tape_of (fun k => nth (k mod 4) [0; 1; 1; 0]%nat 0%nat) 100
           [0; 1; 2; 1; 1; 1; 80; 1; 75; 7; 1]%nat) 0.

Definition run_b : result (Game * Rng) := new_game 10 5 5 1 0 run_b_rng.

Definition run_b_waited : result (Game * Rng) := then_do wait (then_do wait run_b).

Definition run_b_attack : result (Game * Rng) := then_do right run_b_waited.

(** Run C: the same row with no monster and one healing potion on (3,2). *)
Definition run_c_rng : Rng :=
  mkRng (tape_of (fun k => nth (k mod 4) [0; 1; 1; 0]%nat 0%nat) 100
           [0; 1; 2; 1; 2; 1; 1]%nat) 0.

Definition run_c : result (Game * Rng) := new_game 10 5 5 0 1 run_c_rng.

(** Run D: the walk carves a T of four cells, (1,2)..(3,2) and (2,3).  On
    level 1 the player lands on (1,2), the goblin on (3,2), the stairs on
    (2,2); stepping right descends.  On level 2 the player lands on (2,2), a
    goblin on (1,2), Nezha on (3,2) and the stairs on (2,3). *)
Definition t_walk (k : nat) : nat := nth (k mod 6) [0; 1; 1; 0; 2; 3]%nat 0%nat.

Definition run_d_rng : Rng :=
  mkRng (fun k =>
           if Nat.ltb k 100 then t_walk k
           else if Nat.ltb k 106 then nth (k - 100) [0; 1; 2; 1; 1; 1]%nat 0%nat
           else if Nat.ltb k 206 then t_walk (k - 106)
           else nth (k - 206) [1; 1; 0; 1; 2; 1; 1; 2]%nat 0%nat) 0.

Definition run_d : result (Game * Rng) := new_game 10 5 5 1 0 run_d_rng.

Definition run_d_descended : result (Game * Rng) := then_do right run_d.

(** Run F: run D up to the descent, then every draw is 3, so each blow of
    the player rolls 4.  On level 2 the player, on (2,2), strikes Nezha (8 hit
    points, on (3,2)) twice; the second blow kills it. *)
Definition run_f_rng : Rng :=
  mkRng (fun k => if Nat.ltb k 214 then src run_d_rng k else 3%nat) 0.

Definition run_f : result (Game * Rng) := new_game 10 5 5 1 0 run_f_rng.

Definition run_f_hit : result (Game * Rng) := then_do right (then_do right run_f).

Definition run_f_kill : result (Game * Rng) := then_do right run_f_hit.

(** Coordinates (column, row) of the floor cells of a grid, row by row. *)
Fixpoint row_cells (j i : nat) (row : list Tile) : list (nat * nat) :=
  match row with
  | [] => []
  | c :: r => (if Tile_eqb c FLOOR then [(i, j)] else []) ++ row_cells j (S i) r
  end.

Fixpoint grid_cells (j : nat) (t : list (list Tile)) : list (nat * nat) :=
  match t with
  | [] => []
  | row :: rest => row_cells j 0 row ++ grid_cells (S j) rest
  end.

(** A starved walk on the default 40 x 20 grid: the 3200 direction draws
    alternate right, left, so only (20,10) and (21,10) are carved; the draws
    after the walk are arbitrary. *)
Definition starved_src (rest : nat -> nat) : nat -> nat :=
  fun k => if Nat.ltb k 3200 then (k mod 2)%nat else rest k.

Definition starved_tiles : list (list Tile) :=
  replace_nth 10 (blank_tiles 40 20)
    (replace_nth 20 (replace_nth 21 (repeat WALL 40) FLOOR) FLOOR).

(** ** The request layer ([server.py], route [/command])

    The module-level [game] is threaded explicitly; [Game()] there takes the
    dataclass defaults: 40 x 20, 8 monsters, 6 items.  [cmd] is the value of
    the request's ["command"] field. *)
Inductive Reply : Type :=
| Served (g : Game) (rng : Rng)
| Crashed (e : exn)
| Hanging
| NoPlayer.

Definition reply_of (r : result (Game * Rng)) : Reply :=
  match r with
  | Ok (g, rng) => Served g rng
  | Raise e => Crashed e
  | Timeout => Hanging
  end.

(** The [moves] dictionary of the handler. *)
Definition server_moves (cmd : string) : option (Z * Z) :=
  if String.eqb cmd "up" then Some (0, -1)
  else if String.eqb cmd "down" then Some (0, 1)
  else if String.eqb cmd "left" then Some (-1, 0)
  else if String.eqb cmd "right" then Some (1, 0)
  else None.

(** [command()]: [NoPlayer] stands for the [AttributeError] of
    [game.player.hp] on a game without player. *)
Definition command (fuel : nat) (cmd : string) (g : Game) (rng : Rng) : Reply :=
  match player g with
  | None => NoPlayer
  | Some p =>
      if e_hp p <=? 0 then reply_of (new_game fuel 40 20 8 6 rng)
      else
        match server_moves cmd with
        | Some (dx, dy) => reply_of (move_player fuel dx dy g rng)
        | None =>
            if String.eqb cmd "wait" then reply_of (wait_turn g rng)
            else if String.eqb cmd "restart" then reply_of (new_game fuel 40 20 8 6 rng)
            else Served g rng
        end
  end.

(** ** Reading back what the encoder wrote (specification side) *)

(** The signed value of four big-endian bytes, as
    [int.from_bytes(bs, "big", signed=True)]. *)
Definition be_signed (bs : list byte) : option Z :=
  match bs with
  | [b3; b2; b1; b0] =>
      let u := Z.of_N (Byte.to_N b3) * 16777216 + Z.of_N (Byte.to_N b2) * 65536
               + Z.of_N (Byte.to_N b1) * 256 + Z.of_N (Byte.to_N b0) in
      Some (if u <? 2147483648 then u else u - 4294967296)
  | _ => None
  end.

(** The bytes of a packed string up to its first zero byte. *)
Fixpoint until_nul (bs : list byte) : list byte :=
  match bs with
  | [] => []
  | b :: rest => if Byte.eqb b x00 then [] else b :: until_nul rest
  end.


(** The message log and the telemetry sent were only appended to. *)
Definition log_ext (g g' : Game) : Prop :=
  (exists l, messages g' = messages g ++ l)
  /\ (exists l, osc_sent g' = osc_sent g ++ l).

(** Picking up a run of weapons, one [auto_equip_weapon] after the other. *)
Definition equip_all (ws : list Item) (g : Game) : Game :=
  fold_left (fun g w => auto_equip_weapon w g) ws g.

(** A rendered row, as [serialize] writes it. *)
Definition render_row (r : list Tile) : string :=
  String.concat "" (map tile_char r).

(** Reading a rendered row back (specification side). *)
Definition tile_of_char (c : ascii) : Tile :=
  if Ascii.eqb c "." then FLOOR
  else if Ascii.eqb c ">" then STAIRS_DOWN
  else WALL.

Definition parse_row (s : string) : list Tile :=
  map tile_of_char (list_ascii_of_string s).

(** The games the request layer can hold: the one built at start-up, then
    whatever each handled command leaves in the module-level [game]. *)
Inductive served : Game -> Prop :=
| served_start : forall fuel rng g rng',
    new_game fuel 40 20 8 6 rng = Ok (g, rng') -> served g
| served_command : forall fuel cmd g rng g' rng',
    served g -> command fuel cmd g rng = Served g' rng' -> served g'.

(** Run E, on the default 40 x 20 grid with 8 monsters and 6 items: the walk
    sweeps the middle row back and forth; the player lands on (20,10), the
    goblins on (21,10)..(28,10), six potions on (29,10)..(34,10) and the
    stairs on (35,10). *)
Definition run_e_rng : Rng :=
  mkRng (tape_of (fun k => if Nat.ltb (k mod 40) 20 then 0 else 1)%nat 3200
           [19; 9; 20; 9; 21; 9; 22; 9; 23; 9; 24; 9; 25; 9; 26; 9; 27; 9;
            28; 9; 2; 29; 9; 2; 30; 9; 2; 31; 9; 2; 32; 9; 2; 33; 9; 2;
            34; 9]%nat) 0.

Definition run_e : result (Game * Rng) := new_game 10 40 20 8 6 run_e_rng.

(** The state the generator starts from: on a descent the level number is
    raised and the descent line logged first. *)
Definition level_entered (first : bool) (g : Game) : Game :=
  if first then g
  else
    let g := set_level g (level g + 1) in
    add_message g ("You descend to cavern level " ++ str_of_int (level g) ++ ".")%string.

(** Cells held by living monsters, and cells holding items. *)
Definition pos_e (m : Entity) : Z * Z := (e_x m, e_y m).

Definition pos_i (it : Item) : Z * Z := (i_x it, i_y it).

Definition living (ms : list Entity) : list (Z * Z) :=
  map pos_e (filter alive ms).

(** Who stands where: no two living monsters on one cell, none on the
    player's cell, the player on floor, living monsters on walkable tiles. *)
Record ents_ok (g : Game) : Prop := {
  occ_monsters : NoDup (living (monsters g));
  occ_player :
    forall p, player g = Some p ->
              ~ In (pos_e p) (living (monsters g))
              /\ 0 <= e_x p /\ 0 <= e_y p
              /\ get_tile (tiles g) (e_x p) (e_y p) = Ok FLOOR;
  occ_monster_tiles :
    Forall (fun m => alive m = true -> walk_cell (tiles g) (pos_e m)) (monsters g)
}.

(** Items on the ground: on pairwise distinct floor cells; weapons have a
    power of at least 1. *)
Record items_ok (g : Game) : Prop := {
  occ_items : NoDup (map pos_i (items g));
  occ_items_floor :
    Forall (fun it => 0 <= i_x it /\ 0 <= i_y it
                      /\ get_tile (tiles g) (i_x it) (i_y it) = Ok FLOOR
                      /\ (i_kind it = weapon -> 1 <= i_power it)) (items g)
}.

(** What the player carries: only weapons, and the equipped one is among
    them and at least as strong as each. *)
Record carry_ok (g : Game) : Prop := {
  occ_weapon :
    match current_weapon g with
    | None => inventory g = []
    | Some w => In w (inventory g)
                /\ Forall (fun it => i_power it <= i_power w) (inventory g)
    end;
  occ_inventory :
    Forall (fun it => i_kind it = weapon /\ 1 <= i_power it) (inventory g)
}.

Definition game_occ (g : Game) : Prop := ents_ok g /\ items_ok g /\ carry_ok g.

(** A computation that returns or keeps running: it does not raise. *)
Definition no_raise {A : Type} (r : result A) : Prop :=
  r = Timeout \/ exists a, r = Ok a.

(** What a monster on the level can be: a goblin or the boss, with hit
    points no higher than the level and the boss phase allow. *)
Definition monster_kind_ok (g : Game) (m : Entity) : Prop :=
  (e_name m = "Goblin" /\ e_char m = "g" /\ e_hp m <= 3 + Z.max 0 (level g - 1))
  \/ (e_name m = "Nezha" /\ e_char m = "N" /\ 2 <= level g
      /\ e_hp m <= 8 + Z.min 2 (nezha_phase g) * 5).

(** What an item on the ground can be: a potion or one of the four weapons,
    with the power of the current level. *)
Definition item_kind_ok (g : Game) (it : Item) : Prop :=
  match i_kind it with
  | potion => i_power it = 4 + level g
  | weapon =>
      exists c nm base,
        In (c, nm, base) weapon_defs
        /\ i_char it = c /\ i_name it = nm
        /\ i_power it = base + Z.max 0 (level g - 1) / 2
  end.

Record roster_ok (g : Game) : Prop := {
  ros_monsters : Forall (monster_kind_ok g) (monsters g);
  ros_nezha : (List.length (filter is_nezha (monsters g)) <= 1)%nat;
  ros_goblins :
    (List.length (filter (fun m => negb (is_nezha m)) (monsters g))
     <= Z.to_nat (num_monsters g))%nat;
  ros_items_count : (List.length (items g) <= Z.to_nat (num_items g))%nat;
  ros_items : Forall (item_kind_ok g) (items g)
}.

(** * Verification *)

(** ** Generic facts about [result] *)

Lemma bind_Ok {A B : Type} (r : result A) (k : A -> result B) (b : B) :
  bind r k = Ok b -> exists a, r = Ok a /\ k a = Ok b.
Proof.
  destruct r as [a | e | ]; simpl; intros H; try discriminate.
  exists a; split; [reflexivity | exact H].
Qed.

(** Invert a hypothesis stating that a monadic block returned. *)
Ltac inv_bind H :=
  let a := fresh "a" in
  let Ha := fresh "Hrun" in
  apply bind_Ok in H; destruct H as [a [Ha H]].

Ltac inv_Ok H := injection H as H; subst.

(** Reduce field projections of updated records, and nothing else. *)
Ltac game_simpl :=
  cbn [width height num_monsters num_items tiles player monsters items messages
       level inventory current_weapon _monster_turn_counter nezha_phase osc_sent
       set_tiles set_player set_monsters set_items set_messages set_level
       set_inventory set_current_weapon set_monster_turn_counter set_nezha_phase
       set_osc_sent add_message] in *.

(** ** Telemetry never touches the game proper *)

Lemma _osc_send_frame (a : string) (args : list OscArg) (g : Game) :
  exists l, _osc_send a args g = set_osc_sent g l.
Proof.
  unfold _osc_send. destruct (_osc_pack a args).
  - eexists; reflexivity.
  - exists (osc_sent g). destruct g; reflexivity.
Qed.

Lemma _send_osc_state_frame (e : string) (g : Game) :
  exists l, _send_osc_state e g = set_osc_sent g l.
Proof.
  unfold _send_osc_state. destruct (player g).
  - destruct (_osc_send_frame "/player" [AInt (e_x e0); AInt (e_y e0); AInt (e_hp e0)] g)
      as [l1 ->].
    cbv zeta.
    destruct (_osc_send_frame "/level" [AInt (level (set_osc_sent g l1))]
                (set_osc_sent g l1)) as [l2 ->].
    destruct (_osc_send_frame "/monsters"
                [AInt (Z.of_nat (List.length (monsters (set_osc_sent (set_osc_sent g l1) l2))))]
                (set_osc_sent (set_osc_sent g l1) l2)) as [l3 ->].
    set (g3 := set_osc_sent (set_osc_sent (set_osc_sent g l1) l2) l3).
    assert (H4 : exists l4,
               (if String.eqb e "" then g3 else _osc_send "/event" [AStr e] g3)
               = set_osc_sent g l4).
    { destruct (String.eqb e "").
      - exists l3. reflexivity.
      - destruct (_osc_send_frame "/event" [AStr e] g3) as [l4 ->].
        exists l4. reflexivity. }
    destruct H4 as [l4 ->].
    destruct (rev (messages (set_osc_sent g l4))).
    + exists l4; reflexivity.
    + destruct (_osc_send_frame "/message" [AStr s] (set_osc_sent g l4)) as [l5 ->].
      exists l5; reflexivity.
  - exists (osc_sent g). destruct g; reflexivity.
Qed.

(** ** Telemetry Encoder: padding and the [/level 5] datagram *)

Lemma pad_loop_stop (f : nat) (d : list byte) :
  (List.length d mod 4 = 0)%nat -> pad_loop (S f) d = d.
Proof. intros H. cbn [pad_loop]. rewrite H. reflexivity. Qed.

Lemma pad_loop_go (f : nat) (d : list byte) :
  (List.length d mod 4 <> 0)%nat -> pad_loop (S f) d = pad_loop f (d ++ [x00]).
Proof.
  intros H. cbn [pad_loop].
  destruct (Nat.eqb_spec (List.length d mod 4) 0) as [E | E]; [contradiction | reflexivity].
Qed.

Lemma pad_loop_run (k : nat) :
  forall (f : nat) (d : list byte),
    (k < f)%nat ->
    ((List.length d + k) mod 4 = 0)%nat ->
    (forall j : nat, (j < k)%nat -> ((List.length d + j) mod 4 <> 0)%nat) ->
    pad_loop f d = d ++ repeat x00 k.
Proof.
  induction k as [| k IH]; intros f d Hf Hk Hj.
  - destruct f as [| f]; [lia |].
    rewrite pad_loop_stop by (rewrite Nat.add_0_r in Hk; exact Hk).
    simpl. rewrite app_nil_r. reflexivity.
  - destruct f as [| f]; [lia |].
    rewrite pad_loop_go.
    + rewrite (IH f (d ++ [x00])).
      * rewrite <- app_assoc. reflexivity.
      * lia.
      * rewrite length_app. simpl List.length.
        replace (List.length d + 1 + k)%nat with (List.length d + S k)%nat by lia.
        exact Hk.
      * intros j Hlt. rewrite length_app. simpl List.length.
        replace (List.length d + 1 + j)%nat with (List.length d + S j)%nat by lia.
        apply Hj. lia.
    + specialize (Hj 0%nat). rewrite Nat.add_0_r in Hj. apply Hj. lia.
Qed.

Lemma pad_loop_spec (data : list byte) :
  exists k : nat,
    (k <= 3)%nat /\ pad_loop 4 data = data ++ repeat x00 k
    /\ ((List.length data + k) mod 4 = 0)%nat.
Proof.
  pose proof (Nat.mod_upper_bound (List.length data) 4) as Hm.
  pose proof (Nat.div_mod_eq (List.length data) 4) as Hd.
  set (n := List.length data) in *.
  set (q := (n / 4)%nat) in *. set (r := (n mod 4)%nat) in *.
  assert (Hmod : forall a b : nat, (b < 4)%nat -> ((4 * a + b) mod 4 = b)%nat).
  { intros a b Hb. rewrite Nat.add_comm, Nat.mul_comm, Nat.Div0.mod_add.
    apply Nat.mod_small; exact Hb. }
  assert (Hr : (r < 4)%nat) by (apply Hm; lia).
  exists ((4 - r) mod 4)%nat.
  assert (Hk : ((4 - r) mod 4 <= 3)%nat).
  { pose proof (Nat.mod_upper_bound (4 - r) 4). lia. }
  assert (Hend : ((n + (4 - r) mod 4) mod 4 = 0)%nat).
  { destruct r as [| [| [| [| r']]]]; try lia; rewrite Hd.
    - simpl Nat.sub. rewrite Nat.Div0.mod_same.
      replace (4 * q + 0 + 0)%nat with (4 * q + 0)%nat by lia. apply Hmod; lia.
    - change ((4 - 1) mod 4)%nat with 3%nat.
      replace (4 * q + 1 + 3)%nat with (4 * S q + 0)%nat by lia. apply Hmod; lia.
    - change ((4 - 2) mod 4)%nat with 2%nat.
      replace (4 * q + 2 + 2)%nat with (4 * S q + 0)%nat by lia. apply Hmod; lia.
    - change ((4 - 3) mod 4)%nat with 1%nat.
      replace (4 * q + 3 + 1)%nat with (4 * S q + 0)%nat by lia. apply Hmod; lia. }
  repeat split; [exact Hk | | exact Hend].
  apply pad_loop_run; [lia | exact Hend |].
  intros j Hj. fold n. rewrite Hd.
  destruct r as [| [| [| [| r']]]]; try lia.
  - rewrite Nat.Div0.mod_same in Hj. lia.
  - change ((4 - 1) mod 4)%nat with 3%nat in Hj.
    replace (4 * q + 1 + j)%nat with (4 * q + (1 + j))%nat by lia.
    rewrite Hmod by lia. lia.
  - change ((4 - 2) mod 4)%nat with 2%nat in Hj.
    replace (4 * q + 2 + j)%nat with (4 * q + (2 + j))%nat by lia.
    rewrite Hmod by lia. lia.
  - change ((4 - 3) mod 4)%nat with 1%nat in Hj.
    replace (4 * q + 3 + j)%nat with (4 * q + (3 + j))%nat by lia.
    rewrite Hmod by lia. lia.
Qed.

(** C2.  Packing ["/level"] with the single integer 5 gives the address block
    ["/level\0\0"] (8 bytes), the tag block [",i\0\0"] (4 bytes) and the
    big-endian 32-bit image of 5, concatenated; and every packed string is
    its bytes, a terminating zero and at most three further zeros, ending on
    a 4-byte boundary. *)
Theorem osc_pack_level_5 :
  _osc_pack "/level" [AInt 5]
    = Some ((list_byte_of_string "/level" ++ [x00; x00])
              ++ (list_byte_of_string ",i" ++ [x00; x00])
              ++ [x00; x00; x00; x05])
  /\ _osc_pack_string "/level" = list_byte_of_string "/level" ++ [x00; x00]
  /\ List.length (_osc_pack_string "/level") = 8%nat
  /\ _osc_pack_string (osc_tags [AInt 5]) = list_byte_of_string ",i" ++ [x00; x00]
  /\ List.length (_osc_pack_string (osc_tags [AInt 5])) = 4%nat
  /\ pack_be_i32 5 = Some [x00; x00; x00; x05]
  /\ forall s : string,
       exists k : nat,
         (k <= 3)%nat
         /\ _osc_pack_string s = list_byte_of_string s ++ [x00] ++ repeat x00 k
         /\ (List.length (_osc_pack_string s) mod 4 = 0)%nat.
Proof.
  repeat split; try reflexivity.
  intros s.
  destruct (pad_loop_spec (list_byte_of_string s ++ [x00])) as [k [Hk [Heq Hlen]]].
  exists k. unfold _osc_pack_string. rewrite Heq.
  repeat split.
  - exact Hk.
  - rewrite <- app_assoc. reflexivity.
  - rewrite length_app, repeat_length. exact Hlen.
Qed.

(** ** Lists indexed the Python way *)

Lemma py_index_nonneg {A : Type} (l : list A) (i : Z) (k : nat) :
  0 <= i -> py_index l i = Ok k ->
  k = Z.to_nat i /\ i < Z.of_nat (List.length l).
Proof.
  intros Hi. unfold py_index.
  destruct (Z.leb_spec 0 i) as [_ | ?]; [| lia].
  destruct (Z.ltb_spec i (Z.of_nat (List.length l))) as [Hlt | Hge]; simpl.
  - intros H; inv_Ok H. split; [reflexivity | exact Hlt].
  - destruct (Z.ltb_spec i 0) as [? | _]; [lia |].
    rewrite andb_false_r. discriminate.
Qed.

Lemma py_index_in_range {A : Type} (l : list A) (i : Z) :
  0 <= i < Z.of_nat (List.length l) -> py_index l i = Ok (Z.to_nat i).
Proof.
  intros [H0 H1]. unfold py_index.
  destruct (Z.leb_spec 0 i) as [_ | ?]; [| lia].
  destruct (Z.ltb_spec i (Z.of_nat (List.length l))) as [_ | ?]; [| lia].
  reflexivity.
Qed.

Lemma getitem_nonneg {A : Type} (l : list A) (i : Z) (a : A) :
  0 <= i -> getitem l i = Ok a -> nth_error l (Z.to_nat i) = Some a.
Proof.
  intros Hi H. unfold getitem in H. inv_bind H.
  apply py_index_nonneg in Hrun; [| exact Hi]. destruct Hrun as [-> _].
  destruct (nth_error l (Z.to_nat i)); [inv_Ok H; reflexivity | discriminate].
Qed.

Lemma getitem_in_range {A : Type} (l : list A) (i : Z) :
  0 <= i < Z.of_nat (List.length l) -> exists a, getitem l i = Ok a.
Proof.
  intros Hi. unfold getitem. rewrite py_index_in_range by exact Hi. simpl.
  destruct (nth_error l (Z.to_nat i)) eqn:E.
  - eexists; reflexivity.
  - apply nth_error_None in E. lia.
Qed.

Lemma getitem_of_nth {A : Type} (l : list A) (i : Z) (a : A) :
  0 <= i -> nth_error l (Z.to_nat i) = Some a -> getitem l i = Ok a.
Proof.
  intros Hi H. unfold getitem.
  assert (Hlt : (Z.to_nat i < List.length l)%nat).
  { apply nth_error_Some. rewrite H. discriminate. }
  rewrite py_index_in_range by lia. simpl. rewrite H. reflexivity.
Qed.

Lemma setitem_nonneg {A : Type} (l : list A) (i : Z) (v : A) (l' : list A) :
  0 <= i -> setitem l i v = Ok l' ->
  l' = replace_nth (Z.to_nat i) l v /\ i < Z.of_nat (List.length l).
Proof.
  intros Hi H. unfold setitem in H. inv_bind H.
  apply py_index_nonneg in Hrun; [| exact Hi]. destruct Hrun as [-> Hlt].
  inv_Ok H. split; [reflexivity | exact Hlt].
Qed.

Lemma setitem_in_range {A : Type} (l : list A) (i : Z) (v : A) :
  0 <= i < Z.of_nat (List.length l) ->
  setitem l i v = Ok (replace_nth (Z.to_nat i) l v).
Proof.
  intros Hi. unfold setitem. rewrite py_index_in_range by exact Hi. reflexivity.
Qed.

Lemma length_replace_nth {A : Type} (k : nat) (l : list A) (v : A) :
  List.length (replace_nth k l v) = List.length l.
Proof.
  revert k; induction l as [| h t IH]; intros [| k]; simpl; auto.
Qed.

Lemma nth_error_replace_nth_eq {A : Type} (k : nat) (l : list A) (v : A) :
  (k < List.length l)%nat -> nth_error (replace_nth k l v) k = Some v.
Proof.
  revert k; induction l as [| h t IH]; intros [| k]; simpl; intros H; try lia.
  - reflexivity.
  - apply IH. lia.
Qed.

Lemma nth_error_replace_nth_neq {A : Type} (k j : nat) (l : list A) (v : A) :
  j <> k -> nth_error (replace_nth k l v) j = nth_error l j.
Proof.
  revert k j; induction l as [| h t IH]; intros [| k] [| j]; simpl; intros H;
    try reflexivity; try congruence.
  apply IH. congruence.
Qed.

Lemma In_replace_nth {A : Type} (k : nat) (l : list A) (v a : A) :
  In a (replace_nth k l v) -> a = v \/ In a l.
Proof.
  revert k; induction l as [| h t IH]; intros [| k]; simpl; intros H; auto.
  - destruct H as [H | H]; auto.
  - destruct H as [H | H]; auto. apply IH in H. tauto.
Qed.

(** ** The tile grid *)

Lemma get_tile_nonneg (t : list (list Tile)) (x y : Z) (v : Tile) :
  0 <= x -> 0 <= y -> get_tile t x y = Ok v ->
  exists row, nth_error t (Z.to_nat y) = Some row
              /\ nth_error row (Z.to_nat x) = Some v.
Proof.
  intros Hx Hy H. unfold get_tile in H. inv_bind H.
  apply getitem_nonneg in Hrun; [| exact Hy].
  apply getitem_nonneg in H; [| exact Hx].
  exists a. split; assumption.
Qed.

Lemma get_tile_of_nth (t : list (list Tile)) (x y : Z) (row : list Tile) (v : Tile) :
  0 <= x -> 0 <= y ->
  nth_error t (Z.to_nat y) = Some row -> nth_error row (Z.to_nat x) = Some v ->
  get_tile t x y = Ok v.
Proof.
  intros Hx Hy Hr Hv. unfold get_tile.
  rewrite (getitem_of_nth t y row Hy Hr). simpl.
  apply getitem_of_nth; assumption.
Qed.

Lemma get_tile_in_bounds (w h : Z) (t : list (list Tile)) (x y : Z) :
  grid_ok w h t -> 0 <= x < w -> 0 <= y < h -> exists v, get_tile t x y = Ok v.
Proof.
  intros [Hlen Hrows] Hx Hy.
  destruct (nth_error t (Z.to_nat y)) as [row |] eqn:Er.
  - assert (Hrow : List.length row = Z.to_nat w).
    { rewrite Forall_forall in Hrows. apply Hrows. eapply nth_error_In; eauto. }
    destruct (nth_error row (Z.to_nat x)) as [v |] eqn:Ev.
    + exists v. eapply get_tile_of_nth; eauto; lia.
    + apply nth_error_None in Ev. lia.
  - apply nth_error_None in Er. lia.
Qed.

Lemma set_tile_nonneg (t : list (list Tile)) (x y : Z) (v : Tile) (t' : list (list Tile)) :
  0 <= x -> 0 <= y -> set_tile t x y v = Ok t' ->
  exists row,
    nth_error t (Z.to_nat y) = Some row
    /\ (Z.to_nat x < List.length row)%nat
    /\ t' = replace_nth (Z.to_nat y) t (replace_nth (Z.to_nat x) row v).
Proof.
  intros Hx Hy H. unfold set_tile in H. inv_bind H. inv_bind H.
  apply getitem_nonneg in Hrun; [| exact Hy].
  apply setitem_nonneg in Hrun0; [| exact Hx]. destruct Hrun0 as [-> Hlt].
  apply setitem_nonneg in H; [| exact Hy]. destruct H as [-> _].
  exists a. repeat split; [exact Hrun | lia].
Qed.

Lemma set_tile_in_bounds (w h : Z) (t : list (list Tile)) (x y : Z) (v : Tile) :
  grid_ok w h t -> 0 <= x < w -> 0 <= y < h -> exists t', set_tile t x y v = Ok t'.
Proof.
  intros [Hlen Hrows] Hx Hy. unfold set_tile.
  destruct (nth_error t (Z.to_nat y)) as [row |] eqn:Er.
  - assert (Hrow : List.length row = Z.to_nat w).
    { rewrite Forall_forall in Hrows. apply Hrows. eapply nth_error_In; eauto. }
    rewrite (getitem_of_nth t y row) by (lia || assumption). simpl.
    rewrite setitem_in_range by lia. simpl.
    rewrite setitem_in_range by lia. eexists; reflexivity.
  - apply nth_error_None in Er. lia.
Qed.

Lemma set_tile_grid_ok (w h : Z) (t : list (list Tile)) (x y : Z) (v : Tile)
      (t' : list (list Tile)) :
  0 <= x -> 0 <= y -> grid_ok w h t -> set_tile t x y v = Ok t' -> grid_ok w h t'.
Proof.
  intros Hx Hy [Hlen Hrows] H.
  apply set_tile_nonneg in H; try assumption.
  destruct H as [row [Hr [Hlt ->]]]. split.
  - rewrite length_replace_nth. exact Hlen.
  - rewrite Forall_forall in *. intros r Hin.
    apply In_replace_nth in Hin. destruct Hin as [-> | Hin].
    + rewrite length_replace_nth. apply Hrows. eapply nth_error_In; eauto.
    + apply Hrows; exact Hin.
Qed.

(** Reading a cell after a write. *)
Lemma get_set_tile_same (t : list (list Tile)) (x y : Z) (v : Tile) (t' : list (list Tile)) :
  0 <= x -> 0 <= y -> set_tile t x y v = Ok t' -> get_tile t' x y = Ok v.
Proof.
  intros Hx Hy H. apply set_tile_nonneg in H; try assumption.
  destruct H as [row [Hr [Hlt ->]]].
  assert (Hy' : (Z.to_nat y < List.length t)%nat).
  { apply nth_error_Some. rewrite Hr. discriminate. }
  eapply get_tile_of_nth; try assumption.
  - apply nth_error_replace_nth_eq. exact Hy'.
  - apply nth_error_replace_nth_eq. exact Hlt.
Qed.

Lemma get_set_tile_other (t : list (list Tile)) (x y : Z) (v : Tile) (t' : list (list Tile))
      (x' y' : Z) :
  0 <= x -> 0 <= y -> 0 <= x' -> 0 <= y' -> (x', y') <> (x, y) ->
  set_tile t x y v = Ok t' -> get_tile t' x' y' = get_tile t x' y'.
Proof.
  intros Hx Hy Hx' Hy' Hne H. apply set_tile_nonneg in H; try assumption.
  destruct H as [row [Hr [Hlt ->]]].
  assert (Hylt : (Z.to_nat y < List.length t)%nat).
  { apply nth_error_Some. rewrite Hr. discriminate. }
  unfold get_tile, getitem, py_index.
  rewrite length_replace_nth.
  destruct (Z.leb_spec 0 y') as [_ | ?]; [| lia].
  destruct (Z.ltb_spec y' (Z.of_nat (List.length t))) as [Hl | Hl]; simpl.
  - destruct (Z.eq_dec y' y) as [-> | Hy_ne].
    + rewrite nth_error_replace_nth_eq by exact Hylt. rewrite Hr. simpl.
      rewrite length_replace_nth.
      destruct (Z.leb_spec 0 x') as [_ | ?]; [| lia].
      destruct (Z.ltb_spec x' (Z.of_nat (List.length row))) as [Hxl | Hxl]; simpl.
      * rewrite nth_error_replace_nth_neq; [reflexivity |].
        intros E. apply Hne. f_equal. lia.
      * destruct (Z.ltb_spec x' 0) as [? | _]; [lia |].
        rewrite andb_false_r. reflexivity.
    + rewrite nth_error_replace_nth_neq by lia. reflexivity.
  - destruct (Z.ltb_spec y' 0) as [? | _]; [lia |].
    rewrite andb_false_r. reflexivity.
Qed.

(** ** Walkable cells and routes *)

Lemma adj4_sym (a b : Z * Z) : adj4 a b -> adj4 b a.
Proof. unfold adj4. lia. Qed.

Lemma route_start (t : list (list Tile)) (a b : Z * Z) :
  route t a b -> walk_cell t a.
Proof. intros H; destruct H; assumption. Qed.

Lemma route_end (t : list (list Tile)) (a b : Z * Z) :
  route t a b -> walk_cell t b.
Proof. intros H; induction H; assumption. Qed.

Lemma route_trans (t : list (list Tile)) (a b c : Z * Z) :
  route t a b -> route t b c -> route t a c.
Proof.
  intros H; induction H as [x Hx | x y z Hx Hadj Hyz IH]; intros Hbc.
  - exact Hbc.
  - eapply route_step; eauto.
Qed.

Lemma route_sym (t : list (list Tile)) (a b : Z * Z) :
  route t a b -> route t b a.
Proof.
  intros H; induction H as [x Hx | x y z Hx Hadj Hyz IH].
  - apply route_here; exact Hx.
  - eapply route_trans; [exact IH |].
    eapply route_step; [eapply route_start; exact Hyz | apply adj4_sym; exact Hadj |].
    apply route_here; exact Hx.
Qed.

Lemma route_mono (t t' : list (list Tile)) (a b : Z * Z) :
  (forall c, walk_cell t c -> walk_cell t' c) -> route t a b -> route t' a b.
Proof.
  intros Hm H; induction H as [x Hx | x y z Hx Hadj Hyz IH].
  - apply route_here; auto.
  - eapply route_step; eauto.
Qed.

(** ** The random walk *)

Lemma clamp_stay (m x : Z) :
  1 <= x <= m -> Z.max 1 (Z.min m (x + 0)) = x.
Proof. lia. Qed.

Lemma clamp_move (m x d : Z) :
  1 <= x <= m -> -1 <= d <= 1 ->
  Z.max 1 (Z.min m (x + d)) = x \/ Z.max 1 (Z.min m (x + d)) = x + d.
Proof. lia. Qed.

Lemma random_choice_In {A : Type} (a : A) (rest : list A) (r : Rng) :
  In (fst (random_choice a rest r)) (a :: rest).
Proof.
  unfold random_choice, draw. cbn [fst].
  apply nth_In. cbn [List.length].
  apply Nat.mod_upper_bound. discriminate.
Qed.

Lemma random_choice_cur {A : Type} (a : A) (rest : list A) (r : Rng) :
  snd (random_choice a rest r) = mkRng (src r) (S (cur r)).
Proof. reflexivity. Qed.

Lemma walk_cell_set_floor (t t' : list (list Tile)) (x y : Z) :
  0 <= x -> 0 <= y -> set_tile t x y FLOOR = Ok t' ->
  (forall c, walk_cell t c -> walk_cell t' c)
  /\ walk_cell t' (x, y)
  /\ (forall c, walk_cell t' c -> c = (x, y) \/ walk_cell t c).
Proof.
  intros Hx Hy Hset. split; [| split].
  - intros [cx cy] [H0 [H1 [v [Hv Hw]]]]; simpl in *.
    destruct (Z.eq_dec cx x) as [-> | Nx]; [destruct (Z.eq_dec cy y) as [-> | Ny] |].
    + split; [| split]; simpl; try lia. exists FLOOR. split; [| reflexivity].
      eapply get_set_tile_same; eauto.
    + split; [| split]; simpl; try lia. exists v. split; [| exact Hw].
      rewrite (get_set_tile_other t x y FLOOR t' x cy); auto. congruence.
    + split; [| split]; simpl; try lia. exists v. split; [| exact Hw].
      rewrite (get_set_tile_other t x y FLOOR t' cx cy); auto. congruence.
  - split; [| split]; simpl; try lia.
    exists FLOOR. split; [| reflexivity]. eapply get_set_tile_same; eauto.
  - intros [cx cy] [H0 [H1 [v [Hv Hw]]]]; simpl in *.
    destruct (Z.eq_dec cx x) as [-> | Nx]; [destruct (Z.eq_dec cy y) as [-> | Ny] |].
    + left; reflexivity.
    + right. split; [| split]; simpl; try lia. exists v. split; [| exact Hw].
      rewrite <- (get_set_tile_other t x y FLOOR t' x cy); auto. congruence.
    + right. split; [| split]; simpl; try lia. exists v. split; [| exact Hw].
      rewrite <- (get_set_tile_other t x y FLOOR t' cx cy); auto. congruence.
Qed.

Lemma carved_step (w h : Z) (t t' : list (list Tile)) (x y : Z) :
  interior w h x y -> carved w h t -> near t (x, y) ->
  set_tile t x y FLOOR = Ok t' -> carved w h t'.
Proof.
  intros [Hx Hy] [Hg Hc Hconn] Hnear Hset.
  assert (Hx0 : 0 <= x) by lia. assert (Hy0 : 0 <= y) by lia.
  destruct (walk_cell_set_floor t t' x y Hx0 Hy0 Hset) as [Hmono [Hcur Hinv]].
  constructor.
  - apply (set_tile_grid_ok w h t x y FLOOR t'); assumption.
  - intros x' y' v Hx' Hy' Hget.
    destruct (Z.eq_dec x' x) as [-> | Nx]; [destruct (Z.eq_dec y' y) as [-> | Ny] |].
    + rewrite (get_set_tile_same t x y FLOOR t') in Hget by assumption.
      inv_Ok Hget. split; [discriminate | intros _; split; assumption].
    + rewrite (get_set_tile_other t x y FLOOR t' x y') in Hget
        by (assumption || congruence).
      eapply Hc; eauto.
    + rewrite (get_set_tile_other t x y FLOOR t' x' y') in Hget
        by (assumption || congruence).
      eapply Hc; eauto.
  - assert (Hfrom : forall b, walk_cell t b -> route t' (x, y) b).
    { intros b Hb. destruct Hnear as [Hnone | [p [Hp Hpc]]].
      - exfalso. eapply Hnone; eauto.
      - destruct Hpc as [-> | Hadj].
        + eapply route_mono; [exact Hmono | apply Hconn; assumption].
        + eapply route_step; [exact Hcur | apply adj4_sym; exact Hadj |].
          eapply route_mono; [exact Hmono | apply Hconn; assumption]. }
    intros a b Ha Hb.
    apply Hinv in Ha. apply Hinv in Hb.
    destruct Ha as [-> | Ha]; destruct Hb as [-> | Hb].
    + apply route_here; exact Hcur.
    + apply Hfrom; exact Hb.
    + apply route_sym. apply Hfrom; exact Ha.
    + eapply route_mono; [exact Hmono | apply Hconn; assumption].
Qed.

Lemma carve_spec (n : nat) (w h : Z) :
  3 <= w -> 3 <= h ->
  forall t x y rng,
    interior w h x y -> carved w h t -> near t (x, y) ->
    exists t' rng',
      carve n w h t x y rng = Ok (t', rng')
      /\ carved w h t'
      /\ cur rng' = (cur rng + n)%nat /\ src rng' = src rng.
Proof.
  intros Hw Hh. induction n as [| n IH]; intros t x y rng Hint Hcarved Hnear.
  - exists t, rng. simpl.
    split; [reflexivity | split; [exact Hcarved | split; [lia | reflexivity]]].
  - cbn [carve].
    destruct (set_tile_in_bounds w h t x y FLOOR (carved_grid _ _ _ Hcarved))
      as [t1 Hset]; try (destruct Hint; lia).
    rewrite Hset. cbn [bind].
    pose proof (random_choice_In (1, 0) [(-1, 0); (0, 1); (0, -1)] rng) as Hin.
    pose proof (random_choice_cur (1, 0) [(-1, 0); (0, 1); (0, -1)] rng) as Hcur.
    destruct (random_choice (1, 0) [(-1, 0); (0, 1); (0, -1)] rng) as [[dx dy] rng1].
    cbn [fst snd] in Hin, Hcur.
    assert (Hc1 : carved w h t1) by (eapply carved_step; eauto).
    assert (Hx0 : 0 <= x) by (destruct Hint; lia).
    assert (Hy0 : 0 <= y) by (destruct Hint; lia).
    destruct (walk_cell_set_floor t t1 x y Hx0 Hy0 Hset) as [_ [Hhere _]].
    destruct (IH t1 (Z.max 1 (Z.min (w - 2) (x + dx)))
                 (Z.max 1 (Z.min (h - 2) (y + dy))) rng1)
      as [t' [rng' [Hrun [Hc' [Hcur' Hsrc']]]]].
    + unfold interior. lia.
    + exact Hc1.
    + right. exists (x, y). split; [exact Hhere |].
      destruct Hint as [Hx Hy]. unfold adj4; cbn [fst snd].
      destruct Hin as [E | [E | [E | [E | []]]]]; inversion E; subst dx dy;
        rewrite ?(clamp_stay (w - 2) x Hx), ?(clamp_stay (h - 2) y Hy).
      * destruct (clamp_move (w - 2) x 1 Hx ltac:(lia)) as [-> | ->];
          [left; reflexivity | right; lia].
      * destruct (clamp_move (w - 2) x (-1) Hx ltac:(lia)) as [-> | ->];
          [left; reflexivity | right; lia].
      * destruct (clamp_move (h - 2) y 1 Hy ltac:(lia)) as [-> | ->];
          [left; reflexivity | right; lia].
      * destruct (clamp_move (h - 2) y (-1) Hy ltac:(lia)) as [-> | ->];
          [left; reflexivity | right; lia].
    + exists t', rng'.
      split; [exact Hrun | split; [exact Hc' | split]].
      * rewrite Hcur', Hcur. simpl. lia.
      * rewrite Hsrc', Hcur. reflexivity.
Qed.

(** ** Counting tiles *)

Lemma map_replace_nth {A B : Type} (f : A -> B) (k : nat) (l : list A) (v : A) :
  map f (replace_nth k l v) = replace_nth k (map f l) (f v).
Proof.
  revert k; induction l as [| h t IH]; intros [| k]; simpl; try reflexivity.
  rewrite IH. reflexivity.
Qed.

Lemma list_sum_replace_nth (k : nat) (l : list nat) (a b : nat) :
  nth_error l k = Some a ->
  (list_sum (replace_nth k l b) + a = list_sum l + b)%nat.
Proof.
  revert k; induction l as [| h t IH]; intros [| k]; simpl; intros H; try discriminate.
  - inv_Ok H. lia.
  - apply IH in H. lia.
Qed.

Lemma count_row_replace_nth (v : Tile) (k : nat) (r : list Tile) (o n : Tile) :
  nth_error r k = Some o ->
  (count_row v (replace_nth k r n) + (if Tile_eqb v o then 1 else 0)
   = count_row v r + (if Tile_eqb v n then 1 else 0))%nat.
Proof.
  unfold count_row.
  revert k; induction r as [| h t IH]; intros [| k]; simpl; intros H; try discriminate.
  - inv_Ok H. destruct (Tile_eqb v o), (Tile_eqb v n); simpl; lia.
  - apply IH in H. destruct (Tile_eqb v h); simpl; lia.
Qed.

Lemma count_tile_set_tile (v : Tile) (t t' : list (list Tile)) (x y : Z) (o n : Tile) :
  0 <= x -> 0 <= y -> get_tile t x y = Ok o -> set_tile t x y n = Ok t' ->
  (count_tile v t' + (if Tile_eqb v o then 1 else 0)
   = count_tile v t + (if Tile_eqb v n then 1 else 0))%nat.
Proof.
  intros Hx Hy Hget Hset.
  apply get_tile_nonneg in Hget; try assumption. destruct Hget as [row [Hrow Ho]].
  apply set_tile_nonneg in Hset; try assumption.
  destruct Hset as [row' [Hrow' [_ ->]]].
  rewrite Hrow in Hrow'. inv_Ok Hrow'.
  unfold count_tile. rewrite map_replace_nth.
  pose proof (count_row_replace_nth v (Z.to_nat x) row' o n Ho) as Hr.
  pose proof (list_sum_replace_nth (Z.to_nat y) (map (count_row v) t)
                (count_row v row') (count_row v (replace_nth (Z.to_nat x) row' n))) as Hs.
  rewrite nth_error_map, Hrow in Hs. specialize (Hs eq_refl). lia.
Qed.

Lemma count_tile_none (v : Tile) (t : list (list Tile)) :
  (forall x y o, 0 <= x -> 0 <= y -> get_tile t x y = Ok o -> o <> v) ->
  count_tile v t = 0%nat.
Proof.
  intros H. unfold count_tile.
  assert (Hrows : forall k row, nth_error t k = Some row -> count_row v row = 0%nat).
  { intros k row Hk. unfold count_row.
    destruct (filter (Tile_eqb v) row) as [| c rest] eqn:E; [reflexivity |].
    assert (Hin : In c (filter (Tile_eqb v) row)) by (rewrite E; left; reflexivity).
    apply filter_In in Hin. destruct Hin as [Hin Hc].
    apply In_nth_error in Hin. destruct Hin as [j Hj].
    exfalso. apply (H (Z.of_nat j) (Z.of_nat k) c); try lia.
    - eapply get_tile_of_nth; try lia; rewrite Nat2Z.id; eauto.
    - destruct v, c; simpl in Hc; congruence. }
  clear H. induction t as [| r t IH]; simpl; [reflexivity |].
  rewrite (Hrows 0%nat r eq_refl). simpl. apply IH.
  intros k row Hk. apply (Hrows (S k) row). exact Hk.
Qed.

(** ** The blank grid and the carved cavern *)

Lemma get_tile_blank (w h x y : Z) (v : Tile) :
  0 <= x -> 0 <= y -> get_tile (blank_tiles w h) x y = Ok v -> v = WALL.
Proof.
  intros Hx Hy H. apply get_tile_nonneg in H; try assumption.
  destruct H as [row [Hr Hv]]. unfold blank_tiles in Hr.
  apply nth_error_In in Hr. apply repeat_spec in Hr. subst row.
  apply nth_error_In in Hv. apply repeat_spec in Hv. exact Hv.
Qed.

Lemma blank_tiles_carved (w h : Z) : carved w h (blank_tiles w h).
Proof.
  assert (Hno : forall c, ~ walk_cell (blank_tiles w h) c).
  { intros c [H0 [H1 [v [Hv Hw]]]].
    apply get_tile_blank in Hv; try assumption. subst v. discriminate. }
  constructor.
  - split.
    + unfold blank_tiles. apply repeat_length.
    + apply Forall_forall. intros r Hr. apply repeat_spec in Hr. subst r.
      apply repeat_length.
  - intros x y v Hx Hy H. apply get_tile_blank in H; try assumption. subst v.
    split; [discriminate | discriminate].
  - intros a b Ha. exfalso. eapply Hno; eauto.
Qed.

Lemma blank_tiles_near (w h : Z) (c : Z * Z) : near (blank_tiles w h) c.
Proof.
  left. intros d [H0 [H1 [v [Hv Hw]]]].
  apply get_tile_blank in Hv; try assumption. subst v. discriminate.
Qed.

Lemma centre_interior (w h : Z) : 3 <= w -> 3 <= h -> interior w h (w / 2) (h / 2).
Proof.
  intros Hw Hh. unfold interior.
  pose proof (Z.div_mod w 2 ltac:(lia)). pose proof (Z.mod_pos_bound w 2 ltac:(lia)).
  pose proof (Z.div_mod h 2 ltac:(lia)). pose proof (Z.mod_pos_bound h 2 ltac:(lia)).
  lia.
Qed.

(** ** Rejection sampling *)

Lemma random_randint_spec (a b : Z) (r : Rng) (v : Z) (r' : Rng) :
  random_randint a b r = Ok (v, r') ->
  a <= v <= b /\ r' = mkRng (src r) (S (cur r)).
Proof.
  unfold random_randint, draw.
  destruct (Z.ltb_spec b a) as [? | Hab]; [discriminate |].
  intros H; inv_Ok H.
  pose proof (Z.mod_pos_bound (Z.of_nat (src r (cur r))) (b - a + 1) ltac:(lia)).
  split; [lia | reflexivity].
Qed.

Lemma random_randint_total (a b : Z) (r : Rng) :
  a <= b ->
  random_randint a b r
  = Ok (a + Z.of_nat (src r (cur r)) mod (b - a + 1), mkRng (src r) (S (cur r))).
Proof.
  intros Hab. unfold random_randint, draw.
  destruct (Z.ltb_spec b a) as [? | _]; [lia | reflexivity].
Qed.

Lemma Tile_eqb_eq (a b : Tile) : Tile_eqb a b = true <-> a = b.
Proof. destruct a, b; simpl; split; intros H; congruence. Qed.

Lemma is_none_true {A : Type} (o : option A) : is_none o = true <-> o = None.
Proof. destruct o; simpl; split; intros H; congruence. Qed.

(** A cell the search may return. *)
Lemma find_random_floor_spec (fuel : nat) (g : Game) (rng : Rng) (x y : Z) (rng' : Rng) :
  find_random_floor fuel g rng = Ok (x, y, rng') ->
  interior (width g) (height g) x y
  /\ get_tile (tiles g) x y = Ok FLOOR
  /\ get_entity_at g x y = None
  /\ get_item_at g x y = None
  /\ src rng' = src rng.
Proof.
  revert rng. induction fuel as [| f IH]; intros rng H; [discriminate |].
  cbn [find_random_floor] in H.
  inv_bind H. destruct a as [x1 rng1].
  inv_bind H. destruct a as [y1 rng2].
  inv_bind H.
  apply random_randint_spec in Hrun. destruct Hrun as [Hx1 ->].
  apply random_randint_spec in Hrun0. destruct Hrun0 as [Hy1 ->].
  destruct (Tile_eqb a FLOOR && is_none (get_entity_at g x1 y1)
            && is_none (get_item_at g x1 y1)) eqn:E.
  - inv_Ok H.
    apply andb_prop in E. destruct E as [E E3].
    apply andb_prop in E. destruct E as [E1 E2].
    apply Tile_eqb_eq in E1. subst a.
    apply is_none_true in E2. apply is_none_true in E3.
    unfold interior. repeat split; try lia; assumption.
  - apply IH in H. destruct H as [H1 [H2 [H3 [H4 H5]]]].
    repeat split; try assumption; try apply H1.
Qed.

(** ** Population phases of the generator *)

Lemma set_monsters_id (g : Game) : set_monsters g (monsters g) = g.
Proof. destruct g; reflexivity. Qed.

Lemma set_items_id (g : Game) : set_items g (items g) = g.
Proof. destruct g; reflexivity. Qed.

Lemma spawn_monsters_shape (fuel n : nat) :
  forall g rng g' rng',
    spawn_monsters fuel n g rng = Ok (g', rng') ->
    exists ms,
      g' = set_monsters g (monsters g ++ ms)
      /\ List.length ms = n
      /\ Forall (fun m => e_name m = "Goblin" /\ e_char m = "g"
                          /\ e_hp m = 3 + Z.max 0 (level g - 1)
                          /\ interior (width g) (height g) (e_x m) (e_y m)) ms
      /\ src rng' = src rng.
Proof.
  induction n as [| n IH]; intros g rng g' rng' H.
  - simpl in H. inv_Ok H. exists []. rewrite app_nil_r, set_monsters_id.
    repeat split; constructor.
  - cbn [spawn_monsters] in H. inv_bind H. destruct a as [[mx my] rng1].
    apply find_random_floor_spec in Hrun.
    destruct Hrun as [Hint [_ [_ [_ Hsrc]]]].
    apply IH in H. destruct H as [ms [-> [Hlen [Hall Hsrc']]]].
    exists (mkEntity mx my "g" "Goblin" (3 + Z.max 0 (level g - 1)) :: ms).
    split; [| split; [| split]].
    + cbn. rewrite <- app_assoc. reflexivity.
    + simpl. rewrite Hlen. reflexivity.
    + constructor; [cbn; repeat split; try reflexivity; apply Hint | exact Hall].
    + congruence.
Qed.

Lemma spawn_nezha_shape (fuel : nat) (g : Game) (rng : Rng) (g' : Game) (rng' : Rng) :
  spawn_nezha fuel g rng = Ok (g', rng') ->
  src rng' = src rng
  /\ (((2 <=? level g) && (nezha_phase g <? 3) = true
       /\ exists nx ny msgs l,
           interior (width g) (height g) nx ny
           /\ g' = set_osc_sent
                     (set_messages
                        (set_monsters g
                           (monsters g ++ [mkEntity nx ny "N" "Nezha" (8 + nezha_phase g * 5)]))
                        msgs) l)
      \/ ((2 <=? level g) && (nezha_phase g <? 3) = false /\ g' = g)).
Proof.
  unfold spawn_nezha. destruct ((2 <=? level g) && (nezha_phase g <? 3)).
  - intros H. inv_bind H. destruct a as [[nx ny] rng1].
    apply find_random_floor_spec in Hrun.
    destruct Hrun as [Hint [_ [_ [_ Hsrc]]]].
    match type of H with Ok (_osc_send ?a ?b ?g0, _) = _ =>
      destruct (_osc_send_frame a b g0) as [l Hl]; rewrite Hl in H end.
    inv_Ok H. split; [exact Hsrc |]. left. split; [reflexivity |].
    exists nx, ny. eexists. exists l. split; [exact Hint | reflexivity].
  - intros H. inv_Ok H. split; [reflexivity |]. right. split; reflexivity.
Qed.

Lemma spawn_items_shape (fuel n : nat) :
  forall g rng g' rng',
    spawn_items fuel n g rng = Ok (g', rng') ->
    exists its,
      g' = set_items g (items g ++ its)
      /\ List.length its = n
      /\ Forall (fun it =>
                   interior (width g) (height g) (i_x it) (i_y it)
                   /\ match i_kind it with
                      | potion => i_power it = 4 + level g
                      | weapon =>
                          exists c nm base,
                            In (c, nm, base) weapon_defs
                            /\ i_char it = c /\ i_name it = nm
                            /\ i_power it = base + Z.max 0 (level g - 1) / 2
                      end) its
      /\ src rng' = src rng.
Proof.
  induction n as [| n IH]; intros g rng g' rng' H.
  - simpl in H. inv_Ok H. exists []. rewrite app_nil_r, set_items_id.
    repeat split; constructor.
  - cbn [spawn_items] in H. inv_bind H. destruct a as [[ix iy] rng1].
    apply find_random_floor_spec in Hrun.
    destruct Hrun as [Hint [_ [_ [_ Hsrc]]]].
    pose proof (random_choice_cur weapon [weapon; potion] rng1) as Hc1.
    destruct (random_choice weapon [weapon; potion] rng1) as [kind rng2].
    cbn [snd] in Hc1. destruct kind.
    + pose proof (random_choice_In ("/", "Rusty Dagger", 1)
                    [("/", "Short Sword", 2); (")", "War Axe", 3); (")", "Crystal Blade", 4)]
                    rng2) as Hin.
      pose proof (random_choice_cur ("/", "Rusty Dagger", 1)
                    [("/", "Short Sword", 2); (")", "War Axe", 3); (")", "Crystal Blade", 4)]
                    rng2) as Hc2.
      destruct (random_choice ("/", "Rusty Dagger", 1)
                  [("/", "Short Sword", 2); (")", "War Axe", 3); (")", "Crystal Blade", 4)]
                  rng2) as [[[c nm] base] rng3].
      cbn [fst snd] in Hin, Hc2.
      apply IH in H. destruct H as [its [-> [Hlen [Hall Hsrc']]]].
      eexists (_ :: its). split; [| split; [| split]].
      * cbn. rewrite <- app_assoc. reflexivity.
      * simpl. rewrite Hlen. reflexivity.
      * constructor; [| exact Hall]. cbn. split; [exact Hint |].
        exists c, nm, base. repeat split. exact Hin.
      * cbn in Hsrc'. rewrite Hsrc', Hc2, Hc1. exact Hsrc.
    + apply IH in H. destruct H as [its [-> [Hlen [Hall Hsrc']]]].
      eexists (_ :: its). split; [| split; [| split]].
      * cbn. rewrite <- app_assoc. reflexivity.
      * simpl. rewrite Hlen. reflexivity.
      * constructor; [| exact Hall]. cbn. split; [exact Hint | reflexivity].
      * cbn in Hsrc'. rewrite Hsrc', Hc1. exact Hsrc.
Qed.

(** ** The Level Generator as a whole *)

Lemma new_level_spec (fuel : nat) (first : bool) (g : Game) (rng : Rng)
      (g' : Game) (rng' : Rng) :
  new_level fuel first g rng = Ok (g', rng') -> generated first g g'.
Proof.
  intros H. unfold new_level in H.
  set (g0 := if first then g
             else add_message (set_level g (level g + 1))
                    ("You descend to cavern level "
                       ++ str_of_int (level (set_level g (level g + 1))) ++ ".")%string)
    in H.
  assert (E0 : width g0 = width g /\ height g0 = height g
               /\ num_monsters g0 = num_monsters g /\ num_items g0 = num_items g
               /\ level g0 = (if first then level g else level g + 1)
               /\ inventory g0 = inventory g /\ current_weapon g0 = current_weapon g
               /\ _monster_turn_counter g0 = _monster_turn_counter g
               /\ nezha_phase g0 = nezha_phase g /\ player g0 = player g).
  { unfold g0. destruct first; game_simpl; repeat split. }
  clearbody g0.
  destruct E0 as [Ew [Eh [Enm [Eni [Elv [Einv [Ewp [Ectr [Eph Epl]]]]]]]]].
  cbv zeta in H. game_simpl.
  inv_bind H. destruct a as [t rng1].
  inv_bind H. destruct a as [[px py] rng2].
  apply find_random_floor_spec in Hrun0. game_simpl.
  destruct Hrun0 as [Hpint [Hpfloor _]].
  rewrite Ew, Eh in *.
  assert (Hw3 : 3 <= width g) by (unfold interior in Hpint; lia).
  assert (Hh3 : 3 <= height g) by (unfold interior in Hpint; lia).
  destruct (carve_spec (Z.to_nat (width g * height g * 4)) (width g) (height g)
              Hw3 Hh3 (blank_tiles (width g) (height g)) (width g / 2) (height g / 2) rng
              (centre_interior _ _ Hw3 Hh3) (blank_tiles_carved _ _)
              (blank_tiles_near _ _ _)) as [t1 [r1 [Hc [Hcarved _]]]].
  rewrite Hc in Hrun. inv_Ok Hrun.
  assert (Hpl : match first, player g0 with
                | false, Some p =>
                    set_player (set_tiles (set_tiles g0 (blank_tiles (width g) (height g))) t)
                      (Some (mkEntity px py (e_char p) (e_name p) (e_hp p)))
                | _, _ =>
                    set_player (set_tiles (set_tiles g0 (blank_tiles (width g) (height g))) t)
                      (Some (mkEntity px py "@" "Player" MAX_HP))
                end
                = set_player (set_tiles g0 t)
                    (Some (placed_player first (player g) px py))).
  { rewrite Epl. unfold placed_player. destruct first; [| destruct (player g)]; reflexivity. }
  rewrite Hpl in H. clear Hpl.
  inv_bind H. destruct a as [g3 rng3].
  apply spawn_monsters_shape in Hrun. destruct Hrun as [ms [-> [Hms [Hgob _]]]].
  inv_bind H. destruct a as [g4 rng4].
  apply spawn_nezha_shape in Hrun. destruct Hrun as [_ Hnz].
  inv_bind H. destruct a as [g5 rng5].
  apply spawn_items_shape in Hrun. destruct Hrun as [its [-> [Hits [Hitems _]]]].
  inv_bind H. destruct a as [[sx sy] rng6].
  apply find_random_floor_spec in Hrun.
  destruct Hrun as [Hsint [Hsfloor [Hsent _]]].
  inv_bind H.
  match type of H with
  | context [if first then set_messages ?gx ?m1 else add_message ?gx ?m2] =>
      replace (if first then set_messages gx m1 else add_message gx m2)
        with (set_messages gx (if first then m1 else messages gx ++ [m2])) in H
        by (destruct first; reflexivity)
  end.
  match type of H with Ok (_send_osc_state ?e ?gf, _) = _ =>
    destruct (_send_osc_state_frame e gf) as [lf Hlf]; rewrite Hlf in H end.
  inv_Ok H. game_simpl.
  assert (Hne : forall gq, tiles gq = t ->
                  player gq = Some (placed_player first (player g) px py) ->
                  get_entity_at gq sx sy = None -> (sx, sy) <> (px, py)).
  { intros gq _ Hp Hn E. inv_Ok E. unfold get_entity_at in Hn. rewrite Hp in Hn.
    assert (Ex : e_x (placed_player first (player g) px py) = px
                 /\ e_y (placed_player first (player g) px py) = py).
    { unfold placed_player. destruct first; [| destruct (player g)]; split; reflexivity. }
    destruct Ex as [Ex Ey]. rewrite Ex, Ey, !Z.eqb_refl in Hn. discriminate. }
  destruct Hnz as [[Hcond [nx [ny [msgs [l [Hnint ->]]]]]] | [Hcond ->]];
    game_simpl; rewrite ?Ew, ?Eh, ?Elv, ?Eph, ?Enm, ?Eni in *.
  - constructor; game_simpl; rewrite ?Elv; try assumption; try reflexivity.
    + exists t, px, py, sx, sy.
      repeat (split; [first [assumption | idtac] |]).
      * eapply Hne; [| | exact Hsent]; reflexivity.
      * reflexivity.
    + exists ms, [mkEntity nx ny "N" "Nezha" (8 + nezha_phase g * 5)].
      split; [reflexivity |].
      split; [assumption |]. split; [assumption |].
      left. split; [assumption |].
      exists nx, ny. split; [assumption | reflexivity].
    + split; assumption.
  - constructor; game_simpl; rewrite ?Elv; try assumption; try reflexivity.
    + exists t, px, py, sx, sy.
      repeat (split; [first [assumption | idtac] |]).
      * eapply Hne; [| | exact Hsent]; reflexivity.
      * reflexivity.
    + exists ms, [].
      split; [rewrite app_nil_r; reflexivity |].
      split; [assumption |]. split; [assumption |].
      right. split; [assumption | reflexivity].
    + split; assumption.
Qed.

(** ** The AI pass *)

Lemma ai_frame_refl (g : Game) : ai_frame g g.
Proof.
  constructor; try reflexivity.
  destruct (player g); [repeat split; lia | exact I].
Qed.

Lemma ai_frame_trans (g1 g2 g3 : Game) :
  ai_frame g1 g2 -> ai_frame g2 g3 -> ai_frame g1 g3.
Proof.
  intros [] []. constructor; try congruence; try lia.
  destruct (player g1), (player g2), (player g3); try tauto.
  intuition (try lia; congruence).
Qed.

Lemma ai_frame_osc (g g' : Game) (l : list (list byte)) :
  ai_frame g g' -> ai_frame g (set_osc_sent g' l).
Proof. intros []. constructor; game_simpl; assumption. Qed.

Lemma is_walkable_for_monster_total (g : Game) (x y : Z) :
  grid_ok (width g) (height g) (tiles g) ->
  exists b, is_walkable_for_monster g x y = Ok b.
Proof.
  intros Hg. unfold is_walkable_for_monster.
  destruct (in_bounds g x y) eqn:E; simpl; [| eexists; reflexivity].
  unfold in_bounds in E.
  apply andb_prop in E. destruct E as [E E4].
  apply andb_prop in E. destruct E as [E E3].
  apply andb_prop in E. destruct E as [E1 E2].
  destruct (get_tile_in_bounds _ _ _ x y Hg) as [v Hv]; try lia.
  rewrite Hv. simpl.
  destruct (walkable_tile v); simpl; [| eexists; reflexivity].
  destruct (existsb (monster_here x y) (monsters g)); [eexists; reflexivity |].
  destruct (player g) as [p |]; [| eexists; reflexivity].
  destruct ((e_x p =? x) && (e_y p =? y)); eexists; reflexivity.
Qed.

Lemma monster_turn_spec (i : nat) (g : Game) (rng : Rng) :
  grid_ok (width g) (height g) (tiles g) ->
  exists g' rng',
    monster_turn i g rng = Ok (g', rng') /\ ai_frame g g' /\ src rng' = src rng.
Proof.
  intros Hg. unfold monster_turn.
  destruct (player g) as [p |] eqn:Ep;
    [| exists g, rng; split; [reflexivity | split; [apply ai_frame_refl | reflexivity]]].
  destruct (nth_error (monsters g) i) as [m |] eqn:Em;
    [| exists g, rng; split; [reflexivity | split; [apply ai_frame_refl | reflexivity]]].
  destruct (e_hp m <=? 0);
    [exists g, rng; split; [reflexivity | split; [apply ai_frame_refl | reflexivity]] |].
  set (bias := if is_nezha m then 90%nat else 75%nat).
  assert (Hr1 : src (snd (random_lt bias rng)) = src rng) by reflexivity.
  destruct (random_lt bias rng) as [chase rng1]. cbn [snd] in Hr1.
  assert (Hstep : exists dx dy rng2,
             (if chase
              then (Z.sgn (e_x p - e_x m), Z.sgn (e_y p - e_y m), rng1)
              else random_choice (1, 0) [(-1, 0); (0, 1); (0, -1); (0, 0)] rng1)
             = (dx, dy, rng2) /\ src rng2 = src rng).
  { destruct chase.
    - do 3 eexists. split; [reflexivity | exact Hr1].
    - pose proof (random_choice_cur (1, 0) [(-1, 0); (0, 1); (0, -1); (0, 0)] rng1) as Hc.
      destruct (random_choice (1, 0) [(-1, 0); (0, 1); (0, -1); (0, 0)] rng1)
        as [[dx dy] rng2]. cbn [snd] in Hc.
      exists dx, dy, rng2. split; [reflexivity |]. rewrite Hc. exact Hr1. }
  destruct Hstep as [dx [dy [rng2 [-> Hr2]]]].
  cbv zeta.
  destruct ((e_x m + dx =? e_x p) && (e_y m + dy =? e_y p)).
  - rewrite random_randint_total by lia. cbn [bind].
    set (rng3 := mkRng (src rng2) (S (cur rng2))).
    set (r := 1 + Z.of_nat (src rng2 (cur rng2)) mod (3 - 1 + 1)).
    assert (Hrpos : 1 <= r).
    { unfold r. pose proof (Z.mod_pos_bound (Z.of_nat (src rng2 (cur rng2))) (3 - 1 + 1)).
      lia. }
    set (dmg := if is_nezha m
                then r + Z.max 0 (level g - 1) / 2 + (1 + nezha_phase g)
                else r + Z.max 0 (level g - 1) / 2).
    assert (Hdmg : 0 <= nezha_phase g -> 0 <= dmg).
    { pose proof (Z.div_pos (Z.max 0 (level g - 1)) 2).
      unfold dmg. destruct (is_nezha m); lia. }
    cbn [e_hp]. fold dmg.
    destruct (e_hp p - dmg <=? 0).
    + match goal with |- context [_send_osc_state ?e ?gf] =>
        destruct (_send_osc_state_frame e gf) as [l ->] end.
      do 2 eexists. split; [reflexivity |]. split; [| exact Hr2].
      constructor; game_simpl; try reflexivity.
      rewrite Ep. cbn. repeat split; try reflexivity. intros Hph. lia.
    + match goal with |- context [_send_osc_state ?e ?gf] =>
        destruct (_send_osc_state_frame e gf) as [l ->] end.
      do 2 eexists. split; [reflexivity |]. split; [| exact Hr2].
      constructor; game_simpl; try reflexivity.
      rewrite Ep. cbn. repeat split; try reflexivity. intros Hph. lia.
  - destruct (is_walkable_for_monster_total g (e_x m + dx) (e_y m + dy) Hg) as [b ->].
    cbn [bind]. destruct b.
    + do 2 eexists. split; [reflexivity |]. split; [| exact Hr2].
      constructor; game_simpl; try reflexivity.
      * rewrite length_replace_nth. lia.
      * rewrite Ep. repeat split; lia.
    + exists g, rng2. split; [reflexivity |]. split; [apply ai_frame_refl | exact Hr2].
Qed.

Lemma monsters_loop_spec (idx : list nat) :
  forall g rng,
    grid_ok (width g) (height g) (tiles g) ->
    exists g' rng',
      monsters_loop idx g rng = Ok (g', rng') /\ ai_frame g g' /\ src rng' = src rng.
Proof.
  induction idx as [| i rest IH]; intros g rng Hg.
  - exists g, rng. split; [reflexivity | split; [apply ai_frame_refl | reflexivity]].
  - cbn [monsters_loop].
    destruct (monster_turn_spec i g rng Hg) as [g1 [rng1 [-> [Hf1 Hs1]]]].
    cbn [bind].
    destruct (IH g1 rng1) as [g2 [rng2 [-> [Hf2 Hs2]]]].
    + rewrite (aif_width _ _ Hf1), (aif_height _ _ Hf1), (aif_tiles _ _ Hf1). exact Hg.
    + exists g2, rng2. split; [reflexivity |].
      split; [eapply ai_frame_trans; eauto | congruence].
Qed.

Lemma monsters_take_turns_spec (g : Game) (rng : Rng) (p : Entity) :
  player g = Some p ->
  grid_ok (width g) (height g) (tiles g) ->
  exists g' rng',
    monsters_take_turns g rng = Ok (g', rng')
    /\ ai_frame (set_monster_turn_counter g (_monster_turn_counter g + 1)) g'
    /\ src rng' = src rng.
Proof.
  intros Hp Hg. unfold monsters_take_turns. rewrite Hp. cbv zeta.
  set (g1 := set_monster_turn_counter g (_monster_turn_counter g + 1)).
  destruct (_monster_turn_counter g1 mod 2 =? 1).
  - exists g1, rng. split; [reflexivity | split; [apply ai_frame_refl | reflexivity]].
  - destruct (monsters_loop_spec (seq 0 (List.length (monsters g1))) g1 rng Hg)
      as [g2 [rng2 [-> [Hf Hs]]]].
    cbn [bind]. do 2 eexists. split; [reflexivity |]. split; [| exact Hs].
    destruct Hf. constructor; game_simpl; try assumption.
    pose proof (filter_length_le alive (monsters g2)). lia.
Qed.

(** ** Picking up *)

Lemma In_list_remove (v a : Item) (l : list Item) :
  In a (list_remove v l) -> In a l.
Proof.
  induction l as [| h t IH]; simpl; [tauto |].
  destruct (Item_eqb h v); simpl; intros H; [right; exact H |].
  destruct H as [H | H]; [left; exact H | right; apply IH; exact H].
Qed.

Lemma check_pickup_inv (g : Game) : game_inv g -> game_inv (check_pickup g).
Proof.
  intros Hinv. unfold check_pickup.
  destruct (inv_player _ Hinv) as [p [Ep [Hpos Hhp]]]. rewrite Ep.
  destruct (get_item_at g (e_x p) (e_y p)) as [item |] eqn:Eit; [| exact Hinv].
  assert (Hits : Forall (fun it => i_kind it = potion -> 5 <= i_power it)
                        (list_remove item (items g))).
  { apply Forall_forall. intros it Hin. apply In_list_remove in Hin.
    pose proof (inv_items _ Hinv) as Hall. rewrite Forall_forall in Hall.
    apply Hall; exact Hin. }
  destruct Hinv. destruct (i_kind item).
  - match goal with |- game_inv (_send_osc_state ?e ?gf) =>
      destruct (_send_osc_state_frame e gf) as [l ->] end.
    unfold auto_equip_weapon.
    match goal with |- context [if ?c then _ else _] => destruct c end;
      constructor; game_simpl; try assumption; exists p; auto.
  - match goal with |- game_inv (_send_osc_state ?e ?gf) =>
      destruct (_send_osc_state_frame e gf) as [l ->] end.
    destruct (Z.ltb_spec 0 (Z.min (MAX_HP - e_hp p) (i_power item))) as [Hpos' | Hneg].
    + constructor; game_simpl; try assumption.
      eexists. split; [reflexivity |]. cbn [e_x e_y e_hp]. split; [exact Hpos | lia].
    + constructor; game_simpl; assumption.
Qed.

(** ** Placing the stairs *)

Lemma stairs_placed (w h : Z) (t t' : list (list Tile)) (sx sy : Z) :
  carved w h t -> interior w h sx sy ->
  get_tile t sx sy = Ok FLOOR -> set_tile t sx sy STAIRS_DOWN = Ok t' ->
  grid_ok w h t'
  /\ count_tile STAIRS_DOWN t' = 1%nat
  /\ get_tile t' sx sy = Ok STAIRS_DOWN
  /\ (forall x y, 0 <= x -> 0 <= y -> (x, y) <> (sx, sy) ->
                  get_tile t' x y = get_tile t x y)
  /\ (forall c, walk_cell t c <-> walk_cell t' c)
  /\ connected t'
  /\ (forall x y v, 0 <= x -> 0 <= y -> get_tile t' x y = Ok v ->
                    walkable_tile v = true -> interior w h x y).
Proof.
  intros [Hg Hc Hconn] [Hsx Hsy] Hfloor Hset.
  assert (Hx0 : 0 <= sx) by lia. assert (Hy0 : 0 <= sy) by lia.
  assert (Hsame : get_tile t' sx sy = Ok STAIRS_DOWN)
    by (apply (get_set_tile_same t sx sy STAIRS_DOWN t'); assumption).
  assert (Hother : forall x y, 0 <= x -> 0 <= y -> (x, y) <> (sx, sy) ->
                               get_tile t' x y = get_tile t x y).
  { intros x y Hx Hy Hne.
    apply (get_set_tile_other t sx sy STAIRS_DOWN t' x y); assumption. }
  assert (Hwalk : forall c, walk_cell t c <-> walk_cell t' c).
  { intros [cx cy]. unfold walk_cell; cbn [fst snd].
    destruct (Z.eq_dec cx sx) as [-> | Nx]; [destruct (Z.eq_dec cy sy) as [-> | Ny] |].
    - split; intros [H0 [H1 _]]; (split; [| split]); try assumption.
      + exists STAIRS_DOWN. split; [exact Hsame | reflexivity].
      + exists FLOOR. split; [exact Hfloor | reflexivity].
    - split; intros [H0 [H1 [v [Hv Hw]]]]; (split; [| split]); try assumption;
        exists v; (split; [| exact Hw]).
      + rewrite Hother by (assumption || congruence). exact Hv.
      + rewrite Hother in Hv by (assumption || congruence). exact Hv.
    - split; intros [H0 [H1 [v [Hv Hw]]]]; (split; [| split]); try assumption;
        exists v; (split; [| exact Hw]).
      + rewrite Hother by (assumption || congruence). exact Hv.
      + rewrite Hother in Hv by (assumption || congruence). exact Hv. }
  split; [| split; [| split; [| split; [| split; [| split]]]]].
  - apply (set_tile_grid_ok w h t sx sy STAIRS_DOWN t'); assumption.
  - pose proof (count_tile_set_tile STAIRS_DOWN t t' sx sy FLOOR STAIRS_DOWN
                  Hx0 Hy0 Hfloor Hset) as Hcnt.
    cbn [Tile_eqb] in Hcnt.
    rewrite (count_tile_none STAIRS_DOWN t) in Hcnt; [lia |].
    intros x y o Hx Hy Ho. apply (Hc x y o Hx Hy Ho).
  - exact Hsame.
  - exact Hother.
  - exact Hwalk.
  - intros a b Ha Hb. apply Hwalk in Ha. apply Hwalk in Hb.
    eapply route_mono; [| apply Hconn; assumption].
    intros c. apply Hwalk.
  - intros x y v Hx Hy Hv Hw.
    destruct (Z.eq_dec x sx) as [-> | Nx]; [destruct (Z.eq_dec y sy) as [-> | Ny] |].
    + split; assumption.
    + rewrite Hother in Hv by (try lia; congruence).
      destruct (Hc sx y v Hx Hy Hv) as [Hns Hfl].
      apply Hfl. destruct v; [discriminate | reflexivity | congruence].
    + rewrite Hother in Hv by (try lia; congruence).
      destruct (Hc x y v Hx Hy Hv) as [Hns Hfl].
      apply Hfl. destruct v; [discriminate | reflexivity | congruence].
Qed.

(** ** The invariant holds after every generation *)

Lemma placed_player_hp (first : bool) (old : option Entity) (px py : Z) :
  (forall p, old = Some p -> e_hp p <= MAX_HP) ->
  e_x (placed_player first old px py) = px
  /\ e_y (placed_player first old px py) = py
  /\ e_hp (placed_player first old px py) <= MAX_HP.
Proof.
  intros H. unfold placed_player.
  destruct first; [| destruct old as [p |]]; cbn; repeat split;
    try (unfold MAX_HP; lia).
  apply H; reflexivity.
Qed.

Lemma new_level_inv (fuel : nat) (first : bool) (g : Game) (rng : Rng)
      (g' : Game) (rng' : Rng) :
  1 <= level g -> 0 <= nezha_phase g <= 3 ->
  (forall p, player g = Some p -> e_hp p <= MAX_HP) ->
  new_level fuel first g rng = Ok (g', rng') -> game_inv g'.
Proof.
  intros Hlv Hph Hhp H. apply new_level_spec in H. destruct H.
  destruct gen_grid0 as [t [px [py [sx [sy [Hcarved [Hpint [Hpfl [Hsint [Hsfl
                          [Hne [Hset Hpl]]]]]]]]]]]].
  destruct (stairs_placed _ _ _ _ _ _ Hcarved Hsint Hsfl Hset)
    as [Hgrid [Hcnt [_ [_ [_ [_ Hwalk]]]]]].
  destruct (placed_player_hp first (player g) px py Hhp) as [Ex [Ey Ehp]].
  constructor; rewrite ?gen_width0, ?gen_height0; try assumption.
  - eexists. split; [exact Hpl |]. rewrite Ex, Ey. split; assumption.
  - rewrite gen_phase0. exact Hph.
  - rewrite gen_level0. destruct first; lia.
  - destruct gen_items0 as [_ Hall]. rewrite Forall_forall in *.
    intros it Hin Hk. specialize (Hall it Hin). destruct Hall as [_ Hall].
    rewrite Hk in Hall. rewrite Hall, gen_level0. destruct first; lia.
Qed.

(** ** The invariant is kept by every action *)

Lemma game_inv_same (g g' : Game) :
  width g' = width g -> height g' = height g -> tiles g' = tiles g ->
  player g' = player g -> nezha_phase g' = nezha_phase g ->
  level g' = level g -> items g' = items g ->
  game_inv g -> game_inv g'.
Proof.
  intros Ew Eh Et Ep Eph El Ei []. constructor;
    rewrite ?Ew, ?Eh, ?Et, ?Ep, ?Eph, ?El, ?Ei; assumption.
Qed.

Lemma game_inv_send (e : string) (g : Game) :
  game_inv g -> game_inv (_send_osc_state e g).
Proof.
  intros H. destruct (_send_osc_state_frame e g) as [l ->].
  eapply game_inv_same; [.. | exact H]; reflexivity.
Qed.

Lemma game_inv_ai (g g' : Game) : game_inv g -> ai_frame g g' -> game_inv g'.
Proof.
  intros [] []. constructor;
    rewrite ?aif_width0, ?aif_height0, ?aif_tiles0, ?aif_phase0, ?aif_level0,
      ?aif_items0; try assumption.
  destruct inv_player0 as [p [Ep [Hpos Hhp]]]. rewrite Ep in aif_player0.
  destruct (player g') as [p' |]; [| contradiction].
  destruct aif_player0 as [Ex [Ey [Eh _]]].
  exists p'. split; [reflexivity |]. rewrite Ex, Ey. split; [exact Hpos | lia].
Qed.

Lemma monsters_take_turns_inv (g : Game) (rng : Rng) :
  game_inv g ->
  exists g' rng',
    monsters_take_turns g rng = Ok (g', rng') /\ game_inv g' /\ src rng' = src rng.
Proof.
  intros Hinv. destruct (inv_player _ Hinv) as [p [Ep _]].
  destruct (monsters_take_turns_spec g rng p Ep (inv_grid _ Hinv))
    as [g' [rng' [Hrun [Hf Hs]]]].
  exists g', rng'. split; [exact Hrun |]. split; [| exact Hs].
  eapply game_inv_ai; [| exact Hf].
  eapply game_inv_same; [.. | exact Hinv]; reflexivity.
Qed.

Lemma wait_turn_inv (g : Game) (rng : Rng) :
  game_inv g ->
  exists g' rng', wait_turn g rng = Ok (g', rng') /\ game_inv g'.
Proof.
  intros Hinv. unfold wait_turn.
  destruct (monsters_take_turns_inv
              (add_message g "You wait and feel the structure hum.") rng)
    as [g1 [rng1 [-> [Hinv1 _]]]].
  { eapply game_inv_same; [.. | exact Hinv]; reflexivity. }
  cbn [bind]. do 2 eexists. split; [reflexivity |].
  apply game_inv_send; exact Hinv1.
Qed.

Lemma in_bounds_true (g : Game) (x y : Z) :
  in_bounds g x y = true <-> (0 <= x < width g /\ 0 <= y < height g).
Proof.
  unfold in_bounds. rewrite !andb_true_iff, !Z.leb_le, !Z.ltb_lt. lia.
Qed.

Lemma player_attack_damage_total (g : Game) (rng : Rng) :
  exists dmg rng', player_attack_damage g rng = Ok (dmg, rng') /\ src rng' = src rng.
Proof.
  unfold player_attack_damage. rewrite random_randint_total by lia. cbn [bind].
  do 2 eexists. split; reflexivity.
Qed.

(** A move that returns keeps the invariant. *)
Lemma move_player_inv (fuel : nat) (dx dy : Z) (g : Game) (rng : Rng)
      (g' : Game) (rng' : Rng) :
  game_inv g -> move_player fuel dx dy g rng = Ok (g', rng') -> game_inv g'.
Proof.
  intros Hinv H. unfold move_player in H.
  destruct (inv_player _ Hinv) as [p [Ep [Hpos Hhp]]]. rewrite Ep in H.
  cbv zeta in H.
  destruct (in_bounds g (e_x p + dx) (e_y p + dy)) eqn:Eb; cbn [negb] in H.
  2:{ inv_Ok H. apply game_inv_send.
      eapply game_inv_same; [.. | exact Hinv]; reflexivity. }
  apply in_bounds_true in Eb.
  destruct (get_monster_at g (e_x p + dx) (e_y p + dy)) as [[i target] |].
  - inv_bind H. destruct a as [dmg rng1]. inv_bind H. destruct a as [g2 rng2].
    inv_Ok H. apply game_inv_send.
    match type of Hrun0 with monsters_take_turns ?gq _ = _ =>
      destruct (monsters_take_turns_inv gq rng1) as [g3 [rng3 [Hrun3 [Hinv3 _]]]] end.
    2:{ rewrite Hrun3 in Hrun0. inv_Ok Hrun0. exact Hinv3. }
    cbn [e_hp].
    destruct (e_hp target - dmg <=? 0); [destruct (is_nezha _) |].
    + match goal with |- game_inv (_osc_send ?a ?b ?gq) =>
        destruct (_osc_send_frame a b gq) as [l ->] end.
      destruct Hinv. constructor; game_simpl; try assumption. lia.
    + eapply game_inv_same; [.. | exact Hinv]; reflexivity.
    + eapply game_inv_same; [.. | exact Hinv]; reflexivity.
  - inv_bind H. destruct a.
    + (* wall *)
      inv_Ok H. apply game_inv_send.
      eapply game_inv_same; [.. | exact Hinv]; reflexivity.
    + (* floor *)
      inv_bind H. destruct a as [g2 rng2]. inv_Ok H. apply game_inv_send.
      match type of Hrun0 with monsters_take_turns ?gq _ = _ =>
        destruct (monsters_take_turns_inv gq rng) as [g3 [rng3 [Hrun3 [Hinv3 _]]]] end.
      2:{ rewrite Hrun3 in Hrun0. inv_Ok Hrun0. exact Hinv3. }
      apply check_pickup_inv.
      pose proof (inv_walk _ Hinv (e_x p + dx) (e_y p + dy) FLOOR
                    ltac:(lia) ltac:(lia) Hrun eq_refl) as Hint.
      destruct Hinv. constructor; game_simpl; try assumption.
      eexists. split; [reflexivity |]. cbn [e_x e_y e_hp]. split; assumption.
    + (* stairs *)
      eapply new_level_inv; [| | | exact H]; game_simpl.
      * apply (inv_level _ Hinv).
      * apply (inv_phase _ Hinv).
      * intros q Hq. rewrite Ep in Hq. inv_Ok Hq. exact Hhp.
Qed.

Lemma new_game_inv (fuel : nat) (w h nm ni : Z) (rng : Rng) (g : Game) (rng' : Rng) :
  new_game fuel w h nm ni rng = Ok (g, rng') -> game_inv g.
Proof.
  intros H. unfold new_game in H. inv_bind H. destruct a as [g1 rng1].
  inv_Ok H. apply game_inv_send.
  eapply new_level_inv; [| | | exact Hrun]; cbn; try lia. discriminate.
Qed.

Lemma apply_command_inv (fuel : nat) (c : Command) (g : Game) (rng : Rng)
      (g' : Game) (rng' : Rng) :
  game_inv g -> apply_command fuel c g rng = Ok (g', rng') -> game_inv g'.
Proof.
  intros Hinv H. unfold apply_command in H.
  destruct (moves c) as [[dx dy] |].
  - eapply move_player_inv; eauto.
  - destruct (wait_turn_inv g rng Hinv) as [g1 [rng1 [Hrun Hinv1]]].
    rewrite Hrun in H. inv_Ok H. exact Hinv1.
Qed.

Lemma reachable_inv (g : Game) : reachable g -> game_inv g.
Proof.
  induction 1 as [fuel w h nm ni rng g rng' H | fuel c g rng g' rng' _ IH H].
  - eapply new_game_inv; eauto.
  - eapply apply_command_inv; eauto.
Qed.

(** ** The worked runs are real runs *)

Lemma run_a_reachable : reachable (game_of run_a).
Proof.
  apply (reachable_new 10 5 5 1 0 run_a_rng (game_of run_a) (rng_of run_a)).
  vm_compute. reflexivity.
Qed.

Lemma run_a_attack_reachable : reachable (game_of run_a_attack).
Proof.
  apply (reachable_step 10 right (game_of run_a) (rng_of run_a)
           (game_of run_a_attack) (rng_of run_a_attack) run_a_reachable).
  vm_compute. reflexivity.
Qed.

Lemma run_b_reachable : reachable (game_of run_b).
Proof.
  apply (reachable_new 10 5 5 1 0 run_b_rng (game_of run_b) (rng_of run_b)).
  vm_compute. reflexivity.
Qed.

Lemma run_b_waited_reachable : reachable (game_of run_b_waited).
Proof.
  apply (reachable_step 10 wait (game_of (then_do wait run_b)) (rng_of (then_do wait run_b))
           (game_of run_b_waited) (rng_of run_b_waited)).
  - apply (reachable_step 10 wait (game_of run_b) (rng_of run_b)
             (game_of (then_do wait run_b)) (rng_of (then_do wait run_b))
             run_b_reachable).
    vm_compute. reflexivity.
  - vm_compute. reflexivity.
Qed.

Lemma run_c_reachable : reachable (game_of run_c).
Proof.
  apply (reachable_new 10 5 5 0 1 run_c_rng (game_of run_c) (rng_of run_c)).
  vm_compute. reflexivity.
Qed.

Lemma run_d_reachable : reachable (game_of run_d).
Proof.
  apply (reachable_new 10 5 5 1 0 run_d_rng (game_of run_d) (rng_of run_d)).
  vm_compute. reflexivity.
Qed.

(** * The claims *)

(** C6.  After every run of the Level Generator that returns, and in every
    game state that can arise, the tile grid holds exactly one [STAIRS_DOWN]
    cell. *)
Theorem exactly_one_stairs :
  (forall fuel first g rng g' rng',
      new_level fuel first g rng = Ok (g', rng') ->
      count_tile STAIRS_DOWN (tiles g') = 1%nat)
  /\ (forall g, reachable g -> count_tile STAIRS_DOWN (tiles g) = 1%nat).
Proof.
  split.
  - intros fuel first g rng g' rng' H. apply new_level_spec in H.
    destruct (gen_grid _ _ _ H)
      as [t [px [py [sx [sy [Hcarved [_ [_ [Hsint [Hsfl [_ [Hset _]]]]]]]]]]]].
    apply (stairs_placed _ _ _ _ _ _ Hcarved Hsint Hsfl Hset).
  - intros g Hr. apply (inv_stairs _ (reachable_inv g Hr)).
Qed.

Lemma exactly_one_stairs_witness :
  count_tile STAIRS_DOWN (tiles (game_of (new_level 10 true (fresh 5 5 1 0) run_a_rng)))
  = 1%nat
  /\ count_tile STAIRS_DOWN (tiles (game_of run_a_attack)) = 1%nat.
Proof.
  split.
  - apply (proj1 exactly_one_stairs 10%nat true (fresh 5 5 1 0) run_a_rng
             (game_of (new_level 10 true (fresh 5 5 1 0) run_a_rng))
             (rng_of (new_level 10 true (fresh 5 5 1 0) run_a_rng))).
    vm_compute. reflexivity.
  - apply (proj2 exactly_one_stairs (game_of run_a_attack)).
    exact run_a_attack_reachable.
Defined.

(** C3.  In every level the Level Generator produces, whatever the random
    choices were, there is a [STAIRS_DOWN] cell, and every such cell is
    reached from the player's spawn cell by single steps between 4-adjacent
    walkable (floor or stairs) cells. *)
Theorem stairs_reachable_from_spawn
        (fuel : nat) (first : bool) (g : Game) (rng : Rng) (g' : Game) (rng' : Rng)
        (Hgen : new_level fuel first g rng = Ok (g', rng')) :
  exists p,
    player g' = Some p
    /\ (exists sx sy, 0 <= sx /\ 0 <= sy
                      /\ get_tile (tiles g') sx sy = Ok STAIRS_DOWN)
    /\ forall x y, 0 <= x -> 0 <= y ->
                   get_tile (tiles g') x y = Ok STAIRS_DOWN ->
                   route (tiles g') (e_x p, e_y p) (x, y).
Proof.
  apply new_level_spec in Hgen.
  destruct (gen_grid _ _ _ Hgen)
    as [t [px [py [sx [sy [Hcarved [Hpint [Hpfl [Hsint [Hsfl [Hne [Hset Hpl]]]]]]]]]]]].
  destruct (stairs_placed _ _ _ _ _ _ Hcarved Hsint Hsfl Hset)
    as [_ [_ [Hst [_ [Hwalk [Hconn _]]]]]].
  exists (placed_player first (player g) px py). split; [exact Hpl |].
  assert (Exy : e_x (placed_player first (player g) px py) = px
                /\ e_y (placed_player first (player g) px py) = py).
  { unfold placed_player. destruct first; [| destruct (player g)]; split; reflexivity. }
  destruct Exy as [-> ->]. split.
  - exists sx, sy. unfold interior in Hsint. repeat split; try lia. exact Hst.
  - intros x y Hx Hy Hxy. apply Hconn.
    + apply Hwalk. unfold interior in Hpint.
      split; [cbn; lia | split; [cbn; lia |]].
      exists FLOOR. split; [exact Hpfl | reflexivity].
    + split; [exact Hx | split; [exact Hy |]].
      exists STAIRS_DOWN. split; [exact Hxy | reflexivity].
Qed.

Lemma stairs_reachable_from_spawn_witness :
  exists p,
    player (game_of (new_level 10 true (fresh 5 5 1 0) run_a_rng)) = Some p
    /\ (exists sx sy, 0 <= sx /\ 0 <= sy
          /\ get_tile (tiles (game_of (new_level 10 true (fresh 5 5 1 0) run_a_rng))) sx sy
             = Ok STAIRS_DOWN)
    /\ forall x y, 0 <= x -> 0 <= y ->
         get_tile (tiles (game_of (new_level 10 true (fresh 5 5 1 0) run_a_rng))) x y
         = Ok STAIRS_DOWN ->
         route (tiles (game_of (new_level 10 true (fresh 5 5 1 0) run_a_rng)))
               (e_x p, e_y p) (x, y).
Proof.
  apply (stairs_reachable_from_spawn 10 true (fresh 5 5 1 0) run_a_rng
           (game_of (new_level 10 true (fresh 5 5 1 0) run_a_rng))
           (rng_of (new_level 10 true (fresh 5 5 1 0) run_a_rng))).
  vm_compute. reflexivity.
Defined.

(** C10.  In every game state that can arise the player stands strictly
    inside the border ring, every border cell is a wall, and so no dispatched
    move leaves the grid: the [bump_edge] branch of [move_player] is never
    taken. *)
Theorem player_strictly_inside (g : Game) (Hr : reachable g) :
  exists p,
    player g = Some p
    /\ 1 <= e_x p <= width g - 2
    /\ 1 <= e_y p <= height g - 2
    /\ (forall x y, 0 <= x < width g -> 0 <= y < height g ->
                    x = 0 \/ x = width g - 1 \/ y = 0 \/ y = height g - 1 ->
                    get_tile (tiles g) x y = Ok WALL)
    /\ forall c dx dy, moves c = Some (dx, dy) ->
                       in_bounds g (e_x p + dx) (e_y p + dy) = true.
Proof.
  pose proof (reachable_inv g Hr) as Hinv.
  destruct (inv_player _ Hinv) as [p [Ep [[Hx Hy] _]]].
  exists p. split; [exact Ep |]. split; [exact Hx |]. split; [exact Hy |]. split.
  - intros x y Hxb Hyb Hborder.
    destruct (get_tile_in_bounds _ _ _ x y (inv_grid _ Hinv) Hxb Hyb) as [v Hv].
    rewrite Hv. f_equal. destruct v; try reflexivity;
      (assert (Hint : interior (width g) (height g) x y)
        by (apply (inv_walk _ Hinv x y _ ltac:(lia) ltac:(lia) Hv); reflexivity);
       unfold interior in Hint; lia).
  - intros c dx dy Hc. apply in_bounds_true.
    destruct c; cbn in Hc; inversion Hc; subst; lia.
Qed.

Lemma player_strictly_inside_witness :
  exists p,
    player (game_of run_a_attack) = Some p
    /\ 1 <= e_x p <= width (game_of run_a_attack) - 2
    /\ 1 <= e_y p <= height (game_of run_a_attack) - 2
    /\ (forall x y, 0 <= x < width (game_of run_a_attack) ->
                    0 <= y < height (game_of run_a_attack) ->
                    x = 0 \/ x = width (game_of run_a_attack) - 1
                    \/ y = 0 \/ y = height (game_of run_a_attack) - 1 ->
                    get_tile (tiles (game_of run_a_attack)) x y = Ok WALL)
    /\ forall c dx dy, moves c = Some (dx, dy) ->
                       in_bounds (game_of run_a_attack) (e_x p + dx) (e_y p + dy) = true.
Proof.
  apply (player_strictly_inside (game_of run_a_attack)).
  exact run_a_attack_reachable.
Defined.

(** C5.  Every invocation of the Monster AI Scheduler returns with the
    counter increased by exactly 1.  When the increased counter is odd the
    call changes nothing else and draws no random number: no monster moves or
    attacks.  When it is even the pass over all monsters runs and the dead are
    filtered out.  The parity flips at each invocation, so the pass runs on
    exactly every second one. *)
Theorem scheduler_half_speed
        (g : Game) (rng : Rng) (p : Entity)
        (Hp : player g = Some p)
        (Hgrid : grid_ok (width g) (height g) (tiles g)) :
  let c' := _monster_turn_counter g + 1 in
  exists g' rng',
    monsters_take_turns g rng = Ok (g', rng')
    /\ _monster_turn_counter g' = c'
    /\ (c' mod 2 = 1 -> g' = set_monster_turn_counter g c' /\ rng' = rng)
    /\ (c' mod 2 = 0 ->
        exists g1,
          monsters_loop (seq 0 (List.length (monsters g)))
                        (set_monster_turn_counter g c') rng = Ok (g1, rng')
          /\ g' = set_monsters g1 (filter alive (monsters g1)))
    /\ ((_monster_turn_counter g' + 1) mod 2 = 1 <-> c' mod 2 = 0).
Proof.
  intros c'.
  destruct (monsters_take_turns_spec g rng p Hp Hgrid) as [g' [rng' [Hrun [Hf _]]]].
  exists g', rng'. split; [exact Hrun |].
  pose proof (aif_counter _ _ Hf) as Hc. game_simpl. fold c' in Hc.
  split; [exact Hc |].
  unfold monsters_take_turns in Hrun. rewrite Hp in Hrun. cbv zeta in Hrun.
  game_simpl. fold c' in Hrun.
  split; [| split].
  - intros Hodd. rewrite Hodd in Hrun. cbn in Hrun. inv_Ok Hrun. split; reflexivity.
  - intros Heven. rewrite Heven in Hrun. cbn [Z.eqb] in Hrun.
    inv_bind Hrun. destruct a as [g1 rng1]. inv_Ok Hrun.
    exists g1. split; [exact Hrun0 | reflexivity].
  - rewrite Hc.
    pose proof (Z.mod_pos_bound c' 2 ltac:(lia)).
    pose proof (Z.mod_pos_bound (c' + 1) 2 ltac:(lia)).
    pose proof (Z.div_mod c' 2 ltac:(lia)).
    pose proof (Z.div_mod (c' + 1) 2 ltac:(lia)).
    lia.
Qed.

Lemma scheduler_half_speed_witness :
  exists g' rng',
    monsters_take_turns (game_of run_b) (rng_of run_b) = Ok (g', rng')
    /\ _monster_turn_counter g' = _monster_turn_counter (game_of run_b) + 1.
Proof.
  destruct (scheduler_half_speed (game_of run_b) (rng_of run_b)
              (mkEntity 1 2 "@" "Player" 10))
    as [g' [rng' [Hrun [Hc _]]]].
  - vm_compute. reflexivity.
  - vm_compute. repeat constructor.
  - exists g', rng'. split; [exact Hrun | exact Hc].
Defined.

(** ** Dead monsters *)

Lemma first_monster_spec (ms : list Entity) (x y : Z) :
  forall k i m,
    first_monster ms x y k = Some (i, m) ->
    (k <= i)%nat /\ nth_error ms (i - k) = Some m /\ monster_here x y m = true.
Proof.
  induction ms as [| h t IH]; intros k i m H; [discriminate |].
  cbn [first_monster] in H. destruct (monster_here x y h) eqn:E.
  - inv_Ok H. rewrite Nat.sub_diag. repeat split; [lia | exact E].
  - apply IH in H. destruct H as [Hle [Hn Hh]].
    replace (i - k)%nat with (S (i - S k)) by lia.
    repeat split; [lia | exact Hn | exact Hh].
Qed.

Lemma monster_here_alive (x y : Z) (m : Entity) :
  monster_here x y m = true -> e_x m = x /\ e_y m = y /\ 0 < e_hp m.
Proof.
  unfold monster_here. rewrite !andb_true_iff, !Z.eqb_eq, Z.ltb_lt. tauto.
Qed.




(** ** Potions *)

Lemma get_item_at_In (g : Game) (x y : Z) (it : Item) :
  get_item_at g x y = Some it -> In it (items g) /\ i_x it = x /\ i_y it = y.
Proof.
  unfold get_item_at. intros H. apply find_some in H. destruct H as [Hin Hxy].
  apply andb_prop in Hxy. rewrite !Z.eqb_eq in Hxy. tauto.
Qed.

(** C9.  In every game state that can arise, when the player steps onto a
    potion the pickup raises the hit points by exactly
    [min (MAX_HP - hp) power], a non-negative amount; the log gains the heal
    message when the amount is positive and the neutral message otherwise;
    the potion leaves the level; and the player's hit points never exceed
    [MAX_HP = 10], after the pickup and in every state that can arise. *)
Theorem potion_heals_up_to_max (g : Game) (Hr : reachable g) :
  MAX_HP = 10
  /\ (exists p, player g = Some p /\ e_hp p <= MAX_HP)
  /\ forall p nx ny it,
      player g = Some p ->
      let g1 := set_player g (Some (mkEntity nx ny (e_char p) (e_name p) (e_hp p))) in
      get_item_at g1 nx ny = Some it ->
      i_kind it = potion ->
      let healed := Z.min (MAX_HP - e_hp p) (i_power it) in
      0 <= healed
      /\ player (check_pickup g1)
         = Some (mkEntity nx ny (e_char p) (e_name p) (e_hp p + healed))
      /\ e_hp p + healed <= MAX_HP
      /\ messages (check_pickup g1)
         = messages g
             ++ [if 0 <? healed
                 then ("Concrete dust washes from your lungs. (+" ++ str_of_int healed
                         ++ " HP)")%string
                 else "You drink, but feel no different."]
      /\ items (check_pickup g1) = list_remove it (items g).
Proof.
  pose proof (reachable_inv g Hr) as Hinv.
  destruct (inv_player _ Hinv) as [p0 [Ep0 [_ Hhp0]]].
  split; [reflexivity |]. split; [exists p0; split; assumption |].
  intros p nx ny it Hp g1 Hit Hk healed.
  rewrite Ep0 in Hp. inv_Ok Hp.
  assert (Hpow : 5 <= i_power it).
  { apply get_item_at_In in Hit. destruct Hit as [Hin _].
    pose proof (inv_items _ Hinv) as Hall. rewrite Forall_forall in Hall.
    apply Hall; assumption. }
  assert (Hheal : 0 <= healed) by (unfold healed; lia).
  split; [exact Hheal |].
  unfold check_pickup. subst g1. game_simpl. cbn [e_x e_y e_hp e_char e_name].
  rewrite Hit, Hk. game_simpl. fold healed.
  match goal with |- context [_send_osc_state ?e ?gf] =>
    destruct (_send_osc_state_frame e gf) as [l ->] end.
  destruct (Z.ltb_spec 0 healed) as [Hpos | Hzero]; game_simpl.
  - repeat split; try reflexivity. unfold healed. lia.
  - assert (healed = 0) by lia.
    replace (e_hp p + healed) with (e_hp p) by lia.
    repeat split; try reflexivity. lia.
Qed.

Lemma potion_heals_up_to_max_witness :
  player (check_pickup
            (set_player (game_of run_c) (Some (mkEntity 3 2 "@" "Player" 10))))
  = Some (mkEntity 3 2 "@" "Player" 10)
  /\ items (check_pickup
              (set_player (game_of run_c) (Some (mkEntity 3 2 "@" "Player" 10))))
     = [].
Proof.
  destruct (potion_heals_up_to_max (game_of run_c) run_c_reachable) as [_ [_ H]].
  specialize (H (mkEntity 1 2 "@" "Player" 10) 3 2
                (mkItem 3 2 "!" "Healing Potion" potion 5)).
  destruct H as [_ [Hp [_ [_ Hi]]]].
  - vm_compute. reflexivity.
  - vm_compute. reflexivity.
  - reflexivity.
  - split; [exact Hp | exact Hi].
Defined.

(** ** The boss phase *)

Lemma goblins_not_nezha (w h hp : Z) (ms : list Entity) :
  Forall (fun m => e_name m = "Goblin" /\ e_char m = "g" /\ e_hp m = hp
                   /\ interior w h (e_x m) (e_y m)) ms ->
  filter is_nezha ms = [].
Proof.
  induction 1 as [| m l [Hn _] _ IH]; [reflexivity |].
  cbn [filter]. unfold is_nezha at 1. rewrite Hn. cbn. exact IH.
Qed.

Lemma new_level_boss (fuel : nat) (first : bool) (g : Game) (rng : Rng)
      (g' : Game) (rng' : Rng) :
  new_level fuel first g rng = Ok (g', rng') ->
  nezha_phase g' = nezha_phase g
  /\ (((2 <=? level g') && (nezha_phase g <? 3) = true
       /\ exists nx ny,
           filter is_nezha (monsters g')
           = [mkEntity nx ny "N" "Nezha" (8 + nezha_phase g * 5)])
      \/ ((2 <=? level g') && (nezha_phase g <? 3) = false
          /\ filter is_nezha (monsters g') = [])).
Proof.
  intros H. apply new_level_spec in H. split; [apply (gen_phase _ _ _ H) |].
  destruct (gen_monsters _ _ _ H) as [ms [nz [Em [_ [Hgob Hnz]]]]].
  rewrite Em, filter_app, (goblins_not_nezha _ _ _ _ Hgob). cbn [app].
  destruct Hnz as [[Hc [nx [ny [_ ->]]]] | [Hc ->]].
  - left. split; [exact Hc |]. exists nx, ny. reflexivity.
  - right. split; [exact Hc | reflexivity].
Qed.

Lemma check_pickup_frame (g : Game) :
  width (check_pickup g) = width g
  /\ height (check_pickup g) = height g
  /\ tiles (check_pickup g) = tiles g
  /\ nezha_phase (check_pickup g) = nezha_phase g
  /\ level (check_pickup g) = level g
  /\ _monster_turn_counter (check_pickup g) = _monster_turn_counter g
  /\ monsters (check_pickup g) = monsters g
  /\ (forall p, player g = Some p -> exists p', player (check_pickup g) = Some p').
Proof.
  unfold check_pickup. destruct (player g) as [p |] eqn:Ep.
  2:{ repeat split. intros p Hp. discriminate. }
  destruct (get_item_at g (e_x p) (e_y p)) as [item |].
  2:{ repeat split. intros q Hq. eexists; first [reflexivity | exact Ep]. }
  destruct (i_kind item).
  - match goal with |- context [_send_osc_state ?e ?gf] =>
      destruct (_send_osc_state_frame e gf) as [l ->] end.
    unfold auto_equip_weapon.
    match goal with |- context [if ?c then _ else _] => destruct c end;
      game_simpl; repeat split; intros q _; eexists; first [reflexivity | exact Ep].
  - match goal with |- context [_send_osc_state ?e ?gf] =>
      destruct (_send_osc_state_frame e gf) as [l ->] end.
    destruct (0 <? Z.min (MAX_HP - e_hp p) (i_power item));
      game_simpl; repeat split; intros q _; eexists; first [reflexivity | exact Ep].
Qed.

Lemma apply_command_phase (fuel : nat) (c : Command) (g : Game) (rng : Rng)
      (g' : Game) (rng' : Rng) :
  game_inv g -> apply_command fuel c g rng = Ok (g', rng') ->
  nezha_phase g' = nezha_phase g
  \/ exists p dx dy i target dmg rng1,
      moves c = Some (dx, dy)
      /\ player g = Some p
      /\ get_monster_at g (e_x p + dx) (e_y p + dy) = Some (i, target)
      /\ player_attack_damage g rng = Ok (dmg, rng1)
      /\ e_name target = "Nezha"
      /\ e_hp target - dmg <= 0
      /\ nezha_phase g' = Z.min (nezha_phase g + 1) 3.
Proof.
  intros Hinv H. unfold apply_command in H.
  destruct (inv_player _ Hinv) as [p [Ep _]].
  pose proof (inv_grid _ Hinv) as Hgrid.
  assert (Hmtt : forall gq rq gr rr,
             width gq = width g -> height gq = height g -> tiles gq = tiles g ->
             (exists q, player gq = Some q) ->
             monsters_take_turns gq rq = Ok (gr, rr) ->
             nezha_phase gr = nezha_phase gq).
  { intros gq rq gr rr Ew Eh Et [q Eq] Hrun.
    destruct (monsters_take_turns_spec gq rq q Eq) as [g3 [r3 [Hrun3 [Hf _]]]].
    - rewrite Ew, Eh, Et; exact Hgrid.
    - rewrite Hrun3 in Hrun. inv_Ok Hrun. apply (aif_phase _ _ Hf). }
  destruct (moves c) as [[dx dy] |] eqn:Ec.
  - unfold move_player in H. rewrite Ep in H. cbv zeta in H.
    destruct (in_bounds g (e_x p + dx) (e_y p + dy)); cbn [negb] in H.
    2:{ inv_Ok H. left.
        match goal with |- context [_send_osc_state ?e ?gf] =>
          destruct (_send_osc_state_frame e gf) as [l ->] end. reflexivity. }
    destruct (get_monster_at g (e_x p + dx) (e_y p + dy)) as [[i target] |] eqn:Em.
    + inv_bind H. destruct a as [dmg rng1]. inv_bind H. destruct a as [g2 rng2].
      inv_Ok H.
      match goal with |- context [_send_osc_state ?e ?gf] =>
        destruct (_send_osc_state_frame e gf) as [l ->] end.
      game_simpl. cbn [e_hp e_name] in Hrun0.
      destruct (Z.leb_spec (e_hp target - dmg) 0) as [Hdead | Halive].
      * unfold is_nezha in Hrun0. cbn [e_name] in Hrun0.
        destruct (String.eqb_spec (e_name target) "Nezha") as [Hname | Hname].
        -- right. exists p, dx, dy, i, target, dmg, rng1.
           repeat (split; [first [reflexivity | assumption] |]).
           match type of Hrun0 with monsters_take_turns (_osc_send ?a ?b ?gq) _ = _ =>
             destruct (_osc_send_frame a b gq) as [l2 Hl2]; rewrite Hl2 in Hrun0 end.
           apply Hmtt in Hrun0; try reflexivity; [| exists p; exact Ep].
           rewrite Hrun0. reflexivity.
        -- left. apply Hmtt in Hrun0; try reflexivity; [| exists p; exact Ep].
           rewrite Hrun0. reflexivity.
      * left. apply Hmtt in Hrun0; try reflexivity; [| exists p; exact Ep].
        rewrite Hrun0. reflexivity.
    + inv_bind H. destruct a.
      * inv_Ok H. left.
        match goal with |- context [_send_osc_state ?e ?gf] =>
          destruct (_send_osc_state_frame e gf) as [l ->] end. reflexivity.
      * inv_bind H. destruct a as [g2 rng2]. inv_Ok H. left.
        match goal with |- context [_send_osc_state ?e ?gf] =>
          destruct (_send_osc_state_frame e gf) as [l ->] end.
        game_simpl.
        match type of Hrun0 with monsters_take_turns (check_pickup ?gq) _ = _ =>
          destruct (check_pickup_frame gq) as [Ew [Eh [Et [Eph [_ [_ [_ Hpl]]]]]]] end.
        apply Hmtt in Hrun0; try assumption; [| eapply Hpl; reflexivity].
        rewrite Hrun0, Eph. reflexivity.
      * left. apply new_level_spec in H. rewrite (gen_phase _ _ _ H). reflexivity.
  - left. unfold wait_turn in H. inv_bind H. destruct a as [g2 rng2]. inv_Ok H.
    match goal with |- context [_send_osc_state ?e ?gf] =>
      destruct (_send_osc_state_frame e gf) as [l ->] end.
    game_simpl. apply Hmtt in Hrun; try reflexivity; [| exists p; exact Ep].
    rewrite Hrun. reflexivity.
Qed.

Lemma steps_reachable (g g' : Game) : steps g g' -> reachable g -> reachable g'.
Proof.
  induction 1 as [g | fuel c g rng g1 rng1 g2 Hstep _ IH]; intros Hr.
  - exact Hr.
  - apply IH. eapply reachable_step; eauto.
Qed.

(** The blow that takes a monster named Nezha to hit points <= 0 advances
    the phase, whatever the AI pass after it does. *)
Lemma apply_command_nezha_kill (fuel : nat) (c : Command) (g : Game) (rng : Rng)
      (g' : Game) (rng' : Rng) (p : Entity) (dx dy : Z) (i : nat) (target : Entity)
      (dmg : Z) (rng1 : Rng) :
  game_inv g -> apply_command fuel c g rng = Ok (g', rng') ->
  moves c = Some (dx, dy) ->
  player g = Some p ->
  get_monster_at g (e_x p + dx) (e_y p + dy) = Some (i, target) ->
  player_attack_damage g rng = Ok (dmg, rng1) ->
  e_name target = "Nezha" ->
  e_hp target - dmg <= 0 ->
  nezha_phase g' = Z.min (nezha_phase g + 1) 3.
Proof.
  intros Hinv H Hc Ep Em Hd Hname Hdead.
  assert (Hb : in_bounds g (e_x p + dx) (e_y p + dy) = true).
  { destruct (inv_player _ Hinv) as [q [Eq [[Hx Hy] _]]].
    rewrite Ep in Eq. injection Eq as <-.
    apply in_bounds_true. destruct c; cbn in Hc; inversion Hc; subst; lia. }
  unfold apply_command in H. rewrite Hc in H.
  unfold move_player in H. rewrite Ep in H. cbv zeta in H.
  rewrite Hb, Em, Hd in H. cbn [negb bind e_hp e_name] in H.
  unfold is_nezha in H. cbn [e_name] in H. rewrite Hname in H.
  rewrite (proj2 (Z.leb_le _ _) Hdead) in H.
  change (String.eqb "Nezha" "Nezha") with true in H. cbv iota in H.
  inv_bind H. destruct a as [g2 rng2]. inv_Ok H.
  match goal with |- context [_send_osc_state ?e ?gf] =>
    destruct (_send_osc_state_frame e gf) as [l ->] end.
  game_simpl.
  match type of Hrun with monsters_take_turns (_osc_send ?a ?b ?gq) _ = _ =>
    destruct (_osc_send_frame a b gq) as [l2 Hl2]; rewrite Hl2 in Hrun end.
  match type of Hrun with monsters_take_turns ?gq ?rq = _ =>
    destruct (monsters_take_turns_spec gq rq p) as [g3 [r3 [Hrun3 [Hf _]]]] end.
  - exact Ep.
  - exact (inv_grid _ Hinv).
  - rewrite Hrun3 in Hrun. inv_Ok Hrun. rewrite (aif_phase _ _ Hf). reflexivity.
Qed.

Lemma run_f_hit_reachable : reachable (game_of run_f_hit).
Proof.
  apply (reachable_step 10 right (game_of (then_do right run_f))
           (rng_of (then_do right run_f)) (game_of run_f_hit) (rng_of run_f_hit)).
  - apply (reachable_step 10 right (game_of run_f) (rng_of run_f)
             (game_of (then_do right run_f)) (rng_of (then_do right run_f))).
    + apply (reachable_new 10 5 5 1 0 run_f_rng (game_of run_f) (rng_of run_f)).
      vm_compute. reflexivity.
    + vm_compute. reflexivity.
  - vm_compute. reflexivity.
Qed.

(** C4.  The boss-phase counter is 0 in a new game and stays within 0..3.
    Whenever the player's blow takes a monster named Nezha to hit points <= 0
    the action leaves the counter at [min (phase + 1) 3]; a dispatched action
    changes it in no other case.  The Level Generator leaves it alone and
    spawns a boss exactly when the new level is >= 2 and the phase is below
    3, one boss with [8 + phase * 5] hit points.  Once the phase is 3 it stays
    3 and no generation spawns a boss. *)
Theorem boss_phase_machine :
  (forall fuel w h nm ni rng g rng',
      new_game fuel w h nm ni rng = Ok (g, rng') -> nezha_phase g = 0)
  /\ (forall g, reachable g -> 0 <= nezha_phase g <= 3)
  /\ (forall fuel c g rng g' rng',
         reachable g -> apply_command fuel c g rng = Ok (g', rng') ->
         (forall p dx dy i target dmg rng1,
             moves c = Some (dx, dy) ->
             player g = Some p ->
             get_monster_at g (e_x p + dx) (e_y p + dy) = Some (i, target) ->
             player_attack_damage g rng = Ok (dmg, rng1) ->
             e_name target = "Nezha" ->
             e_hp target - dmg <= 0 ->
             nezha_phase g' = Z.min (nezha_phase g + 1) 3)
         /\ (nezha_phase g' = nezha_phase g
             \/ exists p dx dy i target dmg rng1,
                 moves c = Some (dx, dy)
                 /\ player g = Some p
                 /\ get_monster_at g (e_x p + dx) (e_y p + dy) = Some (i, target)
                 /\ player_attack_damage g rng = Ok (dmg, rng1)
                 /\ e_name target = "Nezha"
                 /\ e_hp target - dmg <= 0
                 /\ nezha_phase g' = Z.min (nezha_phase g + 1) 3))
  /\ (forall fuel first g rng g' rng',
         new_level fuel first g rng = Ok (g', rng') ->
         nezha_phase g' = nezha_phase g
         /\ (((2 <=? level g') && (nezha_phase g <? 3) = true
              /\ exists nx ny,
                  filter is_nezha (monsters g')
                  = [mkEntity nx ny "N" "Nezha" (8 + nezha_phase g * 5)])
             \/ ((2 <=? level g') && (nezha_phase g <? 3) = false
                 /\ filter is_nezha (monsters g') = [])))
  /\ (forall g g',
         reachable g -> nezha_phase g = 3 -> steps g g' ->
         nezha_phase g' = 3
         /\ forall fuel first rng g'' rng'',
             new_level fuel first g' rng = Ok (g'', rng'') ->
             filter is_nezha (monsters g'') = []).
Proof.
  split; [| split; [| split; [| split]]].
  - intros fuel w h nm ni rng g rng' H. unfold new_game in H.
    inv_bind H. destruct a as [g1 rng1]. inv_Ok H.
    destruct (_send_osc_state_frame "game_start" g1) as [l ->]. game_simpl.
    apply new_level_spec in Hrun. rewrite (gen_phase _ _ _ Hrun). reflexivity.
  - intros g Hr. apply (inv_phase _ (reachable_inv g Hr)).
  - intros fuel c g rng g' rng' Hr H. split.
    + intros p dx dy i target dmg rng1 Hc Hp Hm Hd Hn Hk.
      exact (apply_command_nezha_kill fuel c g rng g' rng' p dx dy i target dmg rng1
               (reachable_inv g Hr) H Hc Hp Hm Hd Hn Hk).
    + eapply apply_command_phase; [apply reachable_inv; exact Hr | exact H].
  - intros fuel first g rng g' rng' H. eapply new_level_boss; exact H.
  - intros g g' Hr H3 Hsteps.
    assert (Hstay : nezha_phase g' = 3).
    { induction Hsteps as [g | fuel c g rng g1 rng1 g2 Hstep _ IH]; [exact H3 |].
      apply IH.
      - eapply reachable_step; eauto.
      - destruct (apply_command_phase fuel c g rng g1 rng1 (reachable_inv g Hr) Hstep)
          as [E | (p & dx & dy & i & tg & dmg & r1 & _ & _ & _ & _ & _ & _ & E)]; lia. }
    split; [exact Hstay |].
    intros fuel first rng g'' rng'' H.
    destruct (new_level_boss _ _ _ _ _ _ H) as [_ [[Hc _] | [_ Hnone]]];
      [| exact Hnone].
    rewrite Hstay in Hc. rewrite andb_true_iff in Hc. destruct Hc as [_ Hc].
    discriminate.
Qed.

Lemma boss_phase_machine_witness :
  nezha_phase (game_of run_a) = 0
  /\ 0 <= nezha_phase (game_of run_a_attack) <= 3
  /\ nezha_phase (game_of run_a_attack) = nezha_phase (game_of run_a)
  /\ filter is_nezha (monsters (game_of run_d_descended))
     = [mkEntity 3 2 "N" "Nezha" 8]
  /\ nezha_phase (game_of run_f_kill)
     = Z.min (nezha_phase (game_of run_f_hit) + 1) 3.
Proof.
  destruct boss_phase_machine as [H0 [Hrange [Hstep [Hgen _]]]].
  split; [| split; [| split; [| split]]].
  - apply (H0 10%nat 5 5 1 0 run_a_rng (game_of run_a) (rng_of run_a)).
    vm_compute. reflexivity.
  - apply Hrange. exact run_a_attack_reachable.
  - destruct (Hstep 10%nat right (game_of run_a) (rng_of run_a)
                (game_of run_a_attack) (rng_of run_a_attack) run_a_reachable)
      as [_ [E | (p & dx & dy & i & tg & dmg & r1 & _ & _ & _ & _ & _ & _ & E)]].
    + vm_compute. reflexivity.
    + exact E.
    + vm_compute. reflexivity.
  - destruct (Hgen 10%nat false
                (add_message (game_of run_d) "You step onto the stairwell and descend.")
                (rng_of run_d)
                (game_of run_d_descended) (rng_of run_d_descended))
      as [_ [[_ [nx [ny E]]] | [Hc _]]].
    + vm_compute. reflexivity.
    + vm_compute. reflexivity.
    + vm_compute in Hc. discriminate.
  - destruct (Hstep 10%nat right (game_of run_f_hit) (rng_of run_f_hit)
                (game_of run_f_kill) (rng_of run_f_kill) run_f_hit_reachable)
      as [Hkill _].
    + vm_compute. reflexivity.
    + apply (Hkill (mkEntity 2 2 "@" "Player" 10) 1 0 1%nat
               (mkEntity 3 2 "N" "Nezha" 4) 4
               (mkRng (src (rng_of run_f_hit)) (S (cur (rng_of run_f_hit))))).
      * vm_compute. reflexivity.
      * vm_compute. reflexivity.
      * vm_compute. reflexivity.
      * vm_compute. reflexivity.
      * vm_compute. reflexivity.
      * vm_compute. discriminate.
Defined.

(** ** Descending *)

Lemma generated_after_message (g g' : Game) (s : string) :
  generated false (add_message g s) g' -> generated false g g'.
Proof.
  intros []. game_simpl. constructor; assumption.
Qed.

(** C7 (as the code has it).  When the destination of a dispatched move is a
    [STAIRS_DOWN] tile on which no living monster stands, and the action
    returns, the level counter has increased by exactly 1, the grid, the
    monsters and the items are those of a fresh run of the Level Generator,
    the player is the same entity with hit points, inventory and equipped
    weapon unchanged at a newly sampled cell, and the scheduler's counter is
    unchanged. *)
Theorem descend_on_free_stairs
        (fuel : nat) (c : Command) (g : Game) (rng : Rng) (g' : Game) (rng' : Rng)
        (p : Entity) (dx dy : Z)
        (Hr : reachable g)
        (Hc : moves c = Some (dx, dy))
        (Hp : player g = Some p)
        (Hstairs : get_tile (tiles g) (e_x p + dx) (e_y p + dy) = Ok STAIRS_DOWN)
        (Hfree : get_monster_at g (e_x p + dx) (e_y p + dy) = None)
        (Hrun : apply_command fuel c g rng = Ok (g', rng')) :
  level g' = level g + 1
  /\ _monster_turn_counter g' = _monster_turn_counter g
  /\ inventory g' = inventory g
  /\ current_weapon g' = current_weapon g
  /\ (exists px py,
         player g' = Some (mkEntity px py (e_char p) (e_name p) (e_hp p))
         /\ interior (width g) (height g) px py)
  /\ new_level fuel false
       (add_message g "You step onto the stairwell and descend.") rng = Ok (g', rng')
  /\ generated false g g'
  /\ count_tile STAIRS_DOWN (tiles g') = 1%nat
  /\ Forall (fun m => e_hp m = 3 + Z.max 0 (level g' - 1)
                      \/ (e_name m = "Nezha" /\ e_hp m = 8 + nezha_phase g * 5))
            (monsters g')
  /\ List.length (items g') = Z.to_nat (num_items g).
Proof.
  pose proof (reachable_inv g Hr) as Hinv.
  destruct (inv_player _ Hinv) as [q [Eq [[Hx Hy] _]]].
  rewrite Hp in Eq. inv_Ok Eq.
  unfold apply_command in Hrun. rewrite Hc in Hrun.
  unfold move_player in Hrun. rewrite Hp in Hrun. cbv zeta in Hrun.
  assert (Hb : in_bounds g (e_x q + dx) (e_y q + dy) = true).
  { apply in_bounds_true. destruct c; cbn in Hc; inversion Hc; subst; lia. }
  rewrite Hb, Hfree, Hstairs in Hrun. cbn [negb bind] in Hrun.
  pose proof (new_level_spec _ _ _ _ _ _ Hrun) as Hgen.
  apply generated_after_message in Hgen.
  destruct (gen_grid _ _ _ Hgen)
    as [t [px [py [sx [sy [Hcarved [Hpint [_ [Hsint [Hsfl [_ [Hset Hpl]]]]]]]]]]]].
  destruct (stairs_placed _ _ _ _ _ _ Hcarved Hsint Hsfl Hset) as [_ [Hcnt _]].
  split; [apply (gen_level _ _ _ Hgen) |].
  split; [apply (gen_counter _ _ _ Hgen) |].
  split; [apply (gen_inventory _ _ _ Hgen) |].
  split; [apply (gen_weapon _ _ _ Hgen) |].
  split.
  { exists px, py. split; [| exact Hpint].
    rewrite Hpl, Hp. reflexivity. }
  split; [exact Hrun |]. split; [exact Hgen |]. split; [exact Hcnt |].
  split; [| apply (gen_items _ _ _ Hgen)].
  destruct (gen_monsters _ _ _ Hgen) as [ms [nz [Em [_ [Hgob Hnz]]]]].
  rewrite Em. apply Forall_app. split.
  - eapply Forall_impl; [| exact Hgob]. intros m [_ [_ [Hhp _]]]. left; exact Hhp.
  - destruct Hnz as [[_ [nx [ny [_ ->]]]] | [_ ->]]; [| constructor].
    constructor; [| constructor]. right. split; reflexivity.
Qed.

Lemma descend_on_free_stairs_witness :
  level (game_of run_d_descended) = level (game_of run_d) + 1
  /\ _monster_turn_counter (game_of run_d_descended)
     = _monster_turn_counter (game_of run_d).
Proof.
  destruct (descend_on_free_stairs 10 right (game_of run_d) (rng_of run_d)
              (game_of run_d_descended) (rng_of run_d_descended)
              (mkEntity 1 2 "@" "Player" 10) 1 0) as [Hl [Hc _]].
  - exact run_d_reachable.
  - reflexivity.
  - vm_compute. reflexivity.
  - vm_compute. reflexivity.
  - vm_compute. reflexivity.
  - vm_compute. reflexivity.
  - split; [exact Hl | exact Hc].
Defined.

(** C7 as stated fails in run B: after two waits the goblin stands on the
    stairs next to the player; the move onto that [STAIRS_DOWN] cell is an
    attack, the level stays 1, nothing is regenerated and the scheduler is
    invoked (its counter goes from 2 to 3). *)
Lemma monster_on_stairs_blocks_descent :
  reachable (game_of run_b_waited)
  /\ player (game_of run_b_waited) = Some (mkEntity 1 2 "@" "Player" 10)
  /\ moves right = Some (1, 0)
  /\ get_tile (tiles (game_of run_b_waited)) (1 + 1) (2 + 0) = Ok STAIRS_DOWN
  /\ apply_command 10 right (game_of run_b_waited) (rng_of run_b_waited)
     = Ok (game_of run_b_attack, rng_of run_b_attack)
  /\ level (game_of run_b_attack) = level (game_of run_b_waited)
  /\ level (game_of run_b_attack) <> level (game_of run_b_waited) + 1
  /\ _monster_turn_counter (game_of run_b_attack)
     = _monster_turn_counter (game_of run_b_waited) + 1
  /\ tiles (game_of run_b_attack) = tiles (game_of run_b_waited)
  /\ monsters (game_of run_b_waited) = [mkEntity 2 2 "g" "Goblin" 3]
  /\ monsters (game_of run_b_attack) = [mkEntity 2 2 "g" "Goblin" (-1)].
Proof.
  split; [exact run_b_waited_reachable |].
  split; [vm_compute; reflexivity |].
  split; [reflexivity |].
  split; [vm_compute; reflexivity |].
  split; [vm_compute; reflexivity |].
  split; [vm_compute; reflexivity |].
  split; [vm_compute; discriminate |].
  split; [vm_compute; reflexivity |].
  split; [vm_compute; reflexivity |].
  split; vm_compute; reflexivity.
Qed.

(** ** The unbounded floor search *)

Lemma find_random_floor_no_raise (fuel : nat) (g : Game) :
  grid_ok (width g) (height g) (tiles g) -> 3 <= width g -> 3 <= height g ->
  forall rng,
    find_random_floor fuel g rng = Timeout
    \/ exists x y rng', find_random_floor fuel g rng = Ok (x, y, rng').
Proof.
  intros Hg Hw Hh. induction fuel as [| f IH]; intros rng; [left; reflexivity |].
  cbn [find_random_floor].
  rewrite random_randint_total by lia. cbn [bind].
  rewrite random_randint_total by lia. cbn [bind].
  set (x := 1 + Z.of_nat (src rng (cur rng)) mod (width g - 2 - 1 + 1)).
  set (rng1 := mkRng (src rng) (S (cur rng))).
  set (y := 1 + Z.of_nat (src rng1 (cur rng1)) mod (height g - 2 - 1 + 1)).
  assert (Hx : 1 <= x <= width g - 2).
  { unfold x. pose proof (Z.mod_pos_bound (Z.of_nat (src rng (cur rng)))
                            (width g - 2 - 1 + 1) ltac:(lia)). lia. }
  assert (Hy : 1 <= y <= height g - 2).
  { unfold y. pose proof (Z.mod_pos_bound (Z.of_nat (src rng1 (cur rng1)))
                            (height g - 2 - 1 + 1) ltac:(lia)). lia. }
  destruct (get_tile_in_bounds _ _ _ x y Hg) as [v Hv]; try lia.
  rewrite Hv. cbn [bind].
  destruct (Tile_eqb v FLOOR && is_none (get_entity_at g x y)
            && is_none (get_item_at g x y)).
  - right. do 3 eexists. reflexivity.
  - apply IH.
Qed.

Lemma find_random_floor_hits (g : Game) (x y : Z) :
  grid_ok (width g) (height g) (tiles g) -> eligible g x y ->
  forall k rng,
    1 + Z.of_nat (src rng (cur rng + 2 * k)) mod (width g - 2 - 1 + 1) = x ->
    1 + Z.of_nat (src rng (cur rng + 2 * k + 1)) mod (height g - 2 - 1 + 1) = y ->
    exists x' y' rng', find_random_floor (S k) g rng = Ok (x', y', rng').
Proof.
  intros Hg [[Hx Hy] [Hfl [Hent Hit]]].
  induction k as [| k IH]; intros rng Ex Ey.
  - cbn [find_random_floor].
    rewrite random_randint_total by lia. cbn [bind].
    rewrite random_randint_total by lia. cbn [bind src cur].
    replace (cur rng + 2 * 0)%nat with (cur rng) in Ex by lia.
    replace (cur rng + 2 * 0 + 1)%nat with (S (cur rng)) in Ey by lia.
    rewrite Ex, Ey, Hfl. cbn [bind]. rewrite Hent, Hit. cbn.
    do 3 eexists. reflexivity.
  - remember (S k) as k1 eqn:Ek1. cbn [find_random_floor].
    rewrite random_randint_total by lia. cbn [bind].
    rewrite random_randint_total by lia. cbn [bind src cur].
    set (x1 := 1 + Z.of_nat (src rng (cur rng)) mod (width g - 2 - 1 + 1)).
    set (y1 := 1 + Z.of_nat (src rng (S (cur rng))) mod (height g - 2 - 1 + 1)).
    assert (Hx1 : 1 <= x1 <= width g - 2).
    { unfold x1. pose proof (Z.mod_pos_bound (Z.of_nat (src rng (cur rng)))
                               (width g - 2 - 1 + 1) ltac:(lia)). lia. }
    assert (Hy1 : 1 <= y1 <= height g - 2).
    { unfold y1. pose proof (Z.mod_pos_bound (Z.of_nat (src rng (S (cur rng))))
                               (height g - 2 - 1 + 1) ltac:(lia)). lia. }
    destruct (get_tile_in_bounds _ _ _ x1 y1 Hg) as [v Hv]; try lia.
    rewrite Hv. cbn [bind].
    destruct (Tile_eqb v FLOOR && is_none (get_entity_at g x1 y1)
              && is_none (get_item_at g x1 y1)).
    + do 3 eexists. reflexivity.
    + subst k1. apply IH; cbn [src cur].
      * replace (S (S (cur rng)) + 2 * k)%nat with (cur rng + 2 * S k)%nat by lia.
        exact Ex.
      * replace (S (S (cur rng)) + 2 * k + 1)%nat with (cur rng + 2 * S k + 1)%nat
          by lia.
        exact Ey.
Qed.

Lemma row_cells_complete (j : nat) (row : list Tile) :
  forall i k, nth_error row k = Some FLOOR -> In ((i + k)%nat, j) (row_cells j i row).
Proof.
  induction row as [| c r IH]; intros i [| k] H; try discriminate.
  - cbn in H. inv_Ok H. cbn. left. f_equal. lia.
  - cbn [nth_error] in H. cbn [row_cells]. apply in_or_app. right.
    replace (i + S k)%nat with (S i + k)%nat by lia. apply IH; exact H.
Qed.

Lemma grid_cells_complete (t : list (list Tile)) :
  forall j k row i,
    nth_error t k = Some row -> nth_error row i = Some FLOOR ->
    In (i, (j + k)%nat) (grid_cells j t).
Proof.
  induction t as [| r rest IH]; intros j [| k] row i Hr Hi; try discriminate.
  - cbn in Hr. inv_Ok Hr. cbn [grid_cells]. apply in_or_app. left.
    rewrite Nat.add_0_r. apply (row_cells_complete j row 0%nat i Hi).
  - cbn [nth_error] in Hr. cbn [grid_cells]. apply in_or_app. right.
    replace (j + S k)%nat with (S j + k)%nat by lia. eapply IH; eauto.
Qed.

Lemma starved_floor (x y : Z) :
  0 <= x -> 0 <= y -> get_tile starved_tiles x y = Ok FLOOR ->
  y = 10 /\ (x = 20 \/ x = 21).
Proof.
  intros Hx Hy H. apply get_tile_nonneg in H; try assumption.
  destruct H as [row [Hr Hc]].
  pose proof (grid_cells_complete starved_tiles 0%nat _ _ _ Hr Hc) as Hin.
  cbn [Nat.add] in Hin.
  replace (grid_cells 0 starved_tiles) with [(20%nat, 10%nat); (21%nat, 10%nat)] in Hin
    by (vm_compute; reflexivity).
  destruct Hin as [E | [E | []]]; inversion E; lia.
Qed.

Lemma starved_carve (rest : nat -> nat) :
  carve (Z.to_nat (40 * 20 * 4)) 40 20 (blank_tiles 40 20) (40 / 2) (20 / 2)
        (mkRng (starved_src rest) 0)
  = Ok (starved_tiles, mkRng (starved_src rest) 3200).
Proof. vm_compute. reflexivity. Qed.

Lemma starved_grid_ok : grid_ok 40 20 starved_tiles.
Proof. split; [reflexivity |]. vm_compute. repeat constructor. Qed.

Lemma starved_never_returns (rest : nat -> nat) (fuel : nat) :
  new_game fuel 40 20 8 6 (mkRng (starved_src rest) 0) = Timeout.
Proof.
  unfold new_game, new_level. cbv zeta.
  cbn [fresh width height num_monsters num_items tiles set_tiles player].
  rewrite starved_carve. cbn [bind].
  match goal with |- context [find_random_floor fuel ?g ?r] =>
    set (g1 := g);
    destruct (find_random_floor_no_raise fuel g1 starved_grid_ok ltac:(cbn; lia)
                ltac:(cbn; lia) r) as [-> | [px [py [rng2 Hp]]]]
  end; [reflexivity |].
  rewrite Hp. cbn [bind].
  apply find_random_floor_spec in Hp. destruct Hp as [[Hpx Hpy] [Hpf _]].
  apply starved_floor in Hpf; try lia.
  change (Z.to_nat (num_monsters _)) with 8%nat.
  cbn [spawn_monsters].
  match goal with |- context [find_random_floor fuel ?g ?r] =>
    set (g2 := g);
    destruct (find_random_floor_no_raise fuel g2 starved_grid_ok ltac:(cbn; lia)
                ltac:(cbn; lia) r) as [-> | [mx [my [rng3 Hm]]]]
  end; [reflexivity |].
  rewrite Hm. cbn [bind].
  apply find_random_floor_spec in Hm. destruct Hm as [[Hmx Hmy] [Hmf [Hme _]]].
  apply starved_floor in Hmf; try lia.
  match goal with |- context [find_random_floor fuel ?g ?r] =>
    set (g3 := g);
    destruct (find_random_floor_no_raise fuel g3 starved_grid_ok ltac:(cbn; lia)
                ltac:(cbn; lia) r) as [-> | [nx [ny [rng4 Hn]]]]
  end; [reflexivity |].
  exfalso.
  apply find_random_floor_spec in Hn. destruct Hn as [[Hnx Hny] [Hnf [Hne _]]].
  apply starved_floor in Hnf; try lia.
  destruct Hpf as [-> [-> | ->]]; destruct Hmf as [-> [-> | ->]];
    destruct Hnf as [-> [-> | ->]];
    vm_compute in Hme; vm_compute in Hne; discriminate.
Qed.

(** C8.  The floor search has no retry bound, so generation is not total.
    On the default 40 x 20 game with 8 monsters and 6 items, when the walk's
    draws alternate right and left only two cells are carved, and whatever
    the later draws are the construction of the game never returns: within
    any number of samples the search is still looping.  The search returns
    only cells that are in-bounds floor free of entities and items, so it can
    return only if such a cell exists; with none it loops for every random
    source; and with one it returns as soon as the source draws it. *)
Theorem floor_search_has_no_bound :
  (forall rest,
      carve (Z.to_nat (40 * 20 * 4)) 40 20 (blank_tiles 40 20) (40 / 2) (20 / 2)
            (mkRng (starved_src rest) 0)
      = Ok (starved_tiles, mkRng (starved_src rest) 3200)
      /\ grid_cells 0 starved_tiles = [(20%nat, 10%nat); (21%nat, 10%nat)]
      /\ forall fuel, new_game fuel 40 20 8 6 (mkRng (starved_src rest) 0) = Timeout)
  /\ (forall fuel g rng x y rng',
         find_random_floor fuel g rng = Ok (x, y, rng') -> eligible g x y)
  /\ (forall g,
         grid_ok (width g) (height g) (tiles g) -> 3 <= width g -> 3 <= height g ->
         (forall x y, ~ eligible g x y) ->
         forall fuel rng, find_random_floor fuel g rng = Timeout)
  /\ (forall g x y k rng,
         grid_ok (width g) (height g) (tiles g) -> eligible g x y ->
         1 + Z.of_nat (src rng (cur rng + 2 * k)) mod (width g - 2 - 1 + 1) = x ->
         1 + Z.of_nat (src rng (cur rng + 2 * k + 1)) mod (height g - 2 - 1 + 1) = y ->
         exists x' y' rng', find_random_floor (S k) g rng = Ok (x', y', rng')).
Proof.
  split; [| split; [| split]].
  - intros rest. split; [apply starved_carve |].
    split; [vm_compute; reflexivity |].
    intros fuel. apply starved_never_returns.
  - intros fuel g rng x y rng' H. apply find_random_floor_spec in H.
    unfold eligible. tauto.
  - intros g Hg Hw Hh Hnone fuel rng.
    destruct (find_random_floor_no_raise fuel g Hg Hw Hh rng)
      as [E | [x [y [rng' E]]]]; [exact E |].
    exfalso. apply (Hnone x y). apply find_random_floor_spec in E.
    unfold eligible. tauto.
  - intros g x y k rng Hg Hel Ex Ey. eapply find_random_floor_hits; eauto.
Qed.

Lemma floor_search_has_no_bound_witness :
  eligible (game_of run_d) 2 3
  /\ exists x' y' rng',
      find_random_floor 1 (game_of run_d) (mkRng S 0) = Ok (x', y', rng').
Proof.
  assert (Hel : eligible (game_of run_d) 2 3).
  { split; [| split; [| split]].
    - vm_compute. intuition discriminate.
    - vm_compute. reflexivity.
    - vm_compute. reflexivity.
    - vm_compute. reflexivity. }
  split; [exact Hel |].
  destruct floor_search_has_no_bound as [_ [Honly [_ Hhit]]].
  apply (Hhit (game_of run_d) 2 3 0%nat (mkRng S 0)).
  - split; [vm_compute; reflexivity | vm_compute; repeat constructor].
  - apply (Honly 1%nat (game_of run_d) (mkRng S 0) 2 3 (mkRng S 2)).
    vm_compute. reflexivity.
  - vm_compute. reflexivity.
  - vm_compute. reflexivity.
Defined.

(** * Further properties of the code *)

(** ** Telemetry Encoder *)

Lemma byte_of_Z_to_N (z : Z) : Z.of_N (Byte.to_N (byte_of_Z z)) = z mod 256.
Proof.
  unfold byte_of_Z.
  pose proof (Z.mod_pos_bound z 256 ltac:(lia)) as Hb.
  destruct (Byte.of_N (Z.to_N (z mod 256))) as [b |] eqn:E.
  - apply Byte.to_of_N in E. rewrite E. lia.
  - apply Byte.of_N_None_iff in E. lia.
Qed.

(** X1.  An in-range integer is packed as its big-endian two's-complement
    image: reading the four bytes back as a signed integer gives the integer
    again; outside the signed 32-bit range packing fails. *)
Theorem pack_be_i32_round_trip (a : Z) :
  (- 2147483648 <= a < 2147483648 ->
   exists bs, pack_be_i32 a = Some bs /\ List.length bs = 4%nat
              /\ be_signed bs = Some a)
  /\ (~ (- 2147483648 <= a < 2147483648) -> pack_be_i32 a = None).
Proof.
  unfold pack_be_i32. split.
  - intros [Hlo Hhi].
    destruct (Z.leb_spec (-2147483648) a) as [_ | ?]; [| lia].
    destruct (Z.ltb_spec a 2147483648) as [_ | ?]; [| lia].
    cbn [andb]. eexists. split; [reflexivity |]. split; [reflexivity |].
    unfold be_signed. rewrite !byte_of_Z_to_N. f_equal.
    set (u := a mod 4294967296).
    assert (Hu : 0 <= u < 4294967296) by (apply Z.mod_pos_bound; lia).
    assert (Ea : a = u \/ a = u - 4294967296).
    { unfold u. pose proof (Z.div_mod a 4294967296 ltac:(lia)) as Hd.
      assert (a / 4294967296 = 0 \/ a / 4294967296 = -1) by
        (pose proof (Z.mod_pos_bound a 4294967296 ltac:(lia)); nia).
      lia. }
    assert (Ed : (u / 16777216) mod 256 * 16777216 + (u / 65536) mod 256 * 65536
                 + (u / 256) mod 256 * 256 + u mod 256 = u).
    { clearbody u. clear Ea. Z.div_mod_to_equations. lia. }
    rewrite Ed.
    destruct (Z.ltb_spec u 2147483648); lia.
  - intros Hout.
    destruct (Z.leb_spec (-2147483648) a); destruct (Z.ltb_spec a 2147483648);
      cbn [andb]; try reflexivity. lia.
Qed.

Lemma pack_be_i32_round_trip_witness :
  exists bs, pack_be_i32 (-2) = Some bs /\ List.length bs = 4%nat
             /\ be_signed bs = Some (-2).
Proof.
  apply (proj1 (pack_be_i32_round_trip (-2))). lia.
Defined.

Lemma until_nul_app (bs rest : list byte) :
  (forall c, In c bs -> c <> x00) ->
  until_nul (bs ++ x00 :: rest) = bs.
Proof.
  induction bs as [| b t IH]; intros H; cbn [app until_nul].
  - reflexivity.
  - destruct (Byte.eqb b x00) eqn:E.
    + apply Byte.byte_dec_bl in E. exfalso. apply (H b); [left; reflexivity | exact E].
    + f_equal. apply IH. intros c Hc. apply H. right; exact Hc.
Qed.

(** X2.  A packed string reads back: for a string without zero byte, the
    bytes of the packed block up to its first zero are the bytes of the
    string. *)
Theorem osc_pack_string_round_trip (s : string)
        (Hnul : forall c, In c (list_byte_of_string s) -> c <> x00) :
  until_nul (_osc_pack_string s) = list_byte_of_string s.
Proof.
  unfold _osc_pack_string.
  destruct (pad_loop_spec (list_byte_of_string s ++ [x00])) as [k [_ [-> _]]].
  rewrite <- app_assoc. cbn [app]. apply until_nul_app. exact Hnul.
Qed.

Lemma osc_pack_string_round_trip_witness :
  until_nul (_osc_pack_string "/monsters") = list_byte_of_string "/monsters".
Proof.
  apply (osc_pack_string_round_trip "/monsters").
  intros c Hc. vm_compute in Hc.
  repeat (destruct Hc as [<- | Hc]; [discriminate |]). destruct Hc.
Defined.





(** ** Telemetry emission is write-only *)

Lemma _osc_send_appends (a : string) (args : list OscArg) (g : Game) :
  exists l, _osc_send a args g = set_osc_sent g (osc_sent g ++ l)
            /\ (List.length l <= 1)%nat.
Proof.
  unfold _osc_send. destruct (_osc_pack a args) as [pkt |].
  - exists [pkt]. split; [reflexivity | simpl; lia].
  - exists []. split; [rewrite app_nil_r; destruct g; reflexivity | simpl; lia].
Qed.

Lemma _send_osc_state_appends (e : string) (g : Game) :
  exists l,
    _send_osc_state e g = set_osc_sent g (osc_sent g ++ l)
    /\ (List.length l <= 5)%nat
    /\ (player g = None -> l = []).
Proof.
  unfold _send_osc_state. destruct (player g) as [p |].
  2:{ exists []. split; [rewrite app_nil_r; destruct g; reflexivity |].
      split; [simpl; lia | reflexivity]. }
  destruct (_osc_send_appends "/player" [AInt (e_x p); AInt (e_y p); AInt (e_hp p)] g)
    as [l1 [-> H1]].
  cbv zeta.
  match goal with |- context [_osc_send "/level" ?a ?gq] =>
    destruct (_osc_send_appends "/level" a gq) as [l2 [-> H2]] end.
  match goal with |- context [_osc_send "/monsters" ?a ?gq] =>
    destruct (_osc_send_appends "/monsters" a gq) as [l3 [-> H3]] end.
  game_simpl.
  assert (H4 : exists l4,
             (if String.eqb e "" then
                set_osc_sent
                  (set_osc_sent (set_osc_sent g (osc_sent g ++ l1))
                     ((osc_sent g ++ l1) ++ l2))
                  (((osc_sent g ++ l1) ++ l2) ++ l3)
              else
                _osc_send "/event" [AStr e]
                  (set_osc_sent
                     (set_osc_sent (set_osc_sent g (osc_sent g ++ l1))
                        ((osc_sent g ++ l1) ++ l2))
                     (((osc_sent g ++ l1) ++ l2) ++ l3)))
             = set_osc_sent g (osc_sent g ++ l4) /\ (List.length l4 <= 4)%nat).
  { destruct (String.eqb e "").
    - exists (l1 ++ l2 ++ l3). split.
      + rewrite <- !app_assoc. reflexivity.
      + rewrite !length_app. lia.
    - match goal with |- context [_osc_send "/event" ?a ?gq] =>
        destruct (_osc_send_appends "/event" a gq) as [l4 [-> H4]] end.
      game_simpl. exists (l1 ++ l2 ++ l3 ++ l4). split.
      + rewrite <- !app_assoc. reflexivity.
      + rewrite !length_app. lia. }
  destruct H4 as [l4 [-> H4]]. game_simpl.
  destruct (rev (messages g)) as [| last rest].
  - exists l4. split; [reflexivity | split; [lia | discriminate]].
  - match goal with |- context [_osc_send "/message" ?a ?gq] =>
      destruct (_osc_send_appends "/message" a gq) as [l5 [-> H5]] end.
    game_simpl. exists (l4 ++ l5). split.
    + rewrite <- app_assoc. reflexivity.
    + split; [rewrite length_app; lia | discriminate].
Qed.

(** X4.  Emitting a telemetry snapshot changes no field of the game: it only
    appends datagrams to what was sent, at most five, and none at all when
    there is no player. *)
Theorem send_osc_state_only_appends (e : string) (g : Game) :
  exists l,
    _send_osc_state e g = set_osc_sent g (osc_sent g ++ l)
    /\ (List.length l <= 5)%nat
    /\ (player g = None -> l = []).
Proof. apply _send_osc_state_appends. Qed.

Lemma send_osc_state_only_appends_witness :
  exists l,
    _send_osc_state "wait" (fresh 40 20 8 6)
    = set_osc_sent (fresh 40 20 8 6) (osc_sent (fresh 40 20 8 6) ++ l)
    /\ l = [].
Proof.
  destruct (send_osc_state_only_appends "wait" (fresh 40 20 8 6)) as [l [E [_ H]]].
  exists l. split; [exact E | apply H; reflexivity].
Defined.

(** ** Equipment *)

Lemma equip_all_from (ws : list Item) :
  forall g b seen,
    current_weapon g = Some b ->
    Forall (fun w => i_power w <= i_power b) seen ->
    exists b' l1 l2,
      current_weapon (equip_all ws g) = Some b'
      /\ Forall (fun w => i_power w <= i_power b') (seen ++ ws)
      /\ ((b' = b /\ Forall (fun w => i_power w <= i_power b) ws)
          \/ (ws = l1 ++ b' :: l2 /\ i_power b < i_power b'
              /\ Forall (fun w => i_power w < i_power b') l1)).
Proof.
  induction ws as [| w ws IH]; intros g b seen Hb Hseen.
  - exists b, [], []. cbn. rewrite app_nil_r.
    split; [exact Hb |]. split; [exact Hseen |]. left. split; [reflexivity | constructor].
  - cbn [equip_all fold_left]. fold (equip_all ws (auto_equip_weapon w g)).
    unfold auto_equip_weapon at 1. rewrite Hb.
    destruct (Z.ltb_spec (i_power b) (i_power w)) as [Hlt | Hge].
    + destruct (IH (add_message (set_current_weapon g (Some w))
                      ("You wield the " ++ i_name w ++ ".")%string) w (seen ++ [w]))
        as [b' [l1 [l2 [Hc [Hall Hcase]]]]].
      * reflexivity.
      * apply Forall_app. split.
        -- eapply Forall_impl; [| exact Hseen]. cbn. intros a Ha. lia.
        -- constructor; [lia | constructor].
      * rewrite <- app_assoc in Hall. cbn [app] in Hall.
        destruct Hcase as [[-> Hrest] | [-> [Hlt' Hl1]]].
        -- exists w, [], ws. split; [exact Hc |]. split; [exact Hall |].
           right. split; [reflexivity |]. split; [exact Hlt | constructor].
        -- exists b', (w :: l1), l2. split; [exact Hc |]. split; [exact Hall |].
           right. split; [reflexivity |]. split; [lia |].
           constructor; [exact Hlt' | exact Hl1].
    + destruct (IH g b (seen ++ [w]) Hb) as [b' [l1 [l2 [Hc [Hall Hcase]]]]].
      * apply Forall_app. split; [exact Hseen | constructor; [lia | constructor]].
      * rewrite <- app_assoc in Hall. cbn [app] in Hall.
        destruct Hcase as [[-> Hrest] | [-> [Hlt' Hl1]]].
        -- exists b, [], []. split; [exact Hc |]. split; [exact Hall |].
           left. split; [reflexivity | constructor; [lia | exact Hrest]].
        -- exists b', (w :: l1), l2. split; [exact Hc |]. split; [exact Hall |].
           right. split; [reflexivity |]. split; [exact Hlt' |].
           constructor; [lia | exact Hl1].
Qed.

(** X5.  Starting with no weapon equipped and picking up a non-empty run of
    weapons, the weapon equipped at the end is the first one of the run with
    the greatest power: every weapon of the run is at most as strong, and
    every earlier one is strictly weaker.  (Powers 1, 3, 2 leave power 3
    equipped.) *)
Theorem equip_all_first_strongest (w : Item) (ws : list Item) (g : Game)
        (Hnone : current_weapon g = None) :
  exists b l1 l2,
    current_weapon (equip_all (w :: ws) g) = Some b
    /\ w :: ws = l1 ++ b :: l2
    /\ Forall (fun a => i_power a <= i_power b) (w :: ws)
    /\ Forall (fun a => i_power a < i_power b) l1.
Proof.
  cbn [equip_all fold_left]. fold (equip_all ws (auto_equip_weapon w g)).
  unfold auto_equip_weapon at 1. rewrite Hnone.
  destruct (equip_all_from ws
              (add_message (set_current_weapon g (Some w))
                 ("You wield the " ++ i_name w ++ ".")%string) w [w])
    as [b [l1 [l2 [Hc [Hall Hcase]]]]].
  - reflexivity.
  - constructor; [lia | constructor].
  - cbn [app] in Hall. destruct Hcase as [[-> Hrest] | [-> [Hlt Hl1]]].
    + exists w, [], ws. repeat split; try assumption. constructor.
    + exists b, (w :: l1), l2. repeat split; try assumption.
      constructor; [exact Hlt | exact Hl1].
Qed.

Lemma equip_all_first_strongest_witness :
  exists b l1 l2,
    current_weapon
      (equip_all [mkItem 1 1 "/" "Rusty Dagger" weapon 1;
                  mkItem 2 1 ")" "War Axe" weapon 3;
                  mkItem 3 1 "/" "Short Sword" weapon 2] (fresh 40 20 8 6)) = Some b
    /\ [mkItem 1 1 "/" "Rusty Dagger" weapon 1;
        mkItem 2 1 ")" "War Axe" weapon 3;
        mkItem 3 1 "/" "Short Sword" weapon 2] = l1 ++ b :: l2
    /\ Forall (fun a => i_power a <= i_power b)
              [mkItem 1 1 "/" "Rusty Dagger" weapon 1;
               mkItem 2 1 ")" "War Axe" weapon 3;
               mkItem 3 1 "/" "Short Sword" weapon 2]
    /\ Forall (fun a => i_power a < i_power b) l1.
Proof.
  apply (equip_all_first_strongest (mkItem 1 1 "/" "Rusty Dagger" weapon 1)
           [mkItem 2 1 ")" "War Axe" weapon 3; mkItem 3 1 "/" "Short Sword" weapon 2]
           (fresh 40 20 8 6)).
  reflexivity.
Defined.

(** ** Combat rolls and bumps *)

(** X6.  The player's attack roll always succeeds, consumes exactly one
    random draw and lies between [1] and [4] plus the equipped weapon's power
    (0 when unarmed) plus [max(0, level - 1) // 2]. *)
Theorem player_attack_damage_bounds (g : Game) (rng : Rng) :
  exists dmg,
    player_attack_damage g rng = Ok (dmg, mkRng (src rng) (S (cur rng)))
    /\ let bonus := match current_weapon g with Some w => i_power w | None => 0 end in
       1 + bonus + Z.max 0 (level g - 1) / 2 <= dmg
       <= 4 + bonus + Z.max 0 (level g - 1) / 2.
Proof.
  unfold player_attack_damage. rewrite random_randint_total by lia. cbn [bind].
  eexists. split; [reflexivity |]. cbv zeta.
  pose proof (Z.mod_pos_bound (Z.of_nat (src rng (cur rng))) (4 - 1 + 1) ltac:(lia)).
  lia.
Qed.

(** X7.  Bumping into the grid edge or into a wall costs nothing: the move
    returns with only a message logged and telemetry sent; the player, the
    monsters, the items, the level, the scheduler counter and the random
    source are untouched, so no monster acts. *)
Theorem bump_costs_nothing
        (fuel : nat) (dx dy : Z) (g : Game) (rng : Rng) (p : Entity)
        (Hp : player g = Some p)
        (Hbump : in_bounds g (e_x p + dx) (e_y p + dy) = false
                 \/ (get_monster_at g (e_x p + dx) (e_y p + dy) = None
                     /\ get_tile (tiles g) (e_x p + dx) (e_y p + dy) = Ok WALL)) :
  exists msg sent,
    move_player fuel dx dy g rng
    = Ok (set_osc_sent (set_messages g (messages g ++ [msg])) (osc_sent g ++ sent), rng)
    /\ (msg = "You bump into the edge of the concrete grid."
        \/ msg = "Your shoulder hits raw concrete.").
Proof.
  unfold move_player. rewrite Hp. cbv zeta.
  destruct (in_bounds g (e_x p + dx) (e_y p + dy)) eqn:Eb; cbn [negb].
  - destruct Hbump as [? | [Hm Ht]]; [discriminate |].
    rewrite Hm, Ht. cbn [bind].
    match goal with |- context [_send_osc_state ?e ?gq] =>
      destruct (_send_osc_state_appends e gq) as [l [-> _]] end.
    exists "Your shoulder hits raw concrete.", l. split; [reflexivity | right; reflexivity].
  - match goal with |- context [_send_osc_state ?e ?gq] =>
      destruct (_send_osc_state_appends e gq) as [l [-> _]] end.
    exists "You bump into the edge of the concrete grid.", l.
    split; [reflexivity | left; reflexivity].
Qed.

Lemma bump_costs_nothing_witness :
  exists msg sent,
    move_player 10 0 (-1) (game_of run_a) (rng_of run_a)
    = Ok (set_osc_sent
            (set_messages (game_of run_a) (messages (game_of run_a) ++ [msg]))
            (osc_sent (game_of run_a) ++ sent), rng_of run_a)
    /\ (msg = "You bump into the edge of the concrete grid."
        \/ msg = "Your shoulder hits raw concrete.").
Proof.
  apply (bump_costs_nothing 10 0 (-1) (game_of run_a) (rng_of run_a)
           (mkEntity 2 2 "@" "Player" 10)).
  - vm_compute. reflexivity.
  - right. split; vm_compute; reflexivity.
Defined.

(** ** The logs only grow *)

Ltac solve_ext :=
  first [ exists []; rewrite app_nil_r; reflexivity
        | eexists; rewrite <- ?app_assoc; reflexivity ].

Ltac send_to_append :=
  repeat match goal with
         | |- context [_send_osc_state ?e ?gq] =>
             let l := fresh "l" in
             destruct (_send_osc_state_appends e gq) as [l [-> _]]
         | |- context [_osc_send ?a ?b ?gq] =>
             let l := fresh "l" in
             destruct (_osc_send_appends a b gq) as [l [-> _]]
         end.

Lemma log_ext_refl (g : Game) : log_ext g g.
Proof. split; solve_ext. Qed.

Lemma log_ext_trans (g1 g2 g3 : Game) : log_ext g1 g2 -> log_ext g2 g3 -> log_ext g1 g3.
Proof.
  intros [[a Ha] [b Hb]] [[c Hc] [d Hd]]. split.
  - exists (a ++ c). rewrite Hc, Ha, app_assoc. reflexivity.
  - exists (b ++ d). rewrite Hd, Hb, app_assoc. reflexivity.
Qed.

Lemma monster_turn_log (i : nat) (g : Game) (rng : Rng) (g' : Game) (rng' : Rng) :
  monster_turn i g rng = Ok (g', rng') -> log_ext g g'.
Proof.
  unfold monster_turn.
  destruct (player g) as [p |]; [| intros H; inv_Ok H; apply log_ext_refl].
  destruct (nth_error (monsters g) i) as [m |]; [| intros H; inv_Ok H; apply log_ext_refl].
  destruct (e_hp m <=? 0); [intros H; inv_Ok H; apply log_ext_refl |].
  destruct (random_lt (if is_nezha m then 90%nat else 75%nat) rng) as [chase rng1].
  destruct (if chase
            then (Z.sgn (e_x p - e_x m), Z.sgn (e_y p - e_y m), rng1)
            else random_choice (1, 0) [(-1, 0); (0, 1); (0, -1); (0, 0)] rng1)
    as [[dx dy] rng2].
  cbv zeta.
  destruct ((e_x m + dx =? e_x p) && (e_y m + dy =? e_y p)).
  - intros H. inv_bind H. destruct a as [r rng3]. cbn [e_hp] in H.
    match type of H with (if ?c then _ else _) = _ => destruct c end;
      inv_Ok H; send_to_append; split; game_simpl; solve_ext.
  - intros H. inv_bind H. destruct a; inv_Ok H; [| apply log_ext_refl].
    split; game_simpl; solve_ext.
Qed.

Lemma monsters_loop_log (idx : list nat) :
  forall g rng g' rng', monsters_loop idx g rng = Ok (g', rng') -> log_ext g g'.
Proof.
  induction idx as [| i rest IH]; intros g rng g' rng' H; cbn [monsters_loop] in H.
  - inv_Ok H. apply log_ext_refl.
  - inv_bind H. destruct a as [g1 rng1].
    eapply log_ext_trans; [eapply monster_turn_log; eauto | eapply IH; eauto].
Qed.

Lemma monsters_take_turns_log (g : Game) (rng : Rng) (g' : Game) (rng' : Rng) :
  monsters_take_turns g rng = Ok (g', rng') -> log_ext g g'.
Proof.
  unfold monsters_take_turns.
  destruct (player g); [| intros H; inv_Ok H; apply log_ext_refl].
  cbv zeta.
  destruct (_monster_turn_counter
              (set_monster_turn_counter g (_monster_turn_counter g + 1)) mod 2 =? 1).
  - intros H. inv_Ok H. split; game_simpl; solve_ext.
  - intros H. inv_bind H. destruct a as [g1 rng1]. inv_Ok H.
    apply monsters_loop_log in Hrun. destruct Hrun as [Hm Ho]. game_simpl.
    split; game_simpl; assumption.
Qed.

Lemma check_pickup_log (g : Game) : log_ext g (check_pickup g).
Proof.
  unfold check_pickup. destruct (player g) as [p |]; [| apply log_ext_refl].
  destruct (get_item_at g (e_x p) (e_y p)) as [item |]; [| apply log_ext_refl].
  destruct (i_kind item).
  - unfold auto_equip_weapon.
    match goal with |- context [if ?c then _ else _] => destruct c end;
      send_to_append; split; game_simpl; solve_ext.
  - destruct (0 <? Z.min (MAX_HP - e_hp p) (i_power item));
      send_to_append; split; game_simpl; solve_ext.
Qed.

Lemma spawn_nezha_log (fuel : nat) (g : Game) (rng : Rng) (g' : Game) (rng' : Rng) :
  spawn_nezha fuel g rng = Ok (g', rng') -> log_ext g g'.
Proof.
  unfold spawn_nezha. destruct ((2 <=? level g) && (nezha_phase g <? 3)).
  - intros H. inv_bind H. destruct a as [[nx ny] rng1]. inv_Ok H.
    send_to_append. split; game_simpl; solve_ext.
  - intros H. inv_Ok H. apply log_ext_refl.
Qed.

(** The log of a descent: everything already logged, then the lines of the
    generator. *)
Lemma new_level_descent_log (fuel : nat) (g : Game) (rng : Rng) (g' : Game) (rng' : Rng) :
  new_level fuel false g rng = Ok (g', rng') -> log_ext g g'.
Proof.
  intros H. unfold new_level in H. cbv zeta in H. game_simpl.
  destruct (player g) as [p |];
    (inv_bind H; destruct a as [t rng1];
     inv_bind H; destruct a as [[px py] rng2];
     inv_bind H; destruct a as [g3 rng3];
     apply spawn_monsters_shape in Hrun1; destruct Hrun1 as [ms [-> _]];
     inv_bind H; destruct a as [g4 rng4];
     apply spawn_nezha_log in Hrun1;
     inv_bind H; destruct a as [g5 rng5];
     apply spawn_items_shape in Hrun2; destruct Hrun2 as [its [-> _]];
     inv_bind H; destruct a as [[sx sy] rng6];
     inv_bind H; inv_Ok H; send_to_append;
     destruct Hrun1 as [[m1 Hm1] [o1 Ho1]];
     game_simpl; split; game_simpl;
     [ rewrite Hm1; solve_ext
     | exists (o1 ++ l); rewrite Ho1, app_assoc; reflexivity ]).
Qed.

Lemma apply_command_log (fuel : nat) (c : Command) (g : Game) (rng : Rng)
      (g' : Game) (rng' : Rng) :
  apply_command fuel c g rng = Ok (g', rng') -> log_ext g g'.
Proof.
  unfold apply_command. destruct (moves c) as [[dx dy] |].
  - unfold move_player. destruct (player g) as [p |];
      [| intros H; inv_Ok H; apply log_ext_refl].
    cbv zeta.
    destruct (in_bounds g (e_x p + dx) (e_y p + dy)); cbn [negb].
    2:{ intros H. inv_Ok H. send_to_append. split; game_simpl; solve_ext. }
    destruct (get_monster_at g (e_x p + dx) (e_y p + dy)) as [[i target] |].
    + intros H. inv_bind H. destruct a as [dmg rng1].
      inv_bind H. destruct a as [g2 rng2]. inv_Ok H.
      apply monsters_take_turns_log in Hrun0.
      eapply log_ext_trans; [| eapply log_ext_trans; [exact Hrun0 |]].
      * cbn [e_hp].
        destruct (e_hp target - dmg <=? 0); [destruct (is_nezha _) |];
          send_to_append; split; game_simpl; solve_ext.
      * send_to_append. split; game_simpl; solve_ext.
    + intros H. inv_bind H. destruct a.
      * inv_Ok H. send_to_append. split; game_simpl; solve_ext.
      * inv_bind H. destruct a as [g2 rng2]. inv_Ok H.
        apply monsters_take_turns_log in Hrun0.
        eapply log_ext_trans; [| eapply log_ext_trans; [exact Hrun0 |]].
        -- eapply log_ext_trans; [| apply check_pickup_log].
           split; game_simpl; solve_ext.
        -- send_to_append. split; game_simpl; solve_ext.
      * apply new_level_descent_log in H.
        eapply log_ext_trans; [| exact H]. split; game_simpl; solve_ext.
  - unfold wait_turn. intros H. inv_bind H. destruct a as [g2 rng2]. inv_Ok H.
    apply monsters_take_turns_log in Hrun.
    eapply log_ext_trans; [| eapply log_ext_trans; [exact Hrun |]].
    + split; game_simpl; solve_ext.
    + send_to_append. split; game_simpl; solve_ext.
Qed.

(** X8.  No action ever rewrites history: after any dispatched action that
    returns, the message log and the telemetry sent are the old ones with
    new entries appended. *)
Theorem logs_are_append_only
        (fuel : nat) (c : Command) (g : Game) (rng : Rng) (g' : Game) (rng' : Rng)
        (Hrun : apply_command fuel c g rng = Ok (g', rng')) :
  (exists l, messages g' = messages g ++ l)
  /\ (exists l, osc_sent g' = osc_sent g ++ l).
Proof. exact (apply_command_log fuel c g rng g' rng' Hrun). Qed.

Lemma logs_are_append_only_witness :
  (exists l, messages (game_of run_d_descended) = messages (game_of run_d) ++ l)
  /\ (exists l, osc_sent (game_of run_d_descended) = osc_sent (game_of run_d) ++ l).
Proof.
  apply (logs_are_append_only 10 right (game_of run_d) (rng_of run_d)
           (game_of run_d_descended) (rng_of run_d_descended)).
  vm_compute. reflexivity.
Defined.

(** ** What an action can change *)

Lemma wait_turn_frame (g : Game) (rng : Rng) :
  game_inv g ->
  exists g' rng',
    wait_turn g rng = Ok (g', rng')
    /\ ai_frame (set_monster_turn_counter g (_monster_turn_counter g + 1)) g'.
Proof.
  intros Hinv. unfold wait_turn.
  destruct (inv_player _ Hinv) as [p [Ep _]].
  destruct (monsters_take_turns_spec
              (add_message g "You wait and feel the structure hum.") rng p Ep
              (inv_grid _ Hinv)) as [g1 [rng1 [-> [Hf _]]]].
  cbn [bind]. do 2 eexists. split; [reflexivity |].
  destruct (_send_osc_state_frame "wait" g1) as [l ->].
  apply ai_frame_osc. destruct Hf. constructor; game_simpl; assumption.
Qed.

(** X9.  Waiting always returns.  It advances the scheduler counter by one
    and leaves the grid, the level number, the items on the ground, the
    inventory and the equipped weapon untouched; the player does not move and
    its hit points do not rise; no monster is added. *)
Theorem wait_only_ticks (g : Game) (rng : Rng) (Hr : reachable g) :
  exists g' rng' p p',
    wait_turn g rng = Ok (g', rng')
    /\ _monster_turn_counter g' = _monster_turn_counter g + 1
    /\ tiles g' = tiles g /\ level g' = level g /\ items g' = items g
    /\ inventory g' = inventory g /\ current_weapon g' = current_weapon g
    /\ nezha_phase g' = nezha_phase g
    /\ player g = Some p /\ player g' = Some p'
    /\ e_x p' = e_x p /\ e_y p' = e_y p /\ e_hp p' <= e_hp p
    /\ (List.length (monsters g') <= List.length (monsters g))%nat.
Proof.
  pose proof (reachable_inv g Hr) as Hinv.
  destruct (wait_turn_frame g rng Hinv) as [g' [rng' [Hrun Hf]]].
  destruct (inv_player _ Hinv) as [p [Ep _]].
  pose proof (aif_player _ _ Hf) as Hpl. game_simpl. rewrite Ep in Hpl.
  destruct (player g') as [p' |] eqn:Ep'; [| contradiction].
  destruct Hpl as [Hx [Hy [Hhp _]]].
  exists g', rng', p, p'. destruct Hf. game_simpl.
  repeat (split; [first [assumption | reflexivity] |]).
  split; [apply Hhp; apply (inv_phase _ Hinv) | assumption].
Qed.

Lemma wait_only_ticks_witness :
  exists g' rng',
    wait_turn (game_of run_b) (rng_of run_b) = Ok (g', rng')
    /\ _monster_turn_counter g' = _monster_turn_counter (game_of run_b) + 1.
Proof.
  destruct (wait_only_ticks (game_of run_b) (rng_of run_b) run_b_reachable)
    as [g' [rng' [p [p' [H1 [H2 _]]]]]].
  exists g', rng'. split; assumption.
Defined.

Lemma apply_command_grid (fuel : nat) (c : Command) (g : Game) (rng : Rng)
      (g' : Game) (rng' : Rng) :
  game_inv g -> apply_command fuel c g rng = Ok (g', rng') ->
  width g' = width g /\ height g' = height g
  /\ num_monsters g' = num_monsters g /\ num_items g' = num_items g
  /\ ((level g' = level g /\ tiles g' = tiles g)
      \/ (level g' = level g + 1
          /\ exists p dx dy,
              moves c = Some (dx, dy) /\ player g = Some p
              /\ get_monster_at g (e_x p + dx) (e_y p + dy) = None
              /\ get_tile (tiles g) (e_x p + dx) (e_y p + dy) = Ok STAIRS_DOWN)).
Proof.
  intros Hinv H. unfold apply_command in H.
  destruct (inv_player _ Hinv) as [p [Ep _]].
  pose proof (inv_grid _ Hinv) as Hgrid.
  assert (Hmtt : forall gq rq gr rr,
             width gq = width g -> height gq = height g -> tiles gq = tiles g ->
             (exists q, player gq = Some q) ->
             monsters_take_turns gq rq = Ok (gr, rr) ->
             width gr = width gq /\ height gr = height gq
             /\ num_monsters gr = num_monsters gq /\ num_items gr = num_items gq
             /\ level gr = level gq /\ tiles gr = tiles gq).
  { intros gq rq gr rr Ew Eh Et [q Eq] Hrun.
    destruct (monsters_take_turns_spec gq rq q Eq) as [g3 [r3 [Hrun3 [Hf _]]]].
    - rewrite Ew, Eh, Et; exact Hgrid.
    - rewrite Hrun3 in Hrun. inv_Ok Hrun. destruct Hf. game_simpl. tauto. }
  destruct (moves c) as [[dx dy] |] eqn:Ec.
  - unfold move_player in H. rewrite Ep in H. cbv zeta in H.
    destruct (in_bounds g (e_x p + dx) (e_y p + dy)); cbn [negb] in H.
    2:{ inv_Ok H. destruct (_send_osc_state_frame "bump_edge"
                              (add_message g "You bump into the edge of the concrete grid."))
          as [l ->]. game_simpl. repeat split. left. split; reflexivity. }
    destruct (get_monster_at g (e_x p + dx) (e_y p + dy)) as [[i target] |] eqn:Em.
    + inv_bind H. destruct a as [dmg rng1]. inv_bind H. destruct a as [g2 rng2].
      inv_Ok H.
      destruct (_send_osc_state_frame "player_attack" g2) as [l ->]. game_simpl.
      apply Hmtt in Hrun0.
      * destruct Hrun0 as [E1 [E2 [E3 [E4 [E5 E6]]]]].
        rewrite E1, E2, E3, E4, E5, E6. clear.
        cbn [e_hp]. destruct (e_hp target - dmg <=? 0); [destruct (is_nezha _) |];
          try (destruct (_osc_send_frame "/event" [AStr "nezha_phase_end"]
                 (set_nezha_phase
                    (add_message
                       (add_message
                          (set_monsters g
                             (replace_nth i (monsters g)
                                (mkEntity (e_x target) (e_y target) (e_char target)
                                   (e_name target) (e_hp target - dmg))))
                          ("You hit the " ++ e_name target ++ " for " ++ str_of_int dmg
                             ++ " damage!")%string)
                       "Nezha discards this concrete body. The pattern sinks deeper.")
                    (Z.min (nezha_phase g + 1) 3))) as [l2 ->]);
          game_simpl; repeat split; left; split; reflexivity.
      * cbn [e_hp]. destruct (e_hp target - dmg <=? 0); [destruct (is_nezha _) |];
          try match goal with |- context [_osc_send ?a ?b ?gq] =>
                destruct (_osc_send_frame a b gq) as [l2 ->] end; reflexivity.
      * cbn [e_hp]. destruct (e_hp target - dmg <=? 0); [destruct (is_nezha _) |];
          try match goal with |- context [_osc_send ?a ?b ?gq] =>
                destruct (_osc_send_frame a b gq) as [l2 ->] end; reflexivity.
      * cbn [e_hp]. destruct (e_hp target - dmg <=? 0); [destruct (is_nezha _) |];
          try match goal with |- context [_osc_send ?a ?b ?gq] =>
                destruct (_osc_send_frame a b gq) as [l2 ->] end; reflexivity.
      * exists p. cbn [e_hp]. destruct (e_hp target - dmg <=? 0); [destruct (is_nezha _) |];
          try match goal with |- context [_osc_send ?a ?b ?gq] =>
                destruct (_osc_send_frame a b gq) as [l2 ->] end; exact Ep.
    + inv_bind H. destruct a.
      * inv_Ok H.
        destruct (_send_osc_state_frame "bump_wall"
                    (add_message g "Your shoulder hits raw concrete.")) as [l ->].
        game_simpl. repeat split. left. split; reflexivity.
      * inv_bind H. destruct a as [g2 rng2]. inv_Ok H.
        destruct (_send_osc_state_frame "player_move" g2) as [l ->]. game_simpl.
        match type of Hrun0 with monsters_take_turns (check_pickup ?gq) _ = _ =>
          destruct (check_pickup_frame gq) as [Ew [Eh [Et [_ [El [_ [_ Hpl]]]]]]];
          assert (Enm : num_monsters (check_pickup gq) = num_monsters g
                        /\ num_items (check_pickup gq) = num_items g)
        end.
        { unfold check_pickup. game_simpl.
          match goal with |- context [get_item_at ?gq ?x ?y] =>
            destruct (get_item_at gq x y) as [item |] end; [| split; reflexivity].
          destruct (i_kind item).
          - match goal with |- context [_send_osc_state ?e ?gf] =>
              destruct (_send_osc_state_frame e gf) as [l3 ->] end.
            unfold auto_equip_weapon.
            match goal with |- context [if ?c then _ else _] => destruct c end;
              split; reflexivity.
          - match goal with |- context [_send_osc_state ?e ?gf] =>
              destruct (_send_osc_state_frame e gf) as [l3 ->] end.
            match goal with |- context [if ?c then _ else _] => destruct c end;
              split; reflexivity. }
        apply Hmtt in Hrun0; try assumption; [| eapply Hpl; reflexivity].
        destruct Hrun0 as [E1 [E2 [E3 [E4 [E5 E6]]]]].
        rewrite E1, E2, E3, E4, E5, E6, Ew, Eh, Et, El. destruct Enm as [-> ->].
        game_simpl. repeat split. left. split; reflexivity.
      * apply new_level_spec in H. apply generated_after_message in H.
        destruct H. repeat (split; [assumption |]).
        right. split; [assumption |]. exists p, dx, dy. repeat split; assumption.
  - unfold wait_turn in H. inv_bind H. destruct a as [g2 rng2]. inv_Ok H.
    destruct (_send_osc_state_frame "wait" g2) as [l ->]. game_simpl.
    apply Hmtt in Hrun; try reflexivity; [| exists p; exact Ep].
    destruct Hrun as [E1 [E2 [E3 [E4 [E5 E6]]]]].
    rewrite E1, E2, E3, E4, E5, E6. game_simpl. repeat split. left. split; reflexivity.
Qed.

(** X10.  The grid dimensions and the configured monster and item counts
    never change.  An action either leaves the level number and the tile grid
    exactly as they were, or it is a move onto the stairs with no living
    monster on them, which raises the level number by exactly one. *)
Theorem grid_changes_only_on_descent
        (fuel : nat) (c : Command) (g : Game) (rng : Rng) (g' : Game) (rng' : Rng)
        (Hr : reachable g)
        (Hrun : apply_command fuel c g rng = Ok (g', rng')) :
  width g' = width g /\ height g' = height g
  /\ num_monsters g' = num_monsters g /\ num_items g' = num_items g
  /\ ((level g' = level g /\ tiles g' = tiles g)
      \/ (level g' = level g + 1
          /\ exists p dx dy,
              moves c = Some (dx, dy) /\ player g = Some p
              /\ get_monster_at g (e_x p + dx) (e_y p + dy) = None
              /\ get_tile (tiles g) (e_x p + dx) (e_y p + dy) = Ok STAIRS_DOWN)).
Proof.
  eapply apply_command_grid; [apply reachable_inv; exact Hr | exact Hrun].
Qed.

Lemma grid_changes_only_on_descent_witness :
  width (game_of run_a_attack) = width (game_of run_a)
  /\ height (game_of run_a_attack) = height (game_of run_a).
Proof.
  destruct (grid_changes_only_on_descent 10 right (game_of run_a) (rng_of run_a)
              (game_of run_a_attack) (rng_of run_a_attack) run_a_reachable)
    as [Hw [Hh _]].
  - vm_compute. reflexivity.
  - split; assumption.
Defined.

(** ** A new game *)

Lemma new_level_first_messages (fuel : nat) (g : Game) (rng : Rng)
      (g' : Game) (rng' : Rng) :
  new_level fuel true g rng = Ok (g', rng') ->
  messages g' = ["Welcome to Tiny Shanzai Rogue."].
Proof.
  intros H. unfold new_level in H. cbv zeta in H. game_simpl.
  inv_bind H. destruct a as [t rng1].
  inv_bind H. destruct a as [[px py] rng2].
  inv_bind H. destruct a as [g3 rng3].
  inv_bind H. destruct a as [g4 rng4].
  inv_bind H. destruct a as [g5 rng5].
  inv_bind H. destruct a as [[sx sy] rng6].
  inv_bind H. inv_Ok H.
  match goal with |- context [_send_osc_state ?e ?gq] =>
    destruct (_send_osc_state_frame e gq) as [l ->] end.
  reflexivity.
Qed.

Lemma new_game_facts
      (fuel : nat) (w h nm ni : Z) (rng : Rng) (g : Game) (rng' : Rng)
      (Hnew : new_game fuel w h nm ni rng = Ok (g, rng')) :
  width g = w /\ height g = h /\ 3 <= w /\ 3 <= h
  /\ level g = 1 /\ _monster_turn_counter g = 0 /\ nezha_phase g = 0
  /\ inventory g = [] /\ current_weapon g = None
  /\ messages g = ["Welcome to Tiny Shanzai Rogue."]
  /\ (exists px py, player g = Some (mkEntity px py "@" "Player" MAX_HP))
  /\ List.length (monsters g) = Z.to_nat nm
  /\ Forall (fun m => e_name m = "Goblin" /\ e_hp m = 3) (monsters g)
  /\ List.length (items g) = Z.to_nat ni
  /\ Forall (fun it => match i_kind it with
                       | potion => i_power it = 5
                       | weapon => In (i_char it, i_name it, i_power it) weapon_defs
                       end) (items g).
Proof.
  unfold new_game in Hnew. inv_bind Hnew. destruct a as [g1 rng1]. inv_Ok Hnew.
  destruct (_send_osc_state_frame "game_start" g1) as [l ->]. game_simpl.
  pose proof (new_level_first_messages _ _ _ _ _ Hrun) as Hmsg.
  apply new_level_spec in Hrun. destruct Hrun. cbn in *.
  destruct gen_grid0 as [t [px [py [sx [sy [_ [_ [_ [_ [_ [_ [_ Hpl]]]]]]]]]]]].
  destruct gen_monsters0 as [ms [nz [Em [Hlen [Hgob Hnz]]]]].
  rewrite gen_level0 in Hnz, Hgob. cbn in Hnz.
  destruct Hnz as [[Hc _] | [_ ->]]; [discriminate |].
  rewrite app_nil_r in Em. subst ms.
  repeat (split; [first [assumption | lia | reflexivity] |]).
  split; [exists px, py; exact Hpl |].
  split; [exact Hlen |]. split.
  - eapply Forall_impl; [| exact Hgob]. cbn. intros m [Hn [_ [Hhp _]]].
    split; [exact Hn | exact Hhp].
  - destruct gen_items0 as [Hl Hall]. split; [exact Hl |].
    eapply Forall_impl; [| exact Hall]. intros it [_ Hk].
    rewrite gen_level0 in Hk. destruct (i_kind it).
    + destruct Hk as [c [n [b [Hin [-> [-> Hp]]]]]].
      change (Z.max 0 (1 - 1) / 2) with 0 in Hp. rewrite Z.add_0_r in Hp.
      rewrite Hp. exact Hin.
    + exact Hk.
Qed.

(** X11.  A game that has been constructed is on level 1 with the counters
    at zero, nothing in the inventory and no weapon equipped; its log holds
    the welcome line only; the player has full hit points; there are exactly
    the configured number of monsters, all goblins with 3 hit points and no
    boss, and exactly the configured number of items, potions of power 5 and
    weapons at their base power; and the grid is at least 3 x 3. *)
Theorem new_game_initial_state
        (fuel : nat) (w h nm ni : Z) (rng : Rng) (g : Game) (rng' : Rng)
        (Hnew : new_game fuel w h nm ni rng = Ok (g, rng')) :
  width g = w /\ height g = h /\ 3 <= w /\ 3 <= h
  /\ level g = 1 /\ _monster_turn_counter g = 0 /\ nezha_phase g = 0
  /\ inventory g = [] /\ current_weapon g = None
  /\ messages g = ["Welcome to Tiny Shanzai Rogue."]
  /\ (exists px py, player g = Some (mkEntity px py "@" "Player" MAX_HP))
  /\ List.length (monsters g) = Z.to_nat nm
  /\ Forall (fun m => e_name m = "Goblin" /\ e_hp m = 3) (monsters g)
  /\ List.length (items g) = Z.to_nat ni
  /\ Forall (fun it => match i_kind it with
                       | potion => i_power it = 5
                       | weapon => In (i_char it, i_name it, i_power it) weapon_defs
                       end) (items g).
Proof. eapply new_game_facts; eauto. Qed.

Lemma new_game_initial_state_witness :
  level (game_of run_a) = 1 /\ inventory (game_of run_a) = [].
Proof.
  destruct (new_game_initial_state 10 5 5 1 0 run_a_rng (game_of run_a) (rng_of run_a))
    as [_ [_ [_ [_ [Hl [_ [_ [Hi _]]]]]]]].
  - vm_compute. reflexivity.
  - split; assumption.
Defined.

(** ** Grids too small to hold a cavern *)

Lemma carve_never_hangs (n : nat) (w h : Z) :
  forall t x y rng, carve n w h t x y rng <> Timeout.
Proof.
  induction n as [| n IH]; intros t x y rng; cbn [carve]; [discriminate |].
  destruct (set_tile t x y FLOOR) as [t1 | e |] eqn:E; cbn [bind].
  - destruct (random_choice (1, 0) [(-1, 0); (0, 1); (0, -1)] rng) as [[dx dy] rng1].
    apply IH.
  - discriminate.
  - exfalso. unfold set_tile, getitem, setitem, py_index in E.
    repeat match type of E with
           | context [if ?c then _ else _] => destruct c; cbn [bind] in E
           | context [match nth_error ?l ?k with _ => _ end] =>
               destruct (nth_error l k); cbn [bind] in E
           end; discriminate.
Qed.

(** X12.  A game whose grid is narrower or lower than 3 cells cannot be
    constructed: with any random source, as soon as the floor search is
    allowed a single sample, construction raises (an index error in the walk
    or the empty-range error of the first placement) instead of returning. *)
Theorem too_small_grid_raises
        (fuel : nat) (w h nm ni : Z) (rng : Rng)
        (Hsmall : w < 3 \/ h < 3) :
  exists e, new_game (S fuel) w h nm ni rng = Raise e.
Proof.
  unfold new_game, new_level. cbv zeta. game_simpl. cbn [fresh width height tiles].
  destruct (carve (Z.to_nat (w * h * 4)) w h (blank_tiles w h) (w / 2) (h / 2) rng)
    as [[t rng1] | e |] eqn:Ec; cbn [bind].
  - cbn [find_random_floor]. game_simpl. cbn [fresh width height].
    unfold random_randint at 1.
    destruct (Z.ltb_spec (w - 2) 1) as [Hw | Hw]; cbn [bind].
    + exists ValueError. reflexivity.
    + destruct (draw rng1) as [n1 rng2]. cbn [bind].
      unfold random_randint at 1.
      destruct (Z.ltb_spec (h - 2) 1) as [Hh | Hh]; cbn [bind]; [| lia].
      exists ValueError. reflexivity.
  - exists e. reflexivity.
  - exfalso. eapply carve_never_hangs; eauto.
Qed.

Lemma too_small_grid_raises_witness :
  exists e, new_game 1 2 20 8 6 run_a_rng = Raise e.
Proof.
  apply (too_small_grid_raises 0 2 20 8 6 run_a_rng). left. lia.
Defined.

(** ** State Snapshot *)

Lemma render_row_cons (c : Tile) (r : list Tile) :
  render_row (c :: r) = (tile_char c ++ render_row r)%string.
Proof.
  unfold render_row. cbn [map String.concat].
  destruct (map tile_char r) as [| s rest] eqn:E.
  - destruct c; reflexivity.
  - reflexivity.
Qed.

Lemma parse_render_row (r : list Tile) : parse_row (render_row r) = r.
Proof.
  induction r as [| c r IH]; [reflexivity |].
  rewrite render_row_cons. unfold parse_row in *.
  destruct c; cbn; rewrite IH; reflexivity.
Qed.

(** X13.  The snapshot exists exactly when the game has a player.  Its tile
    rows are the grid rendered row by row, one character per cell, from which
    the grid reads back unchanged; its message list is the tail of the log,
    at most 10 lines long and the whole log when that has at most 10 lines;
    and its game-over flag says whether the player's hit points are <= 0. *)
Theorem snapshot_is_faithful (g : Game) :
  (player g = None -> serialize g = None)
  /\ forall p, player g = Some p ->
       exists s,
         serialize g = Some s
         /\ map parse_row (s_tiles s) = tiles g
         /\ (exists older, messages g = older ++ s_messages s)
         /\ (List.length (s_messages s) <= 10)%nat
         /\ ((List.length (messages g) <= 10)%nat -> s_messages s = messages g)
         /\ (s_game_over s = true <-> e_hp p <= 0)
         /\ s_level s = level g
         /\ List.length (s_monsters s) = List.length (monsters g)
         /\ List.length (s_items s) = List.length (items g).
Proof.
  split.
  - intros H. unfold serialize. rewrite H. reflexivity.
  - intros p Hp. unfold serialize. rewrite Hp. eexists. split; [reflexivity |].
    cbn [s_tiles s_messages s_game_over s_level s_monsters s_items].
    split; [| split; [| split; [| split; [| split; [| split; [| split]]]]]].
    + rewrite map_map. change (fun x => parse_row (String.concat "" (map tile_char x)))
        with (fun x => parse_row (render_row x)).
      rewrite <- (map_id (tiles g)) at 2. apply map_ext. apply parse_render_row.
    + exists (firstn (List.length (messages g) - 10) (messages g)).
      symmetry. apply firstn_skipn.
    + rewrite length_skipn. lia.
    + intros Hle. replace (List.length (messages g) - 10)%nat with 0%nat by lia.
      reflexivity.
    + apply Z.leb_le.
    + reflexivity.
    + apply length_map.
    + apply length_map.
Qed.

Lemma snapshot_is_faithful_witness :
  exists s,
    serialize (game_of run_a) = Some s
    /\ map parse_row (s_tiles s) = tiles (game_of run_a).
Proof.
  destruct (proj2 (snapshot_is_faithful (game_of run_a)) (mkEntity 2 2 "@" "Player" 10))
    as [s [H1 [H2 _]]].
  - vm_compute. reflexivity.
  - exists s. split; assumption.
Defined.

(** ** The request layer *)

Lemma reply_of_Served (r : result (Game * Rng)) (g : Game) (rng : Rng) :
  reply_of r = Served g rng -> r = Ok (g, rng).
Proof.
  destruct r as [[g0 r0] | e |]; cbn; intros H; try discriminate.
  inversion H; reflexivity.
Qed.

(** X14.  When the player is dead the handler runs no command at all:
    whatever the request says, it answers with a newly constructed default
    game (level 1, full hit points, empty inventory, boss phase 0, telemetry
    of a new game only), if construction returns. *)
Theorem server_restarts_dead_player
        (fuel : nat) (cmd : string) (g : Game) (rng : Rng) (p : Entity)
        (Hp : player g = Some p) (Hdead : e_hp p <= 0) :
  command fuel cmd g rng = reply_of (new_game fuel 40 20 8 6 rng)
  /\ forall g' rng',
      command fuel cmd g rng = Served g' rng' ->
      level g' = 1 /\ inventory g' = [] /\ current_weapon g' = None
      /\ nezha_phase g' = 0 /\ _monster_turn_counter g' = 0
      /\ (exists px py, player g' = Some (mkEntity px py "@" "Player" MAX_HP))
      /\ width g' = 40 /\ height g' = 20.
Proof.
  assert (E : command fuel cmd g rng = reply_of (new_game fuel 40 20 8 6 rng)).
  { unfold command. rewrite Hp.
    destruct (Z.leb_spec (e_hp p) 0) as [_ | ?]; [reflexivity | lia]. }
  split; [exact E |].
  intros g' rng' H. rewrite E in H. apply reply_of_Served in H.
  pose proof (new_game_facts _ _ _ _ _ _ _ _ H) as F.
  repeat split; try apply F.
Qed.

Lemma server_restarts_dead_player_witness :
  command 10 "up"
          (set_player (game_of run_a) (Some (mkEntity 2 2 "@" "Player" 0))) run_a_rng
  = reply_of (new_game 10 40 20 8 6 run_a_rng).
Proof.
  apply (server_restarts_dead_player 10 "up"
           (set_player (game_of run_a) (Some (mkEntity 2 2 "@" "Player" 0))) run_a_rng
           (mkEntity 2 2 "@" "Player" 0)).
  - reflexivity.
  - cbn. lia.
Defined.

(** X15.  With a living player, a request whose command is none of "up",
    "down", "left", "right", "wait", "restart" is answered without touching
    the game or the random source. *)
Theorem server_ignores_unknown_command
        (fuel : nat) (cmd : string) (g : Game) (rng : Rng) (p : Entity)
        (Hp : player g = Some p) (Halive : 0 < e_hp p)
        (Hunknown : ~ In cmd ["up"; "down"; "left"; "right"; "wait"; "restart"]) :
  command fuel cmd g rng = Served g rng.
Proof.
  unfold command, server_moves. rewrite Hp.
  destruct (Z.leb_spec (e_hp p) 0) as [? | _]; [lia |].
  repeat match goal with
         | |- context [String.eqb cmd ?s] =>
             destruct (String.eqb_spec cmd s) as [-> | _];
             [exfalso; apply Hunknown; cbn; tauto |]
         end.
  reflexivity.
Qed.

Lemma server_ignores_unknown_command_witness :
  command 10 "dance" (game_of run_a) (rng_of run_a)
  = Served (game_of run_a) (rng_of run_a).
Proof.
  apply (server_ignores_unknown_command 10 "dance" (game_of run_a) (rng_of run_a)
           (mkEntity 2 2 "@" "Player" 10)).
  - vm_compute. reflexivity.
  - cbn. lia.
  - cbn. intros [H | [H | [H | [H | [H | [H | []]]]]]]; discriminate.
Defined.

Lemma server_moves_are_moves (cmd : string) (dx dy : Z) :
  server_moves cmd = Some (dx, dy) -> exists c, moves c = Some (dx, dy).
Proof.
  unfold server_moves.
  destruct (String.eqb cmd "up"); [intros H; inv_Ok H; exists up; reflexivity |].
  destruct (String.eqb cmd "down"); [intros H; inv_Ok H; exists down; reflexivity |].
  destruct (String.eqb cmd "left"); [intros H; inv_Ok H; exists left; reflexivity |].
  destruct (String.eqb cmd "right"); [intros H; inv_Ok H; exists right; reflexivity |].
  discriminate.
Qed.

Lemma served_reachable (g : Game) : served g -> reachable g.
Proof.
  induction 1 as [fuel rng g rng' H | fuel cmd g rng g' rng' _ IH H].
  - eapply reachable_new; eauto.
  - unfold command in H. destruct (player g) as [p |]; [| discriminate].
    destruct (e_hp p <=? 0).
    { apply reply_of_Served in H. eapply reachable_new; eauto. }
    destruct (server_moves cmd) as [[dx dy] |] eqn:Em.
    + apply reply_of_Served in H.
      destruct (server_moves_are_moves cmd dx dy Em) as [c Hc].
      apply (reachable_step fuel c g rng g' rng' IH).
      unfold apply_command. rewrite Hc. exact H.
    + destruct (String.eqb cmd "wait").
      * apply reply_of_Served in H.
        apply (reachable_step fuel wait g rng g' rng' IH). exact H.
      * destruct (String.eqb cmd "restart").
        -- apply reply_of_Served in H. eapply reachable_new; eauto.
        -- inversion H; subst. exact IH.
Qed.

Lemma new_game_config
      (fuel : nat) (w h nm ni : Z) (rng : Rng) (g : Game) (rng' : Rng) :
  new_game fuel w h nm ni rng = Ok (g, rng') ->
  width g = w /\ height g = h /\ num_monsters g = nm /\ num_items g = ni.
Proof.
  intros H. unfold new_game in H. inv_bind H. destruct a as [g1 r1]. inv_Ok H.
  destruct (_send_osc_state_frame "game_start" g1) as [l ->]. game_simpl.
  apply new_level_spec in Hrun.
  rewrite (gen_width _ _ _ Hrun), (gen_height _ _ _ Hrun),
    (gen_num_monsters _ _ _ Hrun), (gen_num_items _ _ _ Hrun).
  repeat split.
Qed.

Lemma served_config (g : Game) :
  served g ->
  width g = 40 /\ height g = 20 /\ num_monsters g = 8 /\ num_items g = 6.
Proof.
  induction 1 as [fuel rng g rng' H | fuel cmd g rng g' rng' Hs IH H].
  - eapply new_game_config; eauto.
  - pose proof (reachable_inv g (served_reachable g Hs)) as Hinv.
    unfold command in H. destruct (player g) as [p |]; [| discriminate].
    destruct (e_hp p <=? 0).
    { apply reply_of_Served in H. eapply new_game_config; eauto. }
    destruct (server_moves cmd) as [[dx dy] |] eqn:Em.
    + apply reply_of_Served in H.
      destruct (server_moves_are_moves cmd dx dy Em) as [c Hc].
      assert (Hstep : apply_command fuel c g rng = Ok (g', rng'))
        by (unfold apply_command; rewrite Hc; exact H).
      destruct (apply_command_grid _ _ _ _ _ _ Hinv Hstep) as [E1 [E2 [E3 [E4 _]]]].
      rewrite E1, E2, E3, E4. exact IH.
    + destruct (String.eqb cmd "wait").
      * apply reply_of_Served in H.
        assert (Hstep : apply_command fuel wait g rng = Ok (g', rng')) by exact H.
        destruct (apply_command_grid _ _ _ _ _ _ Hinv Hstep) as [E1 [E2 [E3 [E4 _]]]].
        rewrite E1, E2, E3, E4. exact IH.
      * destruct (String.eqb cmd "restart").
        -- apply reply_of_Served in H. eapply new_game_config; eauto.
        -- inversion H; subst. exact IH.
Qed.

(** X16.  Every game the request layer ever holds is a game state the
    engine can reach by dispatched actions, on the default 40 x 20 grid with
    8 monsters and 6 items configured; so every invariant of reachable
    states holds for what the server serves. *)
Theorem served_games_are_reachable (g : Game) (Hs : served g) :
  reachable g /\ game_inv g
  /\ width g = 40 /\ height g = 20 /\ num_monsters g = 8 /\ num_items g = 6.
Proof.
  split; [apply served_reachable; exact Hs |].
  split; [apply reachable_inv, served_reachable; exact Hs |].
  apply served_config; exact Hs.
Qed.

Lemma run_e_served : served (game_of run_e).
Proof.
  apply (served_start 10 run_e_rng (game_of run_e) (rng_of run_e)).
  vm_compute. reflexivity.
Qed.

Lemma served_games_are_reachable_witness :
  reachable (game_of run_e) /\ width (game_of run_e) = 40.
Proof.
  destruct (served_games_are_reachable (game_of run_e) run_e_served)
    as [H1 [_ [H2 _]]].
  split; assumption.
Defined.

(** ** The generator, phase by phase *)

Lemma new_level_run (fuel : nat) (first : bool) (g : Game) (rng : Rng)
      (g' : Game) (rng' : Rng) :
  new_level fuel first g rng = Ok (g', rng') ->
  exists t rng1 px py rng2 g3 rng3 g4 rng4 g5 rng5 sx sy t2 msgs l,
    carve (Z.to_nat (width g * height g * 4)) (width g) (height g)
          (blank_tiles (width g) (height g)) (width g / 2) (height g / 2) rng
    = Ok (t, rng1)
    /\ find_random_floor fuel (set_tiles (level_entered first g) t) rng1
       = Ok (px, py, rng2)
    /\ spawn_monsters fuel (Z.to_nat (num_monsters g))
         (set_monsters
            (set_player (set_tiles (level_entered first g) t)
               (Some (placed_player first (player g) px py))) []) rng2
       = Ok (g3, rng3)
    /\ spawn_nezha fuel g3 rng3 = Ok (g4, rng4)
    /\ spawn_items fuel (Z.to_nat (num_items g)) (set_items g4 []) rng4 = Ok (g5, rng5)
    /\ find_random_floor fuel g5 rng5 = Ok (sx, sy, rng')
    /\ set_tile (tiles g5) sx sy STAIRS_DOWN = Ok t2
    /\ g' = set_osc_sent (set_messages (set_tiles g5 t2) msgs) l.
Proof.
  intros H. unfold new_level in H.
  change (if first then g
          else add_message (set_level g (level g + 1))
                 ("You descend to cavern level "
                    ++ str_of_int (level (set_level g (level g + 1))) ++ ".")%string)
    with (level_entered first g) in H.
  assert (E0 : width (level_entered first g) = width g
               /\ height (level_entered first g) = height g
               /\ num_monsters (level_entered first g) = num_monsters g
               /\ num_items (level_entered first g) = num_items g
               /\ player (level_entered first g) = player g).
  { unfold level_entered. destruct first; game_simpl; repeat split. }
  destruct E0 as [Ew [Eh [Enm [Eni Epl]]]].
  set (g0 := level_entered first g) in *. clearbody g0.
  cbv zeta in H. game_simpl. rewrite Ew, Eh in H.
  inv_bind H. destruct a as [t rng1].
  inv_bind H. destruct a as [[px py] rng2].
  assert (Hpl : match first, player g0 with
                | false, Some p =>
                    set_player (set_tiles (set_tiles g0 (blank_tiles (width g) (height g))) t)
                      (Some (mkEntity px py (e_char p) (e_name p) (e_hp p)))
                | _, _ =>
                    set_player (set_tiles (set_tiles g0 (blank_tiles (width g) (height g))) t)
                      (Some (mkEntity px py "@" "Player" MAX_HP))
                end
                = set_player (set_tiles g0 t)
                    (Some (placed_player first (player g) px py))).
  { rewrite Epl. unfold placed_player. destruct first; [| destruct (player g)]; reflexivity. }
  rewrite Hpl in H. clear Hpl. game_simpl. rewrite Enm in H.
  inv_bind H. destruct a as [g3 rng3].
  inv_bind H. destruct a as [g4 rng4].
  assert (Eni4 : num_items g4 = num_items g).
  { apply spawn_monsters_shape in Hrun1. destruct Hrun1 as [ms [-> _]].
    apply spawn_nezha_shape in Hrun2.
    destruct Hrun2 as [_ [[_ [nx [ny [m [l [_ ->]]]]]] | [_ ->]]]; game_simpl; exact Eni. }
  rewrite Eni4 in H.
  inv_bind H. destruct a as [g5 rng5].
  inv_bind H. destruct a as [[sx sy] rng6].
  inv_bind H.
  match type of H with
  | context [if first then set_messages ?gx ?m1 else add_message ?gx ?m2] =>
      replace (if first then set_messages gx m1 else add_message gx m2)
        with (set_messages gx (if first then m1 else messages gx ++ [m2])) in H
        by (destruct first; reflexivity)
  end.
  match type of H with Ok (_send_osc_state ?e ?gf, _) = _ =>
    destruct (_send_osc_state_frame e gf) as [lf Hlf]; rewrite Hlf in H end.
  inv_Ok H.
  exists t, rng1, px, py, rng2, g3, rng3, g4, rng4, g5, rng5, sx, sy, a.
  do 2 eexists.
  repeat (split; [eassumption |]). reflexivity.
Qed.

(** ** Occupancy *)

Lemma living_app (a b : list Entity) : living (a ++ b) = living a ++ living b.
Proof. unfold living. rewrite filter_app, map_app. reflexivity. Qed.

Lemma living_cons (m : Entity) (ms : list Entity) :
  living (m :: ms) = (if alive m then [pos_e m] else []) ++ living ms.
Proof. unfold living. cbn [filter]. destruct (alive m); reflexivity. Qed.

Lemma monster_here_iff (x y : Z) (m : Entity) :
  monster_here x y m = true <-> (alive m = true /\ pos_e m = (x, y)).
Proof.
  unfold monster_here, alive, pos_e.
  rewrite !andb_true_iff, !Z.eqb_eq. split.
  - intros [[Hx Hy] Ha]. split; [exact Ha | congruence].
  - intros [Ha E]. inversion E. tauto.
Qed.

Lemma existsb_monster_here (ms : list Entity) (x y : Z) :
  existsb (monster_here x y) ms = false <-> ~ In (x, y) (living ms).
Proof.
  induction ms as [| m ms IH]; cbn [existsb].
  - split; [intros _ [] | reflexivity].
  - rewrite living_cons, orb_false_iff, IH, in_app_iff. split.
    + intros [Hm Hrest] [Hin | Hin]; [| exact (Hrest Hin)].
      destruct (alive m) eqn:Ea; [| destruct Hin].
      destruct Hin as [E | []].
      assert (monster_here x y m = true)
        by (apply monster_here_iff; split; assumption).
      congruence.
    + intros Hn. split.
      * destruct (monster_here x y m) eqn:E; [| reflexivity].
        apply monster_here_iff in E. destruct E as [Ea Ep].
        exfalso. apply Hn. left. rewrite Ea. left. exact Ep.
      * intros Hin. apply Hn. right. exact Hin.
Qed.

Lemma first_monster_None (ms : list Entity) (x y : Z) :
  forall k, first_monster ms x y k = None <-> existsb (monster_here x y) ms = false.
Proof.
  induction ms as [| m ms IH]; intros k; cbn [first_monster existsb].
  - tauto.
  - destruct (monster_here x y m); cbn [orb].
    + split; discriminate.
    + apply IH.
Qed.

Lemma get_monster_at_None (g : Game) (x y : Z) :
  get_monster_at g x y = None <-> ~ In (x, y) (living (monsters g)).
Proof.
  unfold get_monster_at. rewrite first_monster_None. apply existsb_monster_here.
Qed.

Lemma get_entity_at_None (g : Game) (x y : Z) :
  get_entity_at g x y = None ->
  (forall p, player g = Some p -> pos_e p <> (x, y))
  /\ ~ In (x, y) (living (monsters g)).
Proof.
  unfold get_entity_at. intros H.
  assert (Hmon : option_map snd (first_monster (monsters g) x y 0) = None ->
                 ~ In (x, y) (living (monsters g))).
  { intros Hn. apply existsb_monster_here. apply (first_monster_None _ x y 0%nat).
    destruct (first_monster (monsters g) x y 0); [discriminate | reflexivity]. }
  destruct (player g) as [p |].
  - destruct ((e_x p =? x) && (e_y p =? y)) eqn:E; [discriminate |].
    split; [| apply Hmon; exact H].
    intros q Hq. inv_Ok Hq. unfold pos_e. intros Ep. inversion Ep. subst.
    rewrite !Z.eqb_refl in E. discriminate.
  - split; [intros q Hq; discriminate | apply Hmon; exact H].
Qed.

Lemma get_item_at_None (g : Game) (x y : Z) :
  get_item_at g x y = None -> ~ In (x, y) (map pos_i (items g)).
Proof.
  unfold get_item_at. intros H Hin. apply in_map_iff in Hin.
  destruct Hin as [it [Ep Hin]].
  apply (find_none _ _ H) in Hin. unfold pos_i in Ep. inversion Ep; subst.
  rewrite !Z.eqb_refl in Hin. discriminate.
Qed.

Lemma replace_nth_split {A : Type} (l : list A) (i : nat) (a : A) :
  nth_error l i = Some a ->
  exists l1 l2, l = l1 ++ a :: l2
                /\ forall b, replace_nth i l b = l1 ++ b :: l2.
Proof.
  revert i; induction l as [| h t IH]; intros [| i] H; try discriminate.
  - cbn in H. inv_Ok H. exists [], t. split; [reflexivity | intros b; reflexivity].
  - cbn [nth_error] in H. destruct (IH i H) as [l1 [l2 [-> Hrep]]].
    exists (h :: l1), l2. split; [reflexivity |].
    intros b. cbn. rewrite Hrep. reflexivity.
Qed.

Lemma NoDup_app_middle {A : Type} (l1 l2 : list A) (a b : A) :
  NoDup (l1 ++ a :: l2) -> ~ In b (l1 ++ l2) -> NoDup (l1 ++ b :: l2).
Proof.
  intros Hnd Hb. apply NoDup_remove_1 in Hnd.
  apply (proj2 (NoDup_Add (Add_app b l1 l2))). split; assumption.
Qed.

(** Moving the living monster at index [i] to a cell no living monster
    holds, or changing only its hit points. *)
Lemma living_replace (ms : list Entity) (i : nat) (m m' : Entity) :
  nth_error ms i = Some m -> alive m = true ->
  exists l1 l2,
    living ms = l1 ++ pos_e m :: l2
    /\ living (replace_nth i ms m')
       = l1 ++ (if alive m' then [pos_e m'] else []) ++ l2.
Proof.
  intros Hn Ha. destruct (replace_nth_split ms i m Hn) as [a [b [-> Hrep]]].
  rewrite Hrep. exists (living a), (living b).
  rewrite !living_app, !living_cons, Ha. split; reflexivity.
Qed.

Lemma alive_hp (m : Entity) : alive m = true <-> 0 < e_hp m.
Proof. unfold alive. apply Z.ltb_lt. Qed.

(** Adding a living entity on a free floor cell. *)
Lemma ents_ok_spawn (g : Game) (m : Entity) (rng rng' : Rng) (fuel : nat) :
  ents_ok g ->
  find_random_floor fuel g rng = Ok (e_x m, e_y m, rng') ->
  ents_ok (set_monsters g (monsters g ++ [m])).
Proof.
  intros [Hnd Hpl Hmt] Hf. apply find_random_floor_spec in Hf.
  destruct Hf as [[Hx Hy] [Hfl [Hent _]]].
  apply get_entity_at_None in Hent. destruct Hent as [Hnp Hnl].
  constructor; game_simpl.
  - rewrite living_app, living_cons. cbn [living filter map]. rewrite app_nil_r.
    destruct (alive m); [| rewrite app_nil_r; exact Hnd].
    apply NoDup_app; [exact Hnd | constructor; [intros [] | constructor] |].
    intros c Hc [E | []]. subst c. exact (Hnl Hc).
  - intros p Hp. destruct (Hpl p Hp) as [H1 H2]. split; [| exact H2].
    rewrite living_app, living_cons. cbn [living filter map]. rewrite app_nil_r.
    rewrite in_app_iff. intros [Hin | Hin]; [exact (H1 Hin) |].
    destruct (alive m); [| destruct Hin]. destruct Hin as [E | []].
    apply (Hnp p Hp). symmetry. exact E.
  - apply Forall_app. split; [exact Hmt |]. constructor; [| constructor].
    intros _. split; [cbn; lia | split; [cbn; lia |]].
    exists FLOOR. split; [exact Hfl | reflexivity].
Qed.

Lemma spawn_monsters_ents (fuel n : nat) :
  forall g rng g' rng',
    ents_ok g -> spawn_monsters fuel n g rng = Ok (g', rng') -> ents_ok g'.
Proof.
  induction n as [| n IH]; intros g rng g' rng' Hok H; cbn [spawn_monsters] in H.
  - inv_Ok H. exact Hok.
  - inv_bind H. destruct a as [[mx my] rng1].
    eapply IH; [| exact H].
    eapply (ents_ok_spawn g (mkEntity mx my "g" "Goblin" (3 + Z.max 0 (level g - 1))));
      [exact Hok | exact Hrun].
Qed.

Lemma ents_ok_same (g g' : Game) :
  tiles g' = tiles g -> player g' = player g -> monsters g' = monsters g ->
  ents_ok g -> ents_ok g'.
Proof.
  intros Et Ep Em []. constructor; rewrite ?Et, ?Ep, ?Em; assumption.
Qed.

Lemma items_ok_same (g g' : Game) :
  tiles g' = tiles g -> items g' = items g -> items_ok g -> items_ok g'.
Proof.
  intros Et Ei []. constructor; rewrite ?Et, ?Ei; assumption.
Qed.

Lemma carry_ok_same (g g' : Game) :
  inventory g' = inventory g -> current_weapon g' = current_weapon g ->
  carry_ok g -> carry_ok g'.
Proof.
  intros Ei Ew []. constructor; rewrite ?Ei, ?Ew; assumption.
Qed.

Lemma spawn_nezha_ents (fuel : nat) (g : Game) (rng : Rng) (g' : Game) (rng' : Rng) :
  ents_ok g -> spawn_nezha fuel g rng = Ok (g', rng') -> ents_ok g'.
Proof.
  intros Hok H. unfold spawn_nezha in H.
  destruct ((2 <=? level g) && (nezha_phase g <? 3)); [| inv_Ok H; exact Hok].
  inv_bind H. destruct a as [[nx ny] rng1]. inv_Ok H.
  match goal with |- ents_ok (_osc_send ?a ?b ?gq) =>
    destruct (_osc_send_frame a b gq) as [l ->] end.
  eapply ents_ok_same;
    [| | | eapply (ents_ok_spawn g (mkEntity nx ny "N" "Nezha" (8 + nezha_phase g * 5)));
           [exact Hok | exact Hrun]]; reflexivity.
Qed.

Lemma items_ok_spawn (g : Game) (it : Item) (rng rng' : Rng) (fuel : nat) :
  items_ok g -> (i_kind it = weapon -> 1 <= i_power it) ->
  find_random_floor fuel g rng = Ok (i_x it, i_y it, rng') ->
  items_ok (set_items g (items g ++ [it])).
Proof.
  intros [Hnd Hfl] Hpow Hf. apply find_random_floor_spec in Hf.
  destruct Hf as [[Hx Hy] [Hfloor [_ [Hit _]]]].
  apply get_item_at_None in Hit.
  constructor; game_simpl.
  - rewrite map_app. cbn [map].
    apply NoDup_app; [exact Hnd | constructor; [intros [] | constructor] |].
    intros c Hc [E | []]. subst c. exact (Hit Hc).
  - apply Forall_app. split; [exact Hfl |]. constructor; [| constructor].
    repeat split; try lia; assumption.
Qed.

Lemma spawn_items_items (fuel n : nat) :
  forall g rng g' rng',
    items_ok g -> spawn_items fuel n g rng = Ok (g', rng') -> items_ok g'.
Proof.
  induction n as [| n IH]; intros g rng g' rng' Hok H; cbn [spawn_items] in H.
  - inv_Ok H. exact Hok.
  - inv_bind H. destruct a as [[ix iy] rng1].
    destruct (random_choice weapon [weapon; potion] rng1) as [kind rng2].
    destruct kind.
    + pose proof (random_choice_In ("/", "Rusty Dagger", 1)
                    [("/", "Short Sword", 2); (")", "War Axe", 3); (")", "Crystal Blade", 4)]
                    rng2) as Hin.
      destruct (random_choice ("/", "Rusty Dagger", 1)
                  [("/", "Short Sword", 2); (")", "War Axe", 3); (")", "Crystal Blade", 4)]
                  rng2) as [[[c nm] base] rng3].
      cbn [fst] in Hin.
      eapply IH; [| exact H].
      eapply (items_ok_spawn g
                (mkItem ix iy c nm weapon (base + Z.max 0 (level g - 1) / 2)));
        [exact Hok | | exact Hrun].
      intros _. cbn [i_power].
      pose proof (Z.div_pos (Z.max 0 (level g - 1)) 2 ltac:(lia) ltac:(lia)).
      destruct Hin as [E | [E | [E | [E | []]]]]; inversion E; subst; lia.
    + eapply IH; [| exact H].
      eapply (items_ok_spawn g (mkItem ix iy "!" "Healing Potion" potion (4 + level g)));
        [exact Hok | discriminate | exact Hrun].
Qed.

Lemma walk_cell_set_stairs (t t' : list (list Tile)) (x y : Z) :
  0 <= x -> 0 <= y -> set_tile t x y STAIRS_DOWN = Ok t' ->
  forall c, walk_cell t c -> walk_cell t' c.
Proof.
  intros Hx Hy Hset [cx cy] [H0 [H1 [v [Hv Hw]]]]; cbn [fst snd] in *.
  split; [exact H0 | split; [exact H1 |]]. cbn [fst snd].
  destruct (Z.eq_dec cx x) as [-> | Nx]; [destruct (Z.eq_dec cy y) as [-> | Ny] |].
  - exists STAIRS_DOWN. split; [| reflexivity].
    apply (get_set_tile_same t x y STAIRS_DOWN t'); assumption.
  - exists v. split; [| exact Hw].
    rewrite (get_set_tile_other t x y STAIRS_DOWN t' x cy); try assumption. congruence.
  - exists v. split; [| exact Hw].
    rewrite (get_set_tile_other t x y STAIRS_DOWN t' cx cy); try assumption. congruence.
Qed.

Lemma level_entered_carry (first : bool) (g : Game) :
  inventory (level_entered first g) = inventory g
  /\ current_weapon (level_entered first g) = current_weapon g.
Proof. unfold level_entered. destruct first; split; reflexivity. Qed.

(** Every generation that returns leaves a well-occupied level. *)
Lemma new_level_occ (fuel : nat) (first : bool) (g : Game) (rng : Rng)
      (g' : Game) (rng' : Rng) :
  carry_ok g -> new_level fuel first g rng = Ok (g', rng') -> game_occ g'.
Proof.
  intros Hcarry H. apply new_level_run in H.
  destruct H as (t & rng1 & px & py & rng2 & g3 & rng3 & g4 & rng4 & g5 & rng5
                 & sx & sy & t2 & msgs & l & Hcarve & Hpf & Hmon & Hnez & Hits
                 & Hsf & Hset & ->).
  destruct (level_entered_carry first g) as [Einv Ewp].
  set (g0 := level_entered first g) in *. clearbody g0.
  apply find_random_floor_spec in Hpf. game_simpl.
  destruct Hpf as [[Hpx Hpy] [Hpfl _]].
  set (pp := placed_player first (player g) px py) in *.
  assert (Epp : e_x pp = px /\ e_y pp = py).
  { unfold pp, placed_player. destruct first; [| destruct (player g)]; split; reflexivity. }
  destruct Epp as [Epx Epy].
  set (gS := set_monsters (set_player (set_tiles g0 t) (Some pp)) []) in *.
  assert (HS : ents_ok gS).
  { constructor; unfold gS; game_simpl.
    - constructor.
    - intros p Hp. injection Hp as Hp. rewrite <- Hp, Epx, Epy.
      split; [intros [] |]. repeat split; try lia. exact Hpfl.
    - constructor. }
  pose proof (spawn_monsters_ents _ _ _ _ _ _ HS Hmon) as H3.
  pose proof (spawn_nezha_ents _ _ _ _ _ H3 Hnez) as H4.
  apply spawn_monsters_shape in Hmon. destruct Hmon as [ms [E3 _]].
  apply spawn_nezha_shape in Hnez. destruct Hnez as [_ Hnz].
  assert (HI0 : items_ok (set_items g4 [])).
  { constructor; game_simpl; constructor. }
  pose proof (spawn_items_items _ _ _ _ _ _ HI0 Hits) as H5i.
  apply spawn_items_shape in Hits. destruct Hits as [its [E5 _]].
  assert (H5e : ents_ok g5).
  { eapply ents_ok_same; [| | | exact H4]; rewrite E5; reflexivity. }
  assert (F5 : tiles g5 = t /\ inventory g5 = inventory g
               /\ current_weapon g5 = current_weapon g).
  { rewrite E5. game_simpl.
    destruct Hnz as [[_ [nx [ny [m [lz [_ ->]]]]]] | [_ ->]]; rewrite E3;
      unfold gS; game_simpl; repeat split; assumption. }
  destruct F5 as [Et5 [Ei5 Ew5]].
  apply find_random_floor_spec in Hsf.
  destruct Hsf as [[Hsx Hsy] [Hsfl [Hsent [Hsit _]]]].
  apply get_entity_at_None in Hsent. destruct Hsent as [Hsp Hsl].
  apply get_item_at_None in Hsit.
  assert (Hsx0 : 0 <= sx) by lia. assert (Hsy0 : 0 <= sy) by lia.
  assert (Hother : forall x y, 0 <= x -> 0 <= y -> (x, y) <> (sx, sy) ->
                               get_tile t2 x y = get_tile (tiles g5) x y).
  { intros x y Hx Hy Hne.
    apply (get_set_tile_other (tiles g5) sx sy STAIRS_DOWN t2 x y); assumption. }
  destruct H5e as [Hnd Hpl Hmt]. destruct H5i as [Hind Hifl].
  split; [| split].
  - constructor; game_simpl.
    + exact Hnd.
    + intros p Hp. destruct (Hpl p Hp) as [H1 [H2 [H3' H4']]].
      repeat split; try assumption.
      rewrite Hother; try assumption. apply (Hsp p Hp).
    + eapply Forall_impl; [| exact Hmt]. cbn. intros m Hm Ha.
      apply (walk_cell_set_stairs (tiles g5) t2 sx sy Hsx0 Hsy0 Hset). apply Hm; exact Ha.
  - constructor; game_simpl.
    + exact Hind.
    + rewrite Forall_forall in *. intros it Hin.
      destruct (Hifl it Hin) as [H1 [H2 [H3' H4']]].
      repeat split; try assumption.
      rewrite Hother; try assumption.
      intros E. apply Hsit. rewrite <- E. apply (in_map pos_i). exact Hin.
  - destruct Hcarry as [Hw Hinv]. constructor; game_simpl; rewrite ?Ei5, ?Ew5; assumption.
Qed.

Lemma is_walkable_for_monster_true (g : Game) (x y : Z) :
  is_walkable_for_monster g x y = Ok true ->
  walk_cell (tiles g) (x, y)
  /\ ~ In (x, y) (living (monsters g))
  /\ (forall p, player g = Some p -> pos_e p <> (x, y)).
Proof.
  unfold is_walkable_for_monster.
  destruct (in_bounds g x y) eqn:Eb; cbn [negb]; [| discriminate].
  apply in_bounds_true in Eb.
  intros H. inv_bind H.
  destruct (walkable_tile a) eqn:Ew; cbn [negb] in H; [| discriminate].
  destruct (existsb (monster_here x y) (monsters g)) eqn:Ee; [discriminate |].
  apply existsb_monster_here in Ee.
  split; [| split; [exact Ee |]].
  - split; [cbn; lia | split; [cbn; lia |]]. exists a. split; assumption.
  - intros p Hp. rewrite Hp in H.
    destruct ((e_x p =? x) && (e_y p =? y)) eqn:E; [discriminate |].
    unfold pos_e. intros Ep. inversion Ep; subst. rewrite !Z.eqb_refl in E. discriminate.
Qed.

(** A living monster steps onto a free walkable cell. *)
Lemma ents_ok_move (g : Game) (i : nat) (m m' : Entity) :
  ents_ok g -> nth_error (monsters g) i = Some m -> alive m = true ->
  walk_cell (tiles g) (pos_e m') ->
  ~ In (pos_e m') (living (monsters g)) ->
  (forall p, player g = Some p -> pos_e p <> pos_e m') ->
  ents_ok (set_monsters g (replace_nth i (monsters g) m')).
Proof.
  intros [Hnd Hpl Hmt] Hn Ha Hw Hfree Hnp.
  destruct (living_replace (monsters g) i m m' Hn Ha) as [l1 [l2 [E1 E2]]].
  constructor; game_simpl.
  - rewrite E2. rewrite E1 in Hnd, Hfree.
    destruct (alive m'); cbn [app].
    + eapply NoDup_app_middle; [exact Hnd |].
      intros Hin. apply Hfree. apply in_app_iff. apply in_app_iff in Hin.
      destruct Hin; [left; assumption | right; right; assumption].
    + eapply NoDup_remove_1; exact Hnd.
  - intros p Hp. destruct (Hpl p Hp) as [H1 H2]. split; [| exact H2].
    rewrite E2. rewrite E1 in H1. intros Hin. apply in_app_iff in Hin.
    destruct Hin as [Hin | Hin].
    + apply H1. apply in_app_iff. left; exact Hin.
    + apply in_app_iff in Hin. destruct Hin as [Hin | Hin].
      * destruct (alive m'); [| destruct Hin]. destruct Hin as [E | []].
        apply (Hnp p Hp). symmetry; exact E.
      * apply H1. apply in_app_iff. right; right; exact Hin.
  - rewrite Forall_forall in *. intros a Hin.
    apply In_replace_nth in Hin. destruct Hin as [-> | Hin].
    + intros _. exact Hw.
    + apply Hmt; exact Hin.
Qed.

(** The hit points of the living monster at index [i] change, not its cell. *)
Lemma ents_ok_hurt (g : Game) (i : nat) (m m' : Entity) :
  ents_ok g -> nth_error (monsters g) i = Some m -> alive m = true ->
  pos_e m' = pos_e m ->
  ents_ok (set_monsters g (replace_nth i (monsters g) m')).
Proof.
  intros [Hnd Hpl Hmt] Hn Ha Epos.
  destruct (living_replace (monsters g) i m m' Hn Ha) as [l1 [l2 [E1 E2]]].
  assert (Hsub : forall c, In c (living (replace_nth i (monsters g) m')) ->
                           In c (living (monsters g))).
  { intros c. rewrite E1, E2, Epos, !in_app_iff.
    intros [H | [H | H]]; [left; exact H | | right; right; exact H].
    destruct (alive m'); [| destruct H]. destruct H as [<- | []].
    right; left; reflexivity. }
  constructor; game_simpl.
  - rewrite E2, Epos. rewrite E1 in Hnd.
    destruct (alive m'); cbn [app]; [exact Hnd | eapply NoDup_remove_1; exact Hnd].
  - intros p Hp. destruct (Hpl p Hp) as [H1 H2]. split; [| exact H2].
    intros Hin. apply H1. apply Hsub. exact Hin.
  - rewrite Forall_forall in *. intros a Hin.
    apply In_replace_nth in Hin. destruct Hin as [-> | Hin].
    + intros _. rewrite Epos. apply (Hmt m); [eapply nth_error_In; eauto | exact Ha].
    + apply Hmt; exact Hin.
Qed.

Lemma ents_ok_player_hp (g : Game) (p : Entity) (hp : Z) :
  ents_ok g -> player g = Some p ->
  ents_ok (set_player g (Some (mkEntity (e_x p) (e_y p) (e_char p) (e_name p) hp))).
Proof.
  intros [Hnd Hpl Hmt] Hp. constructor; game_simpl; try assumption.
  intros q Hq. injection Hq as <-. apply (Hpl p Hp).
Qed.

Lemma monster_turn_ents (i : nat) (g : Game) (rng : Rng) (g' : Game) (rng' : Rng) :
  ents_ok g -> monster_turn i g rng = Ok (g', rng') -> ents_ok g'.
Proof.
  intros Hok. unfold monster_turn.
  destruct (player g) as [p |] eqn:Ep; [| intros H; inv_Ok H; exact Hok].
  destruct (nth_error (monsters g) i) as [m |] eqn:Em; [| intros H; inv_Ok H; exact Hok].
  destruct (Z.leb_spec (e_hp m) 0) as [Hle | Hhp]; [intros H; inv_Ok H; exact Hok |].
  destruct (random_lt (if is_nezha m then 90%nat else 75%nat) rng) as [chase rng1].
  destruct (if chase
            then (Z.sgn (e_x p - e_x m), Z.sgn (e_y p - e_y m), rng1)
            else random_choice (1, 0) [(-1, 0); (0, 1); (0, -1); (0, 0)] rng1)
    as [[dx dy] rng2].
  cbv zeta.
  destruct ((e_x m + dx =? e_x p) && (e_y m + dy =? e_y p)).
  - intros H. inv_bind H. destruct a as [r rng3]. cbn [e_hp] in H.
    match type of H with (if ?c then _ else _) = _ => destruct c end; inv_Ok H;
      match goal with |- ents_ok (_send_osc_state ?e ?gq) =>
        destruct (_send_osc_state_frame e gq) as [l ->] end;
      (eapply ents_ok_same; [| | | eapply (ents_ok_player_hp g p); [exact Hok | exact Ep]];
       reflexivity).
  - intros H. inv_bind H. destruct a; inv_Ok H; [| exact Hok].
    apply is_walkable_for_monster_true in Hrun. destruct Hrun as [Hw [Hfree Hnp]].
    eapply ents_ok_move; eauto. apply alive_hp. exact Hhp.
Qed.

Lemma monsters_loop_ents (idx : list nat) :
  forall g rng g' rng',
    ents_ok g -> monsters_loop idx g rng = Ok (g', rng') -> ents_ok g'.
Proof.
  induction idx as [| i rest IH]; intros g rng g' rng' Hok H; cbn [monsters_loop] in H.
  - inv_Ok H. exact Hok.
  - inv_bind H. destruct a as [g1 rng1].
    eapply IH; [| exact H]. eapply monster_turn_ents; eauto.
Qed.

Lemma filter_alive_living (ms : list Entity) : living (filter alive ms) = living ms.
Proof.
  unfold living. f_equal.
  induction ms as [| m ms IH]; [reflexivity |].
  cbn [filter]. destruct (alive m) eqn:E; cbn [filter]; rewrite ?E, IH; reflexivity.
Qed.

Lemma monsters_take_turns_ents (g : Game) (rng : Rng) (g' : Game) (rng' : Rng) :
  ents_ok g -> monsters_take_turns g rng = Ok (g', rng') -> ents_ok g'.
Proof.
  intros Hok. unfold monsters_take_turns.
  destruct (player g); [| intros H; inv_Ok H; exact Hok].
  cbv zeta.
  destruct (_monster_turn_counter
              (set_monster_turn_counter g (_monster_turn_counter g + 1)) mod 2 =? 1).
  - intros H. inv_Ok H. eapply ents_ok_same; [| | | exact Hok]; reflexivity.
  - intros H. inv_bind H. destruct a as [g1 rng1]. inv_Ok H.
    apply monsters_loop_ents in Hrun;
      [| eapply ents_ok_same; [| | | exact Hok]; reflexivity].
    destruct Hrun as [Hnd Hpl Hmt]. constructor; game_simpl.
    + rewrite filter_alive_living. exact Hnd.
    + intros p Hp. rewrite filter_alive_living. apply Hpl; exact Hp.
    + rewrite Forall_forall in *. intros m Hin. apply filter_In in Hin.
      apply Hmt. apply Hin.
Qed.

(** ** Occupancy is kept by every action *)

Lemma game_occ_same (g g' : Game) :
  tiles g' = tiles g -> player g' = player g -> monsters g' = monsters g ->
  items g' = items g -> inventory g' = inventory g ->
  current_weapon g' = current_weapon g ->
  game_occ g -> game_occ g'.
Proof.
  intros Et Ep Em Ei Ev Ew [He [Hi Hc]]. split; [| split].
  - eapply ents_ok_same; eauto.
  - eapply items_ok_same; eauto.
  - eapply carry_ok_same; eauto.
Qed.

Lemma game_occ_send (e : string) (g : Game) :
  game_occ g -> game_occ (_send_osc_state e g).
Proof.
  intros H. destruct (_send_osc_state_frame e g) as [l ->].
  eapply game_occ_same; [.. | exact H]; reflexivity.
Qed.

Lemma NoDup_map_list_remove (v : Item) (l : list Item) :
  NoDup (map pos_i l) -> NoDup (map pos_i (list_remove v l)).
Proof.
  induction l as [| h t IH]; cbn [list_remove map]; intros H; [exact H |].
  inversion H as [| a b Hn Hd]; subst.
  destruct (Item_eqb h v); [exact Hd |].
  cbn [map]. constructor; [| apply IH; exact Hd].
  intros Hin. apply Hn. apply in_map_iff in Hin. destruct Hin as [x [Ex Hx]].
  apply in_map_iff. exists x. split; [exact Ex |]. eapply In_list_remove; eauto.
Qed.

Lemma items_ok_remove (g : Game) (v : Item) :
  items_ok g -> items_ok (set_items g (list_remove v (items g))).
Proof.
  intros [Hnd Hfl]. constructor; game_simpl.
  - apply NoDup_map_list_remove; exact Hnd.
  - rewrite Forall_forall in *. intros it Hin. apply Hfl.
    eapply In_list_remove; eauto.
Qed.

Lemma carry_ok_pickup (g : Game) (item : Item) :
  carry_ok g -> i_kind item = weapon -> 1 <= i_power item ->
  carry_ok (auto_equip_weapon item (set_inventory g (inventory g ++ [item]))).
Proof.
  intros [Hw Hinv] Hk Hp. unfold auto_equip_weapon. game_simpl.
  assert (Hinv' : Forall (fun it => i_kind it = weapon /\ 1 <= i_power it)
                         (inventory g ++ [item])).
  { apply Forall_app. split; [exact Hinv |]. constructor; [| constructor]. tauto. }
  destruct (current_weapon g) as [best |] eqn:Ew.
  - destruct Hw as [Hin Hall].
    destruct (Z.ltb_spec (i_power best) (i_power item)) as [Hlt | Hge];
      constructor; game_simpl; try exact Hinv'.
    + split; [apply in_or_app; right; left; reflexivity |].
      apply Forall_app. split; [| constructor; [lia | constructor]].
      eapply Forall_impl; [| exact Hall]. cbv beta. intros; lia.
    + rewrite Ew. split; [apply in_or_app; left; exact Hin |].
      apply Forall_app. split; [exact Hall |]. constructor; [lia | constructor].
  - constructor; game_simpl; try exact Hinv'.
    rewrite Hw. split; [left; reflexivity |]. constructor; [lia | constructor].
Qed.

Lemma check_pickup_occ (g : Game) : game_occ g -> game_occ (check_pickup g).
Proof.
  intros Hocc. unfold check_pickup.
  destruct (player g) as [p |] eqn:Ep; [| exact Hocc].
  destruct (get_item_at g (e_x p) (e_y p)) as [item |] eqn:Eit; [| exact Hocc].
  apply get_item_at_In in Eit. destruct Eit as [Hin _].
  destruct Hocc as [He [Hi Hc]].
  pose proof (proj1 (Forall_forall _ _) (occ_items_floor _ Hi) item Hin)
    as [_ [_ [_ Hpow]]].
  pose proof (items_ok_remove g item Hi) as Hi'.
  destruct (i_kind item) eqn:Ek; cbv zeta; apply game_occ_send.
  - split; [| split].
    + eapply ents_ok_same; [| | | exact He];
        unfold auto_equip_weapon; game_simpl;
        match goal with |- context [if ?c then _ else _] => destruct c end; reflexivity.
    + eapply items_ok_same; [| | exact Hi'];
        unfold auto_equip_weapon; game_simpl;
        match goal with |- context [if ?c then _ else _] => destruct c end; reflexivity.
    + pose proof (carry_ok_pickup g item Hc Ek (Hpow eq_refl)) as Hc'.
      eapply carry_ok_same; [| | exact Hc'];
        unfold auto_equip_weapon; game_simpl;
        match goal with |- context [if ?c then _ else _] => destruct c end; reflexivity.
  - destruct (0 <? Z.min (MAX_HP - e_hp p) (i_power item)).
    + split; [| split].
      * eapply ents_ok_same;
          [| | | apply (ents_ok_player_hp g p
                          (e_hp p + Z.min (MAX_HP - e_hp p) (i_power item)) He Ep)];
          reflexivity.
      * eapply items_ok_same; [| | exact Hi']; reflexivity.
      * eapply carry_ok_same; [| | exact Hc]; reflexivity.
    + split; [| split].
      * eapply ents_ok_same; [| | | exact He]; reflexivity.
      * eapply items_ok_same; [| | exact Hi']; reflexivity.
      * eapply carry_ok_same; [| | exact Hc]; reflexivity.
Qed.

Lemma monsters_take_turns_occ (g : Game) (rng : Rng) (g' : Game) (rng' : Rng) :
  (exists p, player g = Some p) ->
  grid_ok (width g) (height g) (tiles g) ->
  game_occ g -> monsters_take_turns g rng = Ok (g', rng') -> game_occ g'.
Proof.
  intros [p Ep] Hg [He [Hi Hc]] H. split; [| split].
  - eapply monsters_take_turns_ents; eauto.
  - destruct (monsters_take_turns_spec g rng p Ep Hg) as [g1 [rng1 [Hrun [Hf _]]]].
    rewrite Hrun in H. inv_Ok H. destruct Hf.
    eapply items_ok_same; [| | exact Hi]; assumption.
  - destruct (monsters_take_turns_spec g rng p Ep Hg) as [g1 [rng1 [Hrun [Hf _]]]].
    rewrite Hrun in H. inv_Ok H. destruct Hf.
    eapply carry_ok_same; [| | exact Hc]; assumption.
Qed.

Lemma wait_turn_occ (g : Game) (rng : Rng) (g' : Game) (rng' : Rng) :
  game_inv g -> game_occ g -> wait_turn g rng = Ok (g', rng') -> game_occ g'.
Proof.
  intros Hinv Hocc H. unfold wait_turn in H. inv_bind H. destruct a as [g1 rng1].
  inv_Ok H. apply game_occ_send.
  eapply monsters_take_turns_occ; [| | | exact Hrun].
  - destruct (inv_player _ Hinv) as [p [Ep _]]. exists p. exact Ep.
  - exact (inv_grid _ Hinv).
  - eapply game_occ_same; [.. | exact Hocc]; reflexivity.
Qed.

Lemma move_player_occ (fuel : nat) (dx dy : Z) (g : Game) (rng : Rng)
      (g' : Game) (rng' : Rng) :
  game_inv g -> game_occ g -> move_player fuel dx dy g rng = Ok (g', rng') ->
  game_occ g'.
Proof.
  intros Hinv Hocc H. unfold move_player in H.
  destruct (inv_player _ Hinv) as [p [Ep _]]. rewrite Ep in H.
  cbv zeta in H.
  destruct (in_bounds g (e_x p + dx) (e_y p + dy)) eqn:Eb; cbn [negb] in H.
  2:{ inv_Ok H. apply game_occ_send.
      eapply game_occ_same; [.. | exact Hocc]; reflexivity. }
  apply in_bounds_true in Eb.
  destruct (get_monster_at g (e_x p + dx) (e_y p + dy)) as [[i target] |] eqn:Em.
  - inv_bind H. destruct a as [dmg rng1]. inv_bind H. destruct a as [g2 rng2].
    inv_Ok H. apply game_occ_send.
    unfold get_monster_at in Em. apply first_monster_spec in Em.
    destruct Em as [_ [Hn Hhere]]. rewrite Nat.sub_0_r in Hn.
    apply monster_here_alive in Hhere.
    assert (Hal : alive target = true) by (apply alive_hp; tauto).
    destruct Hocc as [He [Hi Hc]].
    pose proof (ents_ok_hurt g i target
                  (mkEntity (e_x target) (e_y target) (e_char target) (e_name target)
                     (e_hp target - dmg)) He Hn Hal eq_refl) as He'.
    eapply monsters_take_turns_occ; [| | | exact Hrun0]; cbn [e_hp].
    + exists p.
      destruct (e_hp target - dmg <=? 0); [destruct (is_nezha _) |];
        try match goal with |- context [_osc_send ?a ?b ?gq] =>
              destruct (_osc_send_frame a b gq) as [l ->] end; exact Ep.
    + destruct (e_hp target - dmg <=? 0); [destruct (is_nezha _) |];
        try match goal with |- context [_osc_send ?a ?b ?gq] =>
              destruct (_osc_send_frame a b gq) as [l ->] end; exact (inv_grid _ Hinv).
    + destruct (e_hp target - dmg <=? 0); [destruct (is_nezha _) |];
        try match goal with |- context [_osc_send ?a ?b ?gq] =>
              destruct (_osc_send_frame a b gq) as [l ->] end;
        (split; [| split];
         [ eapply ents_ok_same; [| | | exact He']; reflexivity
         | eapply items_ok_same; [| | exact Hi]; reflexivity
         | eapply carry_ok_same; [| | exact Hc]; reflexivity ]).
  - inv_bind H. destruct a.
    + inv_Ok H. apply game_occ_send.
      eapply game_occ_same; [.. | exact Hocc]; reflexivity.
    + inv_bind H. destruct a as [g2 rng2]. inv_Ok H. apply game_occ_send.
      set (g1 := set_player g (Some (mkEntity (e_x p + dx) (e_y p + dy)
                                        (e_char p) (e_name p) (e_hp p)))) in *.
      assert (Hinv1 : game_inv g1).
      { pose proof (inv_walk _ Hinv (e_x p + dx) (e_y p + dy) FLOOR
                      ltac:(lia) ltac:(lia) Hrun eq_refl) as Hint.
        destruct (inv_player _ Hinv) as [q [Eq [_ Hhp]]].
        rewrite Ep in Eq. injection Eq as <-.
        destruct Hinv. constructor; unfold g1; game_simpl; try assumption.
        eexists. split; [reflexivity |]. cbn [e_x e_y e_hp]. split; assumption. }
      assert (Hocc1 : game_occ g1).
      { destruct Hocc as [He [Hi Hc]]. split; [| split].
        - destruct He as [Hnd Hpl Hmt]. constructor; unfold g1; game_simpl;
            try assumption.
          intros q Hq. injection Hq as <-. cbn [pos_e e_x e_y].
          split; [apply get_monster_at_None; exact Em |].
          split; [lia | split; [lia | exact Hrun]].
        - eapply items_ok_same; [| | exact Hi]; reflexivity.
        - eapply carry_ok_same; [| | exact Hc]; reflexivity. }
      pose proof (check_pickup_inv g1 Hinv1) as Hinv2.
      eapply monsters_take_turns_occ; [| | | exact Hrun0].
      * destruct (inv_player _ Hinv2) as [q [Eq _]]. exists q. exact Eq.
      * exact (inv_grid _ Hinv2).
      * apply check_pickup_occ. exact Hocc1.
    + eapply new_level_occ; [| exact H].
      destruct Hocc as [_ [_ Hc]].
      eapply carry_ok_same; [| | exact Hc]; reflexivity.
Qed.

Lemma new_game_occ (fuel : nat) (w h nm ni : Z) (rng : Rng) (g : Game) (rng' : Rng) :
  new_game fuel w h nm ni rng = Ok (g, rng') -> game_occ g.
Proof.
  intros H. unfold new_game in H. inv_bind H. destruct a as [g1 rng1].
  inv_Ok H. apply game_occ_send.
  eapply new_level_occ; [| exact Hrun].
  constructor; cbn; [reflexivity | constructor].
Qed.

Lemma apply_command_occ (fuel : nat) (c : Command) (g : Game) (rng : Rng)
      (g' : Game) (rng' : Rng) :
  game_inv g -> game_occ g -> apply_command fuel c g rng = Ok (g', rng') ->
  game_occ g'.
Proof.
  intros Hinv Hocc H. unfold apply_command in H.
  destruct (moves c) as [[dx dy] |].
  - eapply move_player_occ; eauto.
  - eapply wait_turn_occ; eauto.
Qed.

Lemma reachable_occ (g : Game) : reachable g -> game_occ g.
Proof.
  induction 1 as [fuel w h nm ni rng g rng' H | fuel c g rng g' rng' Hr IH H].
  - eapply new_game_occ; eauto.
  - eapply apply_command_occ; [| exact IH | exact H]. apply reachable_inv; exact Hr.
Qed.

Lemma In_living (ms : list Entity) (m : Entity) :
  In m ms -> alive m = true -> In (pos_e m) (living ms).
Proof.
  intros Hin Ha. unfold living. apply in_map. apply filter_In. split; assumption.
Qed.

Lemma NoDup_living_nth (ms : list Entity) :
  NoDup (living ms) ->
  forall i j m n,
    nth_error ms i = Some m -> nth_error ms j = Some n ->
    alive m = true -> alive n = true -> pos_e m = pos_e n -> i = j.
Proof.
  induction ms as [| a ms IH]; intros Hnd i j m n Hi Hj Hm Hn E.
  - destruct i; discriminate.
  - rewrite living_cons in Hnd.
    destruct i as [| i], j as [| j]; cbn [nth_error] in Hi, Hj.
    + reflexivity.
    + exfalso. injection Hi as ->. rewrite Hm in Hnd. cbn [app] in Hnd.
      inversion Hnd as [| x l Hx _]; subst. apply Hx. rewrite E.
      apply In_living; [eapply nth_error_In; eauto | exact Hn].
    + exfalso. injection Hj as ->. rewrite Hn in Hnd. cbn [app] in Hnd.
      inversion Hnd as [| x l Hx _]; subst. apply Hx. rewrite <- E.
      apply In_living; [eapply nth_error_In; eauto | exact Hm].
    + f_equal. apply (IH (NoDup_app_remove_l _ _ Hnd) i j m n); assumption.
Qed.

Lemma NoDup_find_item (l : list Item) (it : Item) :
  NoDup (map pos_i l) -> In it l ->
  find (fun a => (i_x a =? i_x it) && (i_y a =? i_y it)) l = Some it.
Proof.
  induction l as [| h t IH]; intros Hnd Hin; [destruct Hin |].
  cbn [map] in Hnd. inversion Hnd as [| x l Hx Hd]; subst.
  cbn [find]. destruct Hin as [-> | Hin].
  - rewrite !Z.eqb_refl. reflexivity.
  - destruct ((i_x h =? i_x it) && (i_y h =? i_y it)) eqn:E.
    + exfalso. apply andb_prop in E. rewrite !Z.eqb_eq in E. apply Hx.
      apply in_map_iff. exists it. split; [| exact Hin].
      unfold pos_i. f_equal; symmetry; tauto.
    + apply IH; assumption.
Qed.

(** X17.  In every reachable game no two living monsters share a cell and
    no living monster stands on the player's cell: two entries of the
    monster collection with positive hit points and the same coordinates are
    the same entry, and the monster lookup at the player's cell finds
    nothing. *)
Theorem living_entities_never_share_a_cell (g : Game) (Hr : reachable g) :
  (forall i j m n,
      nth_error (monsters g) i = Some m -> nth_error (monsters g) j = Some n ->
      0 < e_hp m -> 0 < e_hp n -> e_x m = e_x n -> e_y m = e_y n -> i = j)
  /\ (forall p, player g = Some p -> get_monster_at g (e_x p) (e_y p) = None).
Proof.
  destruct (reachable_occ g Hr) as [[Hnd Hpl _] _]. split.
  - intros i j m n Hi Hj Hm Hn Ex Ey.
    apply (NoDup_living_nth (monsters g) Hnd i j m n Hi Hj);
      [apply alive_hp; exact Hm | apply alive_hp; exact Hn |].
    unfold pos_e. rewrite Ex, Ey. reflexivity.
  - intros p Hp. apply get_monster_at_None. apply (Hpl p Hp).
Qed.

Lemma living_entities_never_share_a_cell_witness :
  exists p, player (game_of run_e) = Some p
            /\ get_monster_at (game_of run_e) (e_x p) (e_y p) = None.
Proof.
  eexists. split; [vm_compute; reflexivity |].
  apply (proj2 (living_entities_never_share_a_cell (game_of run_e)
                  (served_reachable _ run_e_served))).
  vm_compute. reflexivity.
Defined.

Lemma run_d_descended_reachable : reachable (game_of run_d_descended).
Proof.
  apply (reachable_step 10 right (game_of run_d) (rng_of run_d)
           (game_of run_d_descended) (rng_of run_d_descended) run_d_reachable).
  vm_compute. reflexivity.
Qed.

(** X18.  In every reachable game the player stands on a Floor tile (never
    on a wall, and never on the stairs: stepping there descends), and every
    monster with positive hit points stands inside the grid, off the border
    ring, on a walkable tile (floor or stairs). *)
Theorem everyone_stands_on_open_ground (g : Game) (Hr : reachable g) :
  (forall p, player g = Some p ->
             get_tile (tiles g) (e_x p) (e_y p) = Ok FLOOR)
  /\ (forall m, In m (monsters g) -> 0 < e_hp m ->
                1 <= e_x m <= width g - 2 /\ 1 <= e_y m <= height g - 2
                /\ exists v, get_tile (tiles g) (e_x m) (e_y m) = Ok v
                             /\ (v = FLOOR \/ v = STAIRS_DOWN)).
Proof.
  destruct (reachable_occ g Hr) as [[_ Hpl Hmt] _]. split.
  - intros p Hp. apply (Hpl p Hp).
  - intros m Hin Hhp. rewrite Forall_forall in Hmt.
    destruct (Hmt m Hin (proj2 (alive_hp m) Hhp)) as [Hx [Hy [v [Hv Hw]]]].
    cbn [pos_e fst snd] in Hx, Hy, Hv.
    destruct (inv_walk _ (reachable_inv g Hr) (e_x m) (e_y m) v Hx Hy Hv Hw)
      as [Hix Hiy].
    split; [exact Hix |]. split; [exact Hiy |].
    exists v. split; [exact Hv |]. destruct v; [discriminate | left | right]; reflexivity.
Qed.

Lemma everyone_stands_on_open_ground_witness :
  exists p, player (game_of run_d_descended) = Some p
            /\ get_tile (tiles (game_of run_d_descended)) (e_x p) (e_y p) = Ok FLOOR.
Proof.
  eexists. split; [vm_compute; reflexivity |].
  apply (proj1 (everyone_stands_on_open_ground (game_of run_d_descended)
                  run_d_descended_reachable)).
  vm_compute. reflexivity.
Defined.

(** X19.  In every reachable game the items on the ground lie on pairwise
    distinct Floor cells (so never on the stairs or in a wall), every weapon
    on the ground has power at least 1, and the item lookup at an item's cell
    finds that very item: nothing on the ground is shadowed by another
    item. *)
Theorem ground_items_lie_apart_on_floor (g : Game) (Hr : reachable g) :
  NoDup (map (fun it => (i_x it, i_y it)) (items g))
  /\ forall it, In it (items g) ->
       get_tile (tiles g) (i_x it) (i_y it) = Ok FLOOR
       /\ (i_kind it = weapon -> 1 <= i_power it)
       /\ get_item_at g (i_x it) (i_y it) = Some it.
Proof.
  destruct (reachable_occ g Hr) as [_ [[Hnd Hfl] _]]. split; [exact Hnd |].
  intros it Hin. rewrite Forall_forall in Hfl.
  destruct (Hfl it Hin) as [_ [_ [Ht Hp]]].
  split; [exact Ht | split; [exact Hp |]].
  apply NoDup_find_item; assumption.
Qed.

Lemma ground_items_lie_apart_on_floor_witness :
  NoDup (map (fun it => (i_x it, i_y it)) (items (game_of run_e))).
Proof.
  exact (proj1 (ground_items_lie_apart_on_floor (game_of run_e)
                  (served_reachable _ run_e_served))).
Defined.

(** X20.  In every reachable game the inventory holds only weapons, each of
    power at least 1; no weapon is equipped exactly when the inventory is
    empty; and an equipped weapon is carried and at least as strong as
    everything carried. *)
Theorem equipped_weapon_is_strongest_carried (g : Game) (Hr : reachable g) :
  (forall it, In it (inventory g) -> i_kind it = weapon /\ 1 <= i_power it)
  /\ (current_weapon g = None <-> inventory g = [])
  /\ (forall w, current_weapon g = Some w ->
        In w (inventory g)
        /\ forall it, In it (inventory g) -> i_power it <= i_power w).
Proof.
  destruct (reachable_occ g Hr) as [_ [_ [Hw Hinv]]].
  rewrite Forall_forall in Hinv. split; [exact Hinv |].
  destruct (current_weapon g) as [w |].
  - destruct Hw as [Hin Hall]. rewrite Forall_forall in Hall. split.
    + split; [discriminate |]. intros E. rewrite E in Hin. destruct Hin.
    + intros w' Hw'. injection Hw' as <-. split; assumption.
  - split; [split; [intros _; exact Hw | reflexivity] | discriminate].
Qed.

Lemma equipped_weapon_is_strongest_carried_witness :
  current_weapon (game_of run_c) = None <-> inventory (game_of run_c) = [].
Proof.
  exact (proj1 (proj2 (equipped_weapon_is_strongest_carried (game_of run_c)
                         run_c_reachable))).
Defined.

(** ** Nothing raises in a reachable game *)

Lemma no_raise_bind {A B : Type} (c : result A) (k : A -> result B) :
  no_raise c -> (forall a, c = Ok a -> no_raise (k a)) -> no_raise (bind c k).
Proof.
  intros [-> | [a ->]] Hk; cbn [bind]; [left; reflexivity | apply Hk; reflexivity].
Qed.

Lemma no_raise_Ok {A : Type} (a : A) : no_raise (Ok a).
Proof. right. exists a. reflexivity. Qed.

Lemma find_random_floor_nr (fuel : nat) (g : Game) (rng : Rng) :
  grid_ok (width g) (height g) (tiles g) -> 3 <= width g -> 3 <= height g ->
  no_raise (find_random_floor fuel g rng).
Proof.
  intros Hg Hw Hh.
  destruct (find_random_floor_no_raise fuel g Hg Hw Hh rng) as [E | [x [y [r E]]]].
  - left; exact E.
  - right. exists (x, y, r). exact E.
Qed.

Lemma spawn_monsters_nr (fuel n : nat) :
  forall g rng,
    grid_ok (width g) (height g) (tiles g) -> 3 <= width g -> 3 <= height g ->
    no_raise (spawn_monsters fuel n g rng).
Proof.
  induction n as [| n IH]; intros g rng Hg Hw Hh; cbn [spawn_monsters].
  - apply no_raise_Ok.
  - apply no_raise_bind; [apply find_random_floor_nr; assumption |].
    intros [[mx my] rng1] _. cbv zeta. apply IH; game_simpl; assumption.
Qed.

Lemma spawn_nezha_nr (fuel : nat) (g : Game) (rng : Rng) :
  grid_ok (width g) (height g) (tiles g) -> 3 <= width g -> 3 <= height g ->
  no_raise (spawn_nezha fuel g rng).
Proof.
  intros Hg Hw Hh. unfold spawn_nezha.
  destruct ((2 <=? level g) && (nezha_phase g <? 3)); [| apply no_raise_Ok].
  apply no_raise_bind; [apply find_random_floor_nr; assumption |].
  intros [[nx ny] rng1] _. apply no_raise_Ok.
Qed.

Lemma spawn_items_nr (fuel n : nat) :
  forall g rng,
    grid_ok (width g) (height g) (tiles g) -> 3 <= width g -> 3 <= height g ->
    no_raise (spawn_items fuel n g rng).
Proof.
  induction n as [| n IH]; intros g rng Hg Hw Hh; cbn [spawn_items].
  - apply no_raise_Ok.
  - apply no_raise_bind; [apply find_random_floor_nr; assumption |].
    intros [[ix iy] rng1] _.
    destruct (random_choice weapon [weapon; potion] rng1) as [[|] rng2].
    + destruct (random_choice ("/", "Rusty Dagger", 1)
                  [("/", "Short Sword", 2); (")", "War Axe", 3); (")", "Crystal Blade", 4)]
                  rng2) as [[[c nm] pw] rng3].
      cbv zeta. apply IH; game_simpl; assumption.
    + cbv zeta. apply IH; game_simpl; assumption.
Qed.

Lemma new_level_nr (fuel : nat) (first : bool) (g : Game) (rng : Rng) :
  3 <= width g -> 3 <= height g -> no_raise (new_level fuel first g rng).
Proof.
  intros Hw Hh. unfold new_level.
  set (g0 := if first then g
             else add_message (set_level g (level g + 1))
                    ("You descend to cavern level "
                       ++ str_of_int (level (set_level g (level g + 1))) ++ ".")%string).
  assert (E0 : width g0 = width g /\ height g0 = height g).
  { unfold g0. destruct first; game_simpl; split; reflexivity. }
  clearbody g0. destruct E0 as [Ew Eh]. cbv zeta. game_simpl. rewrite Ew, Eh.
  destruct (carve_spec (Z.to_nat (width g * height g * 4)) (width g) (height g)
              Hw Hh (blank_tiles (width g) (height g)) (width g / 2) (height g / 2) rng
              (centre_interior _ _ Hw Hh) (blank_tiles_carved _ _)
              (blank_tiles_near _ _ _)) as [t [rng1 [Hc [Hcarved _]]]].
  rewrite Hc. cbn [bind]. game_simpl.
  pose proof (carved_grid _ _ _ Hcarved) as Hgrid.
  apply no_raise_bind.
  { apply find_random_floor_nr; game_simpl; rewrite ?Ew, ?Eh; assumption. }
  intros [[px py] rng2] _.
  match goal with |- context [spawn_monsters fuel _ ?gq rng2] => set (g2 := gq) end.
  assert (E2 : width g2 = width g /\ height g2 = height g /\ tiles g2 = t).
  { unfold g2. destruct first; [| destruct (player _)]; game_simpl;
      rewrite ?Ew, ?Eh; repeat split. }
  clearbody g2. destruct E2 as [Ew2 [Eh2 Et2]].
  apply no_raise_bind.
  { apply spawn_monsters_nr; rewrite ?Ew2, ?Eh2, ?Et2; assumption. }
  intros [g3 rng3] H3. apply spawn_monsters_shape in H3. destruct H3 as [ms [E3 _]].
  assert (F3 : width g3 = width g /\ height g3 = height g /\ tiles g3 = t).
  { rewrite E3. game_simpl. repeat split; assumption. }
  clear E3. destruct F3 as [Ew3 [Eh3 Et3]].
  apply no_raise_bind.
  { apply spawn_nezha_nr; rewrite ?Ew3, ?Eh3, ?Et3; assumption. }
  intros [g4 rng4] H4. apply spawn_nezha_shape in H4. destruct H4 as [_ H4].
  assert (F4 : width g4 = width g /\ height g4 = height g /\ tiles g4 = t).
  { destruct H4 as [[_ [nx [ny [msgs [l [_ ->]]]]]] | [_ ->]]; game_simpl;
      repeat split; assumption. }
  clear H4. destruct F4 as [Ew4 [Eh4 Et4]].
  apply no_raise_bind.
  { apply spawn_items_nr; game_simpl; rewrite ?Ew4, ?Eh4, ?Et4; assumption. }
  intros [g5 rng5] H5. apply spawn_items_shape in H5. destruct H5 as [its [E5 _]].
  assert (F5 : width g5 = width g /\ height g5 = height g /\ tiles g5 = t).
  { rewrite E5. game_simpl. repeat split; assumption. }
  clear E5. destruct F5 as [Ew5 [Eh5 Et5]].
  apply no_raise_bind.
  { apply find_random_floor_nr; rewrite ?Ew5, ?Eh5, ?Et5; assumption. }
  intros [[sx sy] rng6] H6. apply find_random_floor_spec in H6.
  destruct H6 as [[Hsx Hsy] _]. rewrite Ew5, Eh5 in *.
  destruct (set_tile_in_bounds (width g) (height g) t sx sy STAIRS_DOWN Hgrid
              ltac:(lia) ltac:(lia)) as [t2 Hset].
  rewrite Et5, Hset. cbn [bind]. apply no_raise_Ok.
Qed.

(** A move returns, unless it steps onto the free stairs and the generator
    keeps sampling. *)
Lemma move_player_nr (fuel : nat) (dx dy : Z) (g : Game) (rng : Rng) :
  game_inv g ->
  (exists g' rng', move_player fuel dx dy g rng = Ok (g', rng'))
  \/ (move_player fuel dx dy g rng = Timeout
      /\ exists p, player g = Some p
           /\ get_monster_at g (e_x p + dx) (e_y p + dy) = None
           /\ get_tile (tiles g) (e_x p + dx) (e_y p + dy) = Ok STAIRS_DOWN).
Proof.
  intros Hinv. unfold move_player.
  destruct (inv_player _ Hinv) as [p [Ep [Hpos Hhp]]]. rewrite Ep. cbv zeta.
  destruct (in_bounds g (e_x p + dx) (e_y p + dy)) eqn:Eb; cbn [negb].
  2:{ left. do 2 eexists. reflexivity. }
  apply in_bounds_true in Eb.
  destruct (get_monster_at g (e_x p + dx) (e_y p + dy)) as [[i target] |] eqn:Em.
  - left.
    destruct (player_attack_damage_total g rng) as [dmg [rng1 [-> _]]]. cbn [bind e_hp].
    match goal with |- context [monsters_take_turns ?gq rng1] =>
      destruct (monsters_take_turns_inv gq rng1) as [g3 [rng3 [-> _]]] end.
    2:{ cbn [bind]. do 2 eexists. reflexivity. }
    destruct (e_hp target - dmg <=? 0); [destruct (is_nezha _) |].
    + match goal with |- game_inv (_osc_send ?a ?b ?gq) =>
        destruct (_osc_send_frame a b gq) as [l ->] end.
      destruct Hinv. constructor; game_simpl; try assumption. lia.
    + eapply game_inv_same; [.. | exact Hinv]; reflexivity.
    + eapply game_inv_same; [.. | exact Hinv]; reflexivity.
  - destruct (get_tile_in_bounds _ _ _ (e_x p + dx) (e_y p + dy) (inv_grid _ Hinv)
                ltac:(lia) ltac:(lia)) as [v Hv].
    rewrite Hv. cbn [bind]. destruct v.
    + left. do 2 eexists. reflexivity.
    + left.
      match goal with |- context [monsters_take_turns ?gq rng] =>
        destruct (monsters_take_turns_inv gq rng) as [g3 [rng3 [-> _]]] end.
      2:{ cbn [bind]. do 2 eexists. reflexivity. }
      apply check_pickup_inv.
      pose proof (inv_walk _ Hinv (e_x p + dx) (e_y p + dy) FLOOR
                    ltac:(lia) ltac:(lia) Hv eq_refl) as Hint.
      destruct Hinv. constructor; game_simpl; try assumption.
      eexists. split; [reflexivity |]. cbn [e_x e_y e_hp]. split; assumption.
    + match goal with |- context [new_level fuel false ?gq rng] =>
        destruct (new_level_nr fuel false gq rng) as [E | [[g1 rng1] E]] end.
      * game_simpl. exact (inv_w3 _ Hinv).
      * game_simpl. exact (inv_h3 _ Hinv).
      * right. split; [exact E |]. exists p. split; [reflexivity | split; [exact Em | exact Hv]].
      * left. exists g1, rng1. exact E.
Qed.

Lemma apply_command_nr (fuel : nat) (c : Command) (g : Game) (rng : Rng) :
  game_inv g ->
  (exists g' rng', apply_command fuel c g rng = Ok (g', rng'))
  \/ (apply_command fuel c g rng = Timeout
      /\ exists p dx dy,
           moves c = Some (dx, dy) /\ player g = Some p
           /\ get_monster_at g (e_x p + dx) (e_y p + dy) = None
           /\ get_tile (tiles g) (e_x p + dx) (e_y p + dy) = Ok STAIRS_DOWN).
Proof.
  intros Hinv. unfold apply_command.
  destruct (moves c) as [[dx dy] |] eqn:Ec.
  - destruct (move_player_nr fuel dx dy g rng Hinv) as [H | [H [p [Hp [Hm Ht]]]]].
    + left; exact H.
    + right. split; [exact H |]. exists p, dx, dy. repeat split; assumption.
  - left. destruct (wait_turn_inv g rng Hinv) as [g1 [rng1 [H _]]].
    exists g1, rng1. exact H.
Qed.

Lemma new_game_nr (fuel : nat) (w h nm ni : Z) (rng : Rng) :
  3 <= w -> 3 <= h -> no_raise (new_game fuel w h nm ni rng).
Proof.
  intros Hw Hh. unfold new_game. apply no_raise_bind.
  - apply new_level_nr; cbn [fresh width height]; assumption.
  - intros [g rng1] _. apply no_raise_Ok.
Qed.

(** X21.  In a reachable game no dispatched command raises.  Waiting and
    every move return a new state, with one exception: a move onto the
    stairs with no living monster on them enters the level generator, whose
    floor search may keep sampling; nothing else fails to return. *)
Theorem commands_never_raise
        (fuel : nat) (c : Command) (g : Game) (rng : Rng) (Hr : reachable g) :
  (exists g' rng', apply_command fuel c g rng = Ok (g', rng'))
  \/ (apply_command fuel c g rng = Timeout
      /\ exists p dx dy,
           moves c = Some (dx, dy) /\ player g = Some p
           /\ get_monster_at g (e_x p + dx) (e_y p + dy) = None
           /\ get_tile (tiles g) (e_x p + dx) (e_y p + dy) = Ok STAIRS_DOWN).
Proof. apply apply_command_nr. apply reachable_inv. exact Hr. Qed.

Lemma commands_never_raise_witness :
  (exists g' rng', apply_command 10 right (game_of run_d) (rng_of run_d) = Ok (g', rng'))
  \/ (apply_command 10 right (game_of run_d) (rng_of run_d) = Timeout
      /\ exists p dx dy,
           moves right = Some (dx, dy) /\ player (game_of run_d) = Some p
           /\ get_monster_at (game_of run_d) (e_x p + dx) (e_y p + dy) = None
           /\ get_tile (tiles (game_of run_d)) (e_x p + dx) (e_y p + dy)
              = Ok STAIRS_DOWN).
Proof.
  exact (commands_never_raise 10 right (game_of run_d) (rng_of run_d) run_d_reachable).
Defined.

(** X22.  Constructing a game on a grid at least 3 cells wide and 3 cells
    high never raises, whatever the configured numbers of monsters and items
    and whatever the random source: construction returns a game, or its floor
    search keeps sampling. *)
Theorem big_enough_grid_never_raises
        (fuel : nat) (w h nm ni : Z) (rng : Rng) (Hw : 3 <= w) (Hh : 3 <= h) :
  new_game fuel w h nm ni rng = Timeout
  \/ exists g rng', new_game fuel w h nm ni rng = Ok (g, rng').
Proof.
  destruct (new_game_nr fuel w h nm ni rng Hw Hh) as [E | [[g rng'] E]].
  - left; exact E.
  - right. exists g, rng'. exact E.
Qed.

Lemma big_enough_grid_never_raises_witness :
  new_game 10 5 5 1 0 run_a_rng = Timeout
  \/ exists g rng', new_game 10 5 5 1 0 run_a_rng = Ok (g, rng').
Proof.
  apply (big_enough_grid_never_raises 10 5 5 1 0 run_a_rng); lia.
Defined.

(** ** The two walkability tests *)

Lemma first_monster_existsb (ms : list Entity) (x y : Z) :
  forall k,
    is_none (option_map snd (first_monster ms x y k))
    = negb (existsb (monster_here x y) ms).
Proof.
  induction ms as [| m ms IH]; intros k; cbn [first_monster existsb]; [reflexivity |].
  destruct (monster_here x y m); cbn [orb]; [reflexivity | apply IH].
Qed.

(** X23.  The engine's two walkability tests agree on every game state and
    every cell: [is_walkable], which asks the entity lookup (player first,
    then living monsters), and [is_walkable_for_monster], which scans the
    monsters and then the player, give the same answer and fail on the same
    malformed grids. *)
Theorem walkability_tests_agree (g : Game) (x y : Z) :
  is_walkable g x y = is_walkable_for_monster g x y.
Proof.
  unfold is_walkable, is_walkable_for_monster.
  destruct (in_bounds g x y); cbn [negb]; [| reflexivity].
  destruct (get_tile (tiles g) x y) as [v | e |]; cbn [bind]; try reflexivity.
  destruct (walkable_tile v); cbn [negb]; [| reflexivity].
  unfold get_entity_at.
  pose proof (first_monster_existsb (monsters g) x y 0) as Hm.
  destruct (player g) as [p |].
  - destruct ((e_x p =? x) && (e_y p =? y)).
    + cbn [is_none]. destruct (existsb _ _); reflexivity.
    + rewrite Hm. destruct (existsb _ _); reflexivity.
  - rewrite Hm. destruct (existsb _ _); reflexivity.
Qed.

(** ** One monster's turn, case by case *)

Lemma monster_step_bound (chase : bool) (p m : Entity) (rng1 : Rng)
      (dx dy : Z) (rng2 : Rng) :
  (if chase
   then (Z.sgn (e_x p - e_x m), Z.sgn (e_y p - e_y m), rng1)
   else random_choice (1, 0) [(-1, 0); (0, 1); (0, -1); (0, 0)] rng1)
  = (dx, dy, rng2) ->
  -1 <= dx <= 1 /\ -1 <= dy <= 1.
Proof.
  destruct chase; intros H.
  - injection H as <- <- _.
    pose proof (Z.sgn_spec (e_x p - e_x m)). pose proof (Z.sgn_spec (e_y p - e_y m)).
    lia.
  - pose proof (random_choice_In (1, 0) [(-1, 0); (0, 1); (0, -1); (0, 0)] rng1) as Hin.
    rewrite H in Hin. cbn [fst In] in Hin.
    destruct Hin as [E | [E | [E | [E | [E | []]]]]]; injection E as <- <-; lia.
Qed.

Lemma monster_turn_cases (i : nat) (g : Game) (rng : Rng) (g' : Game) (rng' : Rng)
      (p : Entity) :
  player g = Some p ->
  monster_turn i g rng = Ok (g', rng') ->
  g' = g
  \/ (exists m dmg msgs l,
         nth_error (monsters g) i = Some m /\ 0 < e_hp m
         /\ Z.abs (e_x p - e_x m) <= 1 /\ Z.abs (e_y p - e_y m) <= 1
         /\ (let bonus := Z.max 0 (level g - 1) / 2
                          + (if is_nezha m then 1 + nezha_phase g else 0) in
             1 + bonus <= dmg <= 3 + bonus)
         /\ g' = set_osc_sent
                   (set_messages
                      (set_player g
                         (Some (mkEntity (e_x p) (e_y p) (e_char p) (e_name p)
                                         (e_hp p - dmg))))
                      msgs) l)
  \/ (exists m dx dy,
         nth_error (monsters g) i = Some m /\ 0 < e_hp m
         /\ -1 <= dx <= 1 /\ -1 <= dy <= 1
         /\ is_walkable_for_monster g (e_x m + dx) (e_y m + dy) = Ok true
         /\ g' = set_monsters g
                   (replace_nth i (monsters g)
                      (mkEntity (e_x m + dx) (e_y m + dy) (e_char m) (e_name m)
                                (e_hp m)))).
Proof.
  intros Ep. unfold monster_turn. rewrite Ep.
  destruct (nth_error (monsters g) i) as [m |] eqn:Em; [| intros H; inv_Ok H; left; reflexivity].
  destruct (Z.leb_spec (e_hp m) 0) as [Hle | Hhp]; [intros H; inv_Ok H; left; reflexivity |].
  destruct (random_lt (if is_nezha m then 90%nat else 75%nat) rng) as [chase rng1].
  destruct (if chase
            then (Z.sgn (e_x p - e_x m), Z.sgn (e_y p - e_y m), rng1)
            else random_choice (1, 0) [(-1, 0); (0, 1); (0, -1); (0, 0)] rng1)
    as [[dx dy] rng2] eqn:Ed.
  apply monster_step_bound in Ed. cbv zeta.
  destruct ((e_x m + dx =? e_x p) && (e_y m + dy =? e_y p)) eqn:Eat.
  - apply andb_prop in Eat. rewrite !Z.eqb_eq in Eat.
    rewrite random_randint_total by lia. cbn [bind e_hp].
    set (r := 1 + Z.of_nat (src rng2 (cur rng2)) mod (3 - 1 + 1)).
    assert (Hr : 1 <= r <= 3).
    { unfold r. pose proof (Z.mod_pos_bound (Z.of_nat (src rng2 (cur rng2))) (3 - 1 + 1)).
      lia. }
    clearbody r.
    set (dmg := if is_nezha m
                then r + Z.max 0 (level g - 1) / 2 + (1 + nezha_phase g)
                else r + Z.max 0 (level g - 1) / 2).
    assert (Hdmg : 1 + (Z.max 0 (level g - 1) / 2
                        + (if is_nezha m then 1 + nezha_phase g else 0)) <= dmg
                   <= 3 + (Z.max 0 (level g - 1) / 2
                           + (if is_nezha m then 1 + nezha_phase g else 0))).
    { unfold dmg. destruct (is_nezha m); lia. }
    clearbody dmg.
    intros H. right; left. exists m, dmg.
    destruct (e_hp p - dmg <=? 0); inv_Ok H;
      match goal with |- context [_send_osc_state ?e ?gq] =>
        destruct (_send_osc_state_frame e gq) as [l ->] end;
      game_simpl; do 2 eexists;
      (split; [reflexivity |]); (split; [exact Hhp |]);
      (split; [lia |]); (split; [lia |]); (split; [exact Hdmg |]); reflexivity.
  - intros H. inv_bind H. destruct a; inv_Ok H; [| left; reflexivity].
    right; right. exists m, dx, dy.
    split; [reflexivity |]. split; [exact Hhp |]. split; [tauto |]. split; [tauto |].
    split; [exact Hrun | reflexivity].
Qed.

(** X24.  A monster can hurt the player only from a neighbouring cell,
    diagonals included, and only while its own hit points are positive.  One
    monster's turn never moves the player; it either leaves the player's hit
    points alone, or takes between 1 and 3 from them, plus [max(0, level - 1)
    // 2], plus [1 + phase] when the monster is named Nezha, and then no
    monster moves. *)
Theorem monster_hits_only_when_adjacent
        (i : nat) (g : Game) (rng : Rng) (g' : Game) (rng' : Rng) (p : Entity)
        (Hp : player g = Some p)
        (H : monster_turn i g rng = Ok (g', rng')) :
  exists p',
    player g' = Some p' /\ e_x p' = e_x p /\ e_y p' = e_y p
    /\ (e_hp p' = e_hp p
        \/ exists m,
             nth_error (monsters g) i = Some m /\ 0 < e_hp m
             /\ Z.abs (e_x p - e_x m) <= 1 /\ Z.abs (e_y p - e_y m) <= 1
             /\ (let bonus := Z.max 0 (level g - 1) / 2
                              + (if is_nezha m then 1 + nezha_phase g else 0) in
                 1 + bonus <= e_hp p - e_hp p' <= 3 + bonus)
             /\ monsters g' = monsters g).
Proof.
  destruct (monster_turn_cases i g rng g' rng' p Hp H)
    as [-> | [(m & dmg & msgs & l & Hm & Hhp & Hx & Hy & Hd & ->)
             | (m & dx & dy & Hm & Hhp & _ & _ & _ & ->)]].
  - exists p. repeat split; try assumption. left; reflexivity.
  - eexists. game_simpl. split; [reflexivity |]. cbn [e_x e_y e_hp].
    split; [reflexivity |]. split; [reflexivity |]. right.
    exists m. split; [exact Hm |]. split; [exact Hhp |].
    split; [exact Hx |]. split; [exact Hy |].
    split; [| reflexivity]. cbv zeta in *. lia.
  - exists p. game_simpl. repeat split; try assumption. left; reflexivity.
Qed.

Lemma monster_hits_only_when_adjacent_witness :
  exists p',
    player (game_of (monster_turn 0 (game_of run_a) (rng_of run_a))) = Some p'
    /\ e_x p' = 2 /\ e_y p' = 2
    /\ (e_hp p' = 10
        \/ exists m,
             nth_error (monsters (game_of run_a)) 0 = Some m /\ 0 < e_hp m
             /\ Z.abs (2 - e_x m) <= 1 /\ Z.abs (2 - e_y m) <= 1
             /\ (let bonus := Z.max 0 (level (game_of run_a) - 1) / 2
                              + (if is_nezha m
                                 then 1 + nezha_phase (game_of run_a) else 0) in
                 1 + bonus <= 10 - e_hp p' <= 3 + bonus)
             /\ monsters (game_of (monster_turn 0 (game_of run_a) (rng_of run_a)))
                = monsters (game_of run_a)).
Proof.
  apply (monster_hits_only_when_adjacent 0 (game_of run_a) (rng_of run_a)
           (game_of (monster_turn 0 (game_of run_a) (rng_of run_a)))
           (rng_of (monster_turn 0 (game_of run_a) (rng_of run_a)))
           (mkEntity 2 2 "@" "Player" 10)).
  - vm_compute. reflexivity.
  - vm_compute. reflexivity.
Defined.

(** ** Who and what is on a level *)

Lemma filter_length_replace {A : Type} (P : A -> bool) (l : list A) (i : nat) (a b : A) :
  nth_error l i = Some a -> P b = P a ->
  List.length (filter P (replace_nth i l b)) = List.length (filter P l).
Proof.
  intros Hn E. destruct (replace_nth_split l i a Hn) as [l1 [l2 [-> Hrep]]].
  rewrite Hrep, !filter_app, !length_app. cbn [filter]. rewrite E.
  destruct (P a); reflexivity.
Qed.

Lemma filter_filter_length {A : Type} (P Q : A -> bool) (l : list A) :
  (List.length (filter P (filter Q l)) <= List.length (filter P l))%nat.
Proof.
  induction l as [| a l IH]; [reflexivity |].
  cbn [filter]. destruct (Q a); cbn [filter]; destruct (P a); cbn [List.length]; lia.
Qed.

Lemma length_list_remove (v : Item) (l : list Item) :
  (List.length (list_remove v l) <= List.length l)%nat.
Proof.
  induction l as [| h t IH]; [reflexivity |].
  cbn [list_remove]. destruct (Item_eqb h v); cbn [List.length]; lia.
Qed.

Lemma monster_kind_ok_mono (g g' : Game) (m m' : Entity) :
  level g' = level g -> nezha_phase g <= nezha_phase g' ->
  e_name m' = e_name m -> e_char m' = e_char m -> e_hp m' <= e_hp m ->
  monster_kind_ok g m -> monster_kind_ok g' m'.
Proof.
  intros El Ep En Ec Eh. unfold monster_kind_ok. rewrite El, En, Ec.
  intros [[H1 [H2 H3]] | [H1 [H2 [H3 H4]]]]; [left | right]; repeat split;
    try assumption; lia.
Qed.

Lemma roster_ok_same (g g' : Game) :
  level g' = level g -> nezha_phase g <= nezha_phase g' ->
  num_monsters g' = num_monsters g -> num_items g' = num_items g ->
  monsters g' = monsters g -> items g' = items g ->
  roster_ok g -> roster_ok g'.
Proof.
  intros El Ep Enm Eni Em Ei [H1 H2 H3 H4 H5].
  constructor; rewrite ?Em, ?Ei, ?Enm, ?Eni; try assumption.
  - eapply Forall_impl; [| exact H1]. intros m.
    apply monster_kind_ok_mono; try assumption; try reflexivity; lia.
  - eapply Forall_impl; [| exact H5]. intros it. unfold item_kind_ok.
    rewrite El. exact (fun H => H).
Qed.

(** The monster at index [i] is replaced by one of the same name and glyph
    whose hit points are no higher. *)
Lemma roster_ok_replace (g : Game) (i : nat) (m m' : Entity) :
  roster_ok g -> nth_error (monsters g) i = Some m ->
  e_name m' = e_name m -> e_char m' = e_char m -> e_hp m' <= e_hp m ->
  roster_ok (set_monsters g (replace_nth i (monsters g) m')).
Proof.
  intros [H1 H2 H3 H4 H5] Hn En Ec Eh.
  assert (Ez : is_nezha m' = is_nezha m) by (unfold is_nezha; rewrite En; reflexivity).
  constructor; game_simpl; try assumption.
  - rewrite Forall_forall in *. intros a Hin.
    apply In_replace_nth in Hin. destruct Hin as [-> | Hin].
    + apply (monster_kind_ok_mono g _ m m'); try assumption; try reflexivity; try lia.
      apply H1. eapply nth_error_In; eauto.
    + apply (monster_kind_ok_mono g _ a a); try reflexivity; try lia.
      apply H1; exact Hin.
  - rewrite (filter_length_replace is_nezha _ i m m' Hn Ez). exact H2.
  - rewrite (filter_length_replace (fun m => negb (is_nezha m)) _ i m m' Hn);
      [exact H3 | rewrite Ez; reflexivity].
Qed.

Lemma monster_turn_roster (i : nat) (g : Game) (rng : Rng) (g' : Game) (rng' : Rng) :
  roster_ok g -> monster_turn i g rng = Ok (g', rng') -> roster_ok g'.
Proof.
  intros Hok H. destruct (player g) as [p |] eqn:Ep.
  - destruct (monster_turn_cases i g rng g' rng' p Ep H)
      as [-> | [(m & dmg & msgs & l & _ & _ & _ & _ & _ & ->)
               | (m & dx & dy & Hm & _ & _ & _ & _ & ->)]].
    + exact Hok.
    + eapply roster_ok_same; [.. | exact Hok]; game_simpl; try reflexivity; lia.
    + apply (roster_ok_replace g i m); try assumption; reflexivity.
  - unfold monster_turn in H. rewrite Ep in H. inv_Ok H. exact Hok.
Qed.

Lemma monsters_loop_roster (idx : list nat) :
  forall g rng g' rng',
    roster_ok g -> monsters_loop idx g rng = Ok (g', rng') -> roster_ok g'.
Proof.
  induction idx as [| i rest IH]; intros g rng g' rng' Hok H; cbn [monsters_loop] in H.
  - inv_Ok H. exact Hok.
  - inv_bind H. destruct a as [g1 rng1].
    eapply IH; [| exact H]. eapply monster_turn_roster; eauto.
Qed.

Lemma monsters_take_turns_roster (g : Game) (rng : Rng) (g' : Game) (rng' : Rng) :
  roster_ok g -> monsters_take_turns g rng = Ok (g', rng') -> roster_ok g'.
Proof.
  intros Hok. unfold monsters_take_turns.
  destruct (player g); [| intros H; inv_Ok H; exact Hok].
  cbv zeta.
  assert (Hok1 : roster_ok (set_monster_turn_counter g (_monster_turn_counter g + 1))).
  { eapply roster_ok_same; [.. | exact Hok]; game_simpl; try reflexivity; lia. }
  destruct (_monster_turn_counter
              (set_monster_turn_counter g (_monster_turn_counter g + 1)) mod 2 =? 1).
  - intros H. inv_Ok H. exact Hok1.
  - intros H. inv_bind H. destruct a as [g1 rng1]. inv_Ok H.
    apply monsters_loop_roster in Hrun; [| exact Hok1].
    destruct Hrun as [H1 H2 H3 H4 H5]. constructor; game_simpl; try assumption.
    + rewrite Forall_forall in *. intros m Hin. apply filter_In in Hin.
      apply (monster_kind_ok_mono g1 _ m m); try reflexivity; try lia.
      apply H1. apply Hin.
    + etransitivity; [apply filter_filter_length | exact H2].
    + etransitivity; [apply filter_filter_length | exact H3].
Qed.

Lemma check_pickup_roster (g : Game) : roster_ok g -> roster_ok (check_pickup g).
Proof.
  intros Hok. unfold check_pickup.
  destruct (player g) as [p |]; [| exact Hok].
  destruct (get_item_at g (e_x p) (e_y p)) as [item |]; [| exact Hok].
  assert (Hrm : roster_ok (set_items g (list_remove item (items g)))).
  { destruct Hok as [H1 H2 H3 H4 H5]. constructor; game_simpl; try assumption.
    - etransitivity; [apply length_list_remove | exact H4].
    - rewrite Forall_forall in *. intros it Hin. apply In_list_remove in Hin.
      apply H5 in Hin. exact Hin. }
  destruct (i_kind item); cbv zeta;
    match goal with |- context [_send_osc_state ?e ?gq] =>
      destruct (_send_osc_state_frame e gq) as [l ->] end.
  - unfold auto_equip_weapon. game_simpl.
    match goal with |- context [if ?c then _ else _] => destruct c end;
      (eapply roster_ok_same; [.. | exact Hrm]; game_simpl; try reflexivity; lia).
  - destruct (0 <? Z.min (MAX_HP - e_hp p) (i_power item));
      (eapply roster_ok_same; [.. | exact Hrm]; game_simpl; try reflexivity; lia).
Qed.

Lemma new_level_roster (fuel : nat) (first : bool) (g : Game) (rng : Rng)
      (g' : Game) (rng' : Rng) :
  new_level fuel first g rng = Ok (g', rng') -> roster_ok g'.
Proof.
  intros H. pose proof (new_level_boss _ _ _ _ _ _ H) as [_ Hboss].
  apply new_level_spec in H.
  destruct (gen_monsters _ _ _ H) as [ms [nz [Em [Hlen [Hgob Hnz]]]]].
  destruct (gen_items _ _ _ H) as [Hil Hit].
  pose proof (gen_phase _ _ _ H) as gen_phase0.
  pose proof (gen_num_monsters _ _ _ H) as gen_num_monsters0.
  pose proof (gen_num_items _ _ _ H) as gen_num_items0.
  constructor.
  - rewrite Em. apply Forall_app. split.
    + eapply Forall_impl; [| exact Hgob]. intros m [Hn [Hc [Hh _]]].
      left. repeat split; try assumption. lia.
    + destruct Hnz as [[Hc [nx [ny [_ ->]]]] | [_ ->]]; [| constructor].
      constructor; [| constructor]. right. cbn [e_name e_char e_hp].
      apply andb_prop in Hc. destruct Hc as [Hl Hp].
      apply Z.leb_le in Hl. apply Z.ltb_lt in Hp. rewrite gen_phase0.
      repeat split; try assumption. lia.
  - destruct Hboss as [[_ [nx [ny ->]]] | [_ ->]]; cbn [List.length]; lia.
  - rewrite Em, filter_app, length_app, gen_num_monsters0, <- Hlen.
    assert (Hz : filter (fun m => negb (is_nezha m)) nz = []).
    { destruct Hnz as [[_ [nx [ny [_ ->]]]] | [_ ->]]; reflexivity. }
    rewrite Hz. cbn [List.length]. pose proof (filter_length_le (fun m => negb (is_nezha m)) ms).
    lia.
  - rewrite Hil, gen_num_items0. lia.
  - eapply Forall_impl; [| exact Hit]. intros it [_ Hk]. exact Hk.
Qed.

Lemma player_attack_damage_pos (g : Game) (rng : Rng) (dmg : Z) (rng' : Rng) :
  carry_ok g -> player_attack_damage g rng = Ok (dmg, rng') -> 1 <= dmg.
Proof.
  intros [Hw Hinv] H. unfold player_attack_damage in H.
  rewrite random_randint_total in H by lia. cbn [bind] in H.
  remember (1 + Z.of_nat (src rng (cur rng)) mod (4 - 1 + 1)) as b eqn:Eb.
  injection H as <- _.
  pose proof (Z.mod_pos_bound (Z.of_nat (src rng (cur rng))) (4 - 1 + 1) ltac:(lia)).
  pose proof (Z.div_pos (Z.max 0 (level g - 1)) 2 ltac:(lia) ltac:(lia)).
  assert (0 <= match current_weapon g with Some w => i_power w | None => 0 end).
  { destruct (current_weapon g) as [w |]; [| lia].
    destruct Hw as [Hin _]. rewrite Forall_forall in Hinv.
    destruct (Hinv w Hin). lia. }
  lia.
Qed.

Lemma move_player_roster (fuel : nat) (dx dy : Z) (g : Game) (rng : Rng)
      (g' : Game) (rng' : Rng) :
  game_inv g -> carry_ok g -> roster_ok g ->
  move_player fuel dx dy g rng = Ok (g', rng') -> roster_ok g'.
Proof.
  intros Hinv Hcarry Hok H. unfold move_player in H.
  destruct (player g) as [p |] eqn:Ep; [| inv_Ok H; exact Hok].
  cbv zeta in H.
  destruct (in_bounds g (e_x p + dx) (e_y p + dy)) eqn:Eb; cbn [negb] in H.
  2:{ inv_Ok H. destruct (_send_osc_state_frame "bump_edge"
                            (add_message g "You bump into the edge of the concrete grid."))
        as [l ->].
      eapply roster_ok_same; [.. | exact Hok]; game_simpl; try reflexivity; lia. }
  destruct (get_monster_at g (e_x p + dx) (e_y p + dy)) as [[i target] |] eqn:Em.
  - inv_bind H. destruct a as [dmg rng1]. inv_bind H. destruct a as [g2 rng2].
    inv_Ok H.
    match goal with |- roster_ok (_send_osc_state ?e ?gq) =>
      destruct (_send_osc_state_frame e gq) as [l ->] end.
    apply player_attack_damage_pos in Hrun; [| exact Hcarry].
    unfold get_monster_at in Em. apply first_monster_spec in Em.
    destruct Em as [_ [Hn _]]. rewrite Nat.sub_0_r in Hn.
    pose proof (roster_ok_replace g i target
                  (mkEntity (e_x target) (e_y target) (e_char target) (e_name target)
                     (e_hp target - dmg)) Hok Hn eq_refl eq_refl
                  ltac:(cbn [e_hp]; lia)) as Hok'.
    pose proof (inv_phase _ Hinv) as Hph.
    apply monsters_take_turns_roster in Hrun0.
    + eapply roster_ok_same; [.. | exact Hrun0]; game_simpl; try reflexivity; lia.
    + cbn [e_hp].
      destruct (e_hp target - dmg <=? 0); [destruct (is_nezha _) |];
        try match goal with |- context [_osc_send ?a ?b ?gq] =>
              destruct (_osc_send_frame a b gq) as [l1 ->] end;
        (eapply roster_ok_same; [.. | exact Hok']; game_simpl; try reflexivity; lia).
  - inv_bind H. destruct a.
    + inv_Ok H.
      match goal with |- roster_ok (_send_osc_state ?e ?gq) =>
        destruct (_send_osc_state_frame e gq) as [l ->] end.
      eapply roster_ok_same; [.. | exact Hok]; game_simpl; try reflexivity; lia.
    + inv_bind H. destruct a as [g2 rng2]. inv_Ok H.
      match goal with |- roster_ok (_send_osc_state ?e ?gq) =>
        destruct (_send_osc_state_frame e gq) as [l ->] end.
      apply monsters_take_turns_roster in Hrun0.
      * eapply roster_ok_same; [.. | exact Hrun0]; game_simpl; try reflexivity; lia.
      * apply check_pickup_roster.
        eapply roster_ok_same; [.. | exact Hok]; game_simpl; try reflexivity; lia.
    + eapply new_level_roster; exact H.
Qed.

Lemma wait_turn_roster (g : Game) (rng : Rng) (g' : Game) (rng' : Rng) :
  roster_ok g -> wait_turn g rng = Ok (g', rng') -> roster_ok g'.
Proof.
  intros Hok H. unfold wait_turn in H. inv_bind H. destruct a as [g1 rng1]. inv_Ok H.
  match goal with |- roster_ok (_send_osc_state ?e ?gq) =>
    destruct (_send_osc_state_frame e gq) as [l ->] end.
  apply monsters_take_turns_roster in Hrun.
  - eapply roster_ok_same; [.. | exact Hrun]; game_simpl; try reflexivity; lia.
  - eapply roster_ok_same; [.. | exact Hok]; game_simpl; try reflexivity; lia.
Qed.

Lemma reachable_roster (g : Game) : reachable g -> roster_ok g.
Proof.
  induction 1 as [fuel w h nm ni rng g rng' H | fuel c g rng g' rng' Hr IH H].
  - unfold new_game in H. inv_bind H. destruct a as [g1 rng1]. inv_Ok H.
    destruct (_send_osc_state_frame "game_start" g1) as [l ->].
    apply new_level_roster in Hrun.
    eapply roster_ok_same; [.. | exact Hrun]; game_simpl; try reflexivity; lia.
  - unfold apply_command in H. destruct (moves c) as [[dx dy] |].
    + eapply move_player_roster; [| | exact IH | exact H].
      * apply reachable_inv; exact Hr.
      * apply (reachable_occ g Hr).
    + eapply wait_turn_roster; eauto.
Qed.

(** X25.  In every reachable game the level holds only what the generator
    can have put there.  Every monster is a Goblin [g] with at most
    [3 + max(0, level - 1)] hit points or a Nezha [N], found only from level
    2 on, with at most [8 + 5 * min(2, phase)] hit points; there is at most
    one Nezha and there are at most [num_monsters] others.  There are at most
    [num_items] items on the ground: potions of power [4 + level] and the
    four weapons with their base power plus [max(0, level - 1) // 2]. *)
Theorem level_holds_only_what_was_spawned (g : Game) (Hr : reachable g) :
  (forall m, In m (monsters g) ->
     (e_name m = "Goblin" /\ e_char m = "g" /\ e_hp m <= 3 + Z.max 0 (level g - 1))
     \/ (e_name m = "Nezha" /\ e_char m = "N" /\ 2 <= level g
         /\ e_hp m <= 8 + Z.min 2 (nezha_phase g) * 5))
  /\ (List.length (filter is_nezha (monsters g)) <= 1)%nat
  /\ (List.length (monsters g) <= Z.to_nat (num_monsters g) + 1)%nat
  /\ (List.length (items g) <= Z.to_nat (num_items g))%nat
  /\ (forall it, In it (items g) ->
        match i_kind it with
        | potion => i_power it = 4 + level g
        | weapon =>
            exists c nm base,
              In (c, nm, base) weapon_defs
              /\ i_char it = c /\ i_name it = nm
              /\ i_power it = base + Z.max 0 (level g - 1) / 2
        end).
Proof.
  destruct (reachable_roster g Hr) as [H1 H2 H3 H4 H5].
  rewrite Forall_forall in H1, H5.
  split; [exact H1 |]. split; [exact H2 |]. split; [| split; [exact H4 | exact H5]].
  pose proof (filter_length (fun m => is_nezha m) (monsters g)) as Hlen.
  change (filter (fun m => is_nezha m) (monsters g))
    with (filter is_nezha (monsters g)) in Hlen.
  lia.
Qed.

Lemma level_holds_only_what_was_spawned_witness :
  (List.length (monsters (game_of run_d_descended))
   <= Z.to_nat (num_monsters (game_of run_d_descended)) + 1)%nat.
Proof.
  exact (proj1 (proj2 (proj2 (level_holds_only_what_was_spawned
                                (game_of run_d_descended)
                                run_d_descended_reachable)))).
Defined.
